(** * DMR voice relay server: session registry, relay engine and frame codec

    A shallow embedding of [src/dmr_server.c] (with the constants and
    structures of [src/dmr_server.h]) and the properties of its
    specification.

    Conventions of the embedding:
    - the global array [clients] is a [list dmr_client_t]; [clients[i]] is
      list lookup and [clients[i] = c] is list insert at [i];
    - every C function becomes a function from the global state to a
      result, a new global state and the trace of external calls it made
      ([sendto] and the [dmr_db_*] calls), in program order;
    - [time(NULL)] is an extra argument [now] of the function that reads
      the clock; [time_t] values are unbounded integers (the differences
      the code takes of two clock readings do not overflow 64 bits);
    - the outcome of [sendto] and the answer of [dmr_db_get_callsign] come
      from the outside world, a record [world] passed to the functions
      that make these calls;
    - writes to stdout and stderr are not modelled. *)

From stdpp Require Import base numbers list strings.

Open Scope Z_scope.

(** ** Constants of dmr_server.h *)

Definition DMR_PAYLOAD_SIZE : nat := 27.
Definition DMR_HEADER_SIZE : nat := 6.
Definition DMR_MAX_CLIENTS : nat := 100.
Definition DMR_BUFFER_SIZE : nat := 1024.

(** ** Data model *)

(** [struct sockaddr_in], reduced to the two fields the server compares:
    [sin_addr.s_addr] and [sin_port]. *)
Record sockaddr_in := Sockaddr { s_addr : Z; sin_port : Z }.

#[global] Instance sockaddr_in_eq_dec : EqDecision sockaddr_in.
Proof. solve_decision. Defined.

(** [dmr_client_t]: [callsign] is the NUL-terminated contents of the
    [char callsign[10]] field. *)
Record dmr_client_t := Client {
  addr : sockaddr_in;
  last_seen : Z;
  dmr_id : Z;
  active : bool;
  callsign : string
}.

#[global] Instance dmr_client_t_eq_dec : EqDecision dmr_client_t.
Proof. solve_decision. Defined.

(** [dmr_frame_t]: [payload] is the [uint8_t payload[27]] array. *)
Record dmr_frame_t := Frame {
  type : Z;
  slot : Z;
  src_id : Z;
  dst_id : Z;
  payload : list Z
}.

#[global] Instance dmr_frame_t_eq_dec : EqDecision dmr_frame_t.
Proof. solve_decision. Defined.

(** The fields of [dmr_config_t] that the server core reads. *)
Record dmr_config_t := Config {
  verbose : bool;
  timeout : Z;
  db_enabled : bool
}.

(** The globals of dmr_server.c. The four statistics are [uint64_t]. *)
Record server_state := State {
  clients : list dmr_client_t;
  client_count : Z;
  server_config : dmr_config_t;
  packets_received : Z;
  packets_relayed : Z;
  bytes_received : Z;
  bytes_sent : Z
}.

(** External calls, in the order the program makes them. *)
Inductive event :=
  | EvSendto (dest : sockaddr_in) (data : list Z)
  | EvDbLogFrame (f : dmr_frame_t) (src : sockaddr_in)
  | EvDbLogClient (c : dmr_client_t) (ev : string)
  | EvDbGetCallsign (id : Z).

#[global] Instance event_eq_dec : EqDecision event.
Proof. solve_decision. Defined.

(** Field updates. *)
Definition set_last_seen (t : Z) (c : dmr_client_t) : dmr_client_t :=
  Client (addr c) t (dmr_id c) (active c) (callsign c).
Definition set_dmr_id (i : Z) (c : dmr_client_t) : dmr_client_t :=
  Client (addr c) (last_seen c) i (active c) (callsign c).
Definition set_active (b : bool) (c : dmr_client_t) : dmr_client_t :=
  Client (addr c) (last_seen c) (dmr_id c) b (callsign c).
Definition set_callsign (cs : string) (c : dmr_client_t) : dmr_client_t :=
  Client (addr c) (last_seen c) (dmr_id c) (active c) cs.

Definition set_clients (l : list dmr_client_t) (s : server_state) : server_state :=
  State l (client_count s) (server_config s)
        (packets_received s) (packets_relayed s) (bytes_received s) (bytes_sent s).
Definition set_client_count (n : Z) (s : server_state) : server_state :=
  State (clients s) n (server_config s)
        (packets_received s) (packets_relayed s) (bytes_received s) (bytes_sent s).

(** [uint64_t] addition. *)
Definition add64 (a b : Z) : Z := (a + b) mod 2 ^ 64.

(** [strncpy(dst, src, sizeof(dst) - 1); dst[sizeof(dst) - 1] = '\0'] on
    the ten-byte callsign field: at most nine characters are kept. *)
Definition copy_callsign (src : string) : string := String.substring 0 9 src.

(** [memcpy(dst + off, src, n)] on byte arrays held as lists. *)
Definition memcpy (dst : list Z) (off : nat) (src : list Z) (n : nat) : list Z :=
  take off dst ++ take n src ++ drop (off + n) dst.

(** ** Frame codec *)

(** The header fields as [dmr_server_run] reads them from the receive
    buffer (lines 139-142): type, slot, src_id, dst_id. *)
Definition header_of_buffer (buffer : list Z) : Z * Z * Z * Z :=
  (buffer !!! 0%nat,
   buffer !!! 1%nat,
   Z.lor (Z.lor (Z.shiftl (buffer !!! 2%nat) 16) (Z.shiftl (buffer !!! 3%nat) 8))
         (buffer !!! 4%nat),
   Z.lor (Z.lor (Z.shiftl (buffer !!! 5%nat) 16) (Z.shiftl (buffer !!! 6%nat) 8))
         (buffer !!! 7%nat)).

Definition header_of_frame (f : dmr_frame_t) : Z * Z * Z * Z :=
  (type f, slot f, src_id f, dst_id f).

(** [recvfrom(server_socket, buffer, DMR_BUFFER_SIZE, ...)] for an arriving
    datagram [data]: the byte count returned and the buffer afterwards.
    Only the first [bytes_read] bytes of the buffer are written. *)
Definition recvfrom (data buffer : list Z) : nat * list Z :=
  let bytes_read := Nat.min (length data) DMR_BUFFER_SIZE in
  (bytes_read, take bytes_read data ++ drop bytes_read buffer).

(** Lines 137-149 of [dmr_server_run]: the frame parsed out of [buffer]
    into the local variable [frame], whose previous contents are [old].
    [None] is the path on which [bytes_read < DMR_HEADER_SIZE] and nothing
    is parsed. *)
Definition decode (buffer : list Z) (bytes_read : nat) (old : dmr_frame_t)
    : option dmr_frame_t :=
  if decide (DMR_HEADER_SIZE ≤ bytes_read)%nat then
    let '(ty, sl, src, dst) := header_of_buffer buffer in
    let payload_size := (bytes_read - DMR_HEADER_SIZE)%nat in
    let payload_size :=
      if decide (DMR_PAYLOAD_SIZE < payload_size)%nat then DMR_PAYLOAD_SIZE
      else payload_size in
    Some (Frame ty sl src dst
            (memcpy (payload old) 0 (drop DMR_HEADER_SIZE buffer) payload_size))
  else None.

(** Lines 241-253 of [dmr_relay_frame]: the local [buffer] after the
    header assignments and the payload copy, from its previous contents
    [buffer0]. *)
Definition build_frame_buffer (buffer0 : list Z) (frame : dmr_frame_t) : list Z :=
  let b := <[0%nat := type frame]> buffer0 in
  let b := <[1%nat := slot frame]> b in
  let b := <[2%nat := Z.land (Z.shiftr (src_id frame) 16) 255]> b in
  let b := <[3%nat := Z.land (Z.shiftr (src_id frame) 8) 255]> b in
  let b := <[4%nat := Z.land (src_id frame) 255]> b in
  let b := <[5%nat := Z.land (Z.shiftr (dst_id frame) 16) 255]> b in
  let b := <[6%nat := Z.land (Z.shiftr (dst_id frame) 8) 255]> b in
  let b := <[7%nat := Z.land (dst_id frame) 255]> b in
  memcpy b DMR_HEADER_SIZE (payload frame) DMR_PAYLOAD_SIZE.

(** The bytes handed to [sendto]: the first
    [DMR_HEADER_SIZE + DMR_PAYLOAD_SIZE] bytes of the local buffer. The
    buffer is an uninitialised automatic array; every byte that is sent is
    written first ([encode_bytes] below), so a zero buffer stands for it. *)
Definition encode (frame : dmr_frame_t) : list Z :=
  take (DMR_HEADER_SIZE + DMR_PAYLOAD_SIZE)
       (build_frame_buffer (replicate DMR_BUFFER_SIZE 0) frame).

(** ** Session registry and relay engine *)

(** The loop test of [dmr_process_frame], [dmr_relay_frame] and
    [dmr_remove_client]: slot [c] is active and holds the endpoint [a]. *)
Definition is_client_of (a : sockaddr_in) (c : dmr_client_t) : bool :=
  active c && (s_addr (addr c) =? s_addr a) && (sin_port (addr c) =? sin_port a).

(** The loop test of [dmr_add_client]: the slot is free. *)
Definition is_free (c : dmr_client_t) : bool := negb (active c).

(** The loop test of [dmr_cleanup_clients]. *)
Definition timed_out (now tmo : Z) (c : dmr_client_t) : bool :=
  active c && (tmo <? now - last_seen c).

(** The value of a [static] [dmr_client_t]: all bytes zero. *)
Definition zero_client : dmr_client_t := Client (Sockaddr 0 0) 0 0 false "".

(** The globals after [dmr_server_init]: the configuration is copied and
    every slot is marked inactive; the statics start at zero. *)
Definition dmr_server_init (config : dmr_config_t) : server_state :=
  State (replicate DMR_MAX_CLIENTS zero_client) 0 config 0 0 0 0.

Definition result : Type := Z * server_state * list event.

(** [dmr_add_client]: the first free slot is filled. A [for] loop that
    returns from its first matching index is [list_find]. *)
Definition dmr_add_client (now : Z) (a : sockaddr_in) (id : Z)
    (cs : option string) (s : server_state) : result :=
  match list_find is_free (clients s) with
  | Some (i, _) =>
      let c := Client a now id true
                 (match cs with Some x => copy_callsign x | None => "" end) in
      let s' := set_client_count (client_count s + 1)
                  (set_clients (<[i := c]> (clients s)) s) in
      (0, s', if db_enabled (server_config s) then [EvDbLogClient c "connect"] else [])
  | None => (-1, s, [])
  end.

(** [dmr_remove_client]. Both database calls are in the source. *)
Definition dmr_remove_client (a : sockaddr_in) (s : server_state) : result :=
  match list_find (is_client_of a) (clients s) with
  | Some (i, c) =>
      let ev1 := if db_enabled (server_config s)
                 then [EvDbLogClient c "disconnect"] else [] in
      let ev2 := if db_enabled (server_config s)
                 then [EvDbLogClient c "timeout"] else [] in
      let s' := set_client_count (client_count s - 1)
                  (set_clients (<[i := set_active false c]> (clients s)) s) in
      (0, s', ev1 ++ ev2)
  | None => (-1, s, [])
  end.

(** The loop of [dmr_cleanup_clients] over the slots from the current one
    on: the slots, [client_count] and the database calls afterwards. *)
Fixpoint cleanup_loop (now tmo : Z) (db : bool) (cs : list dmr_client_t) (count : Z)
    : list dmr_client_t * Z * list event :=
  match cs with
  | [] => ([], count, [])
  | c :: rest =>
      if timed_out now tmo c then
        let '(rest', count', ev) := cleanup_loop now tmo db rest (count - 1) in
        (set_active false c :: rest', count',
         (if db then [EvDbLogClient c "timeout"] else []) ++ ev)
      else
        let '(rest', count', ev) := cleanup_loop now tmo db rest count in
        (c :: rest', count', ev)
  end.

Definition dmr_cleanup_clients (now : Z) (s : server_state) : server_state * list event :=
  let '(cs, n, ev) :=
    cleanup_loop now (timeout (server_config s)) (db_enabled (server_config s))
                 (clients s) (client_count s) in
  (set_client_count n (set_clients cs s), ev).

(** The outside world: the answer of [dmr_db_get_callsign] for an
    identifier ([None]: the call returns non-zero) and the return value of
    [sendto] for a destination and a datagram. *)
Record world := World {
  db_get_callsign : Z → option string;
  sendto : sockaddr_in → list Z → Z
}.

(** [dmr_process_frame]. The return value of [dmr_add_client] is not
    looked at, and the function returns 0 on every path. *)
Definition dmr_process_frame (w : world) (now : Z) (frame : dmr_frame_t)
    (client_addr : sockaddr_in) (s : server_state) : result :=
  let db := db_enabled (server_config s) in
  let '(s1, ev1) :=
    match list_find (is_client_of client_addr) (clients s) with
    | Some (i, c) =>
        let c := set_last_seen now c in
        if (dmr_id c =? 0) && negb (src_id frame =? 0) then
          let c := set_dmr_id (src_id frame) c in
          if db then
            match db_get_callsign w (src_id frame) with
            | Some name =>
                (set_clients (<[i := set_callsign (copy_callsign name) c]> (clients s)) s,
                 [EvDbGetCallsign (src_id frame)])
            | None =>
                (set_clients (<[i := c]> (clients s)) s,
                 [EvDbGetCallsign (src_id frame)])
            end
          else (set_clients (<[i := c]> (clients s)) s, [])
        else (set_clients (<[i := c]> (clients s)) s, [])
    | None =>
        let '(_, s', ev) := dmr_add_client now client_addr (src_id frame) None s in
        (s', ev)
    end in
  (0, s1, ev1 ++ (if db then [EvDbLogFrame frame client_addr] else [])).

(** The "skip sender" test of [dmr_relay_frame]: [exclude_addr] is not NULL
    and the slot holds that endpoint. *)
Definition is_excluded (exclude_addr : option sockaddr_in) (c : dmr_client_t) : bool :=
  match exclude_addr with
  | Some x => (s_addr (addr c) =? s_addr x) && (sin_port (addr c) =? sin_port x)
  | None => false
  end.

(** The send loop of [dmr_relay_frame] over the slots from the current one
    on, threading [bytes_sent] and [packets_relayed]. *)
Fixpoint relay_loop (w : world) (data : list Z) (exclude_addr : option sockaddr_in)
    (cs : list dmr_client_t) (sent_bytes sent_packets : Z) : Z * Z * list event :=
  match cs with
  | [] => (sent_bytes, sent_packets, [])
  | c :: rest =>
      if active c then
        if is_excluded exclude_addr c
        then relay_loop w data exclude_addr rest sent_bytes sent_packets
        else
          let sent := sendto w (addr c) data in
          let '(b, p, ev) :=
            if sent <? 0
            then relay_loop w data exclude_addr rest sent_bytes sent_packets
            else relay_loop w data exclude_addr rest
                            (add64 sent_bytes sent) (add64 sent_packets 1) in
          (b, p, EvSendto (addr c) data :: ev)
      else relay_loop w data exclude_addr rest sent_bytes sent_packets
  end.

(** [dmr_relay_frame]; [exclude_addr = None] is the NULL pointer. *)
Definition dmr_relay_frame (w : world) (frame : dmr_frame_t) (exclude_addr : option sockaddr_in)
    (s : server_state) : result :=
  let '(b, p, ev) :=
    relay_loop w (encode frame) exclude_addr (clients s) (bytes_sent s) (packets_relayed s) in
  (0, State (clients s) (client_count s) (server_config s)
            (packets_received s) p (bytes_received s) b, ev).

(** The destinations of the [sendto] calls of a trace, in order. *)
Definition sendto_targets (ev : list event) : list sockaddr_in :=
  omap (λ e, match e with EvSendto d _ => Some d | _ => None end) ev.

(** *** The receive loop *)

(** The automatic variables of [dmr_server_run] that live across
    iterations, and its [static] [last_cleanup]. *)
Record run_locals := Locals {
  buffer : list Z;
  frame : dmr_frame_t;
  last_cleanup : Z
}.

(** Lines 132-156: one received datagram [data] from [client_addr].
    [now] is the clock seen by [dmr_process_frame]. *)
Definition handle_datagram (w : world) (now : Z) (data : list Z) (client_addr : sockaddr_in)
    (l : run_locals) (s : server_state) : run_locals * server_state * list event :=
  let '(bytes_read, buf) := recvfrom data (buffer l) in
  let s := State (clients s) (client_count s) (server_config s)
                 (add64 (packets_received s) 1) (packets_relayed s)
                 (add64 (bytes_received s) (Z.of_nat bytes_read)) (bytes_sent s) in
  match decode buf bytes_read (frame l) with
  | Some f =>
      let '(_, s1, ev1) := dmr_process_frame w now f client_addr s in
      let '(_, s2, ev2) := dmr_relay_frame w f (Some client_addr) s1 in
      (Locals buf f (last_cleanup l), s2, ev1 ++ ev2)
  | None => (Locals buf (frame l) (last_cleanup l), s, [])
  end.

(** The frame [dmr_server_run] holds after receiving [data], if it parses
    one: [recvfrom] followed by [decode] on the locals [l]. *)
Definition received_frame (data : list Z) (l : run_locals) : option dmr_frame_t :=
  decode (recvfrom data (buffer l)).2 (recvfrom data (buffer l)).1 (frame l).

(** Lines 158-169: the periodic cleanup, with the two clock readings
    [now] (of the loop) and [now'] (of [dmr_cleanup_clients]). *)
Definition periodic_cleanup (now now' : Z) (l : run_locals) (s : server_state)
    : run_locals * server_state * list event :=
  if 60 <? now - last_cleanup l then
    let '(s', ev) := dmr_cleanup_clients now' s in
    (Locals (buffer l) (frame l) now, s', ev)
  else (l, s, []).

(** One iteration of the [while (1)] loop in which [recvfrom] succeeds. *)
Definition server_iteration (w : world) (t1 t2 t3 : Z) (data : list Z) (client_addr : sockaddr_in)
    (l : run_locals) (s : server_state) : run_locals * server_state * list event :=
  let '(l1, s1, ev1) := handle_datagram w t1 data client_addr l s in
  let '(l2, s2, ev2) := periodic_cleanup t2 t3 l1 s1 in
  (l2, s2, ev1 ++ ev2).

(** *** Sequences of operations *)

Inductive op :=
  | OpFrame (now : Z) (f : dmr_frame_t) (a : sockaddr_in)
  | OpAdd (now : Z) (a : sockaddr_in) (id : Z) (cs : option string)
  | OpRemove (a : sockaddr_in)
  | OpCleanup (now : Z)
  | OpRelay (f : dmr_frame_t) (exclude : option sockaddr_in).

Definition step (w : world) (s : server_state) (o : op) : server_state :=
  match o with
  | OpFrame now f a => (dmr_process_frame w now f a s).1.2
  | OpAdd now a id cs => (dmr_add_client now a id cs s).1.2
  | OpRemove a => (dmr_remove_client a s).1.2
  | OpCleanup now => (dmr_cleanup_clients now s).1
  | OpRelay f x => (dmr_relay_frame w f x s).1.2
  end.

Definition run (w : world) (s : server_state) (ops : list op) : server_state :=
  foldl (step w) s ops.

(** The snapshot of the registry: the active sessions in slot order. *)
Definition snapshot (s : server_state) : list dmr_client_t := filter active (clients s).

Definition active_endpoints (s : server_state) : list sockaddr_in := addr <$> snapshot s.

(** The endpoint has an active session. *)
Definition registered (a : sockaddr_in) (s : server_state) : Prop :=
  a ∈ active_endpoints s.

(** *** Closed forms of the loops *)

(** The slot [dmr_process_frame] writes when the endpoint is known. *)
Definition touched (w : world) (now : Z) (f : dmr_frame_t) (db : bool)
    (c : dmr_client_t) : dmr_client_t :=
  let c := set_last_seen now c in
  if (dmr_id c =? 0) && negb (src_id f =? 0) then
    let c := set_dmr_id (src_id f) c in
    if db then
      match db_get_callsign w (src_id f) with
      | Some name => set_callsign (copy_callsign name) c
      | None => c
      end
    else c
  else c.

(** What [dmr_cleanup_clients] does to one slot. *)
Definition expire (now tmo : Z) (c : dmr_client_t) : dmr_client_t :=
  if timed_out now tmo c then set_active false c else c.

(** The slots [dmr_relay_frame] sends to. *)
Definition relay_target (exclude_addr : option sockaddr_in) (c : dmr_client_t) : bool :=
  active c && negb (is_excluded exclude_addr c).

(** The values of a [uint8_t]. *)
Definition is_byte (b : Z) : Prop := 0 ≤ b < 256.

(** *** Invariants and guards *)

(** [client_count] counts the active slots of the hundred-slot array. *)
Definition registry_inv (s : server_state) : Prop :=
  length (clients s) = DMR_MAX_CLIENTS ∧
  client_count s = Z.of_nat (length (snapshot s)).

(** No two active slots hold the same endpoint. *)
Definition unique_endpoints (s : server_state) : Prop := NoDup (active_endpoints s).

(** [dmr_add_client] is called for an endpoint without an active session,
    which is how [dmr_process_frame] calls it ([!client_found]). *)
Definition fresh_registration (s : server_state) (o : op) : bool :=
  match o with
  | OpAdd _ a _ _ =>
      match list_find (is_client_of a) (clients s) with
      | None => true
      | Some _ => false
      end
  | _ => true
  end.

(** Every [OpAdd] of the sequence is a fresh registration in the state it
    is applied to. *)
Fixpoint admissible (w : world) (s : server_state) (ops : list op) : bool :=
  match ops with
  | [] => true
  | o :: ops' => fresh_registration s o && admissible w (step w s o) ops'
  end.

(** The operations that register an endpoint, and the endpoint. *)
Definition registration_endpoint (o : op) : option sockaddr_in :=
  match o with
  | OpFrame _ _ a => Some a
  | OpAdd _ a _ _ => Some a
  | _ => None
  end.

(** A frame arrival: the clock, the frame and the source endpoint. *)
Definition frame_op (x : Z * dmr_frame_t * sockaddr_in) : op := OpFrame x.1.1 x.1.2 x.2.

(** ** Concrete scenarios *)

(** A world without directory entries in which every send succeeds. *)
Definition quiet_world : world := World (λ _, None) (λ _ d, Z.of_nat (length d)).

(** The configuration [main] starts from, and the same with database
    logging switched on. *)
Definition default_config : dmr_config_t := Config false 300 false.
Definition logging_config : dmr_config_t := Config false 300 true.

Definition endpoint_A : sockaddr_in := Sockaddr 167772161 62031.
Definition endpoint_B : sockaddr_in := Sockaddr 167772162 62031.
Definition endpoint_C : sockaddr_in := Sockaddr 167772163 40000.

Definition sync_frame (src : Z) : dmr_frame_t := Frame 4 1 src 0 (replicate 27 0).
Definition voice_frame (src : Z) : dmr_frame_t := Frame 1 1 src 9 (replicate 27 0).

(** A hundred distinct endpoints, each sending one frame at time 1000. *)
Definition nth_endpoint (n : nat) : sockaddr_in := Sockaddr (Z.of_nat n + 1) 62031.
Definition full_house : list op :=
  (λ n, OpFrame 1000 (sync_frame (Z.of_nat n + 1)) (nth_endpoint n)) <$> seq 0 100.
Notation "'full_registry'" :=
  (run quiet_world (dmr_server_init default_config) full_house) (only parsing).
Definition endpoint_late : sockaddr_in := Sockaddr 4294967295 62031.

(** Locals of [dmr_server_run] that hold zeros, and a datagram of eight
    bytes: a Sync frame, slot 1, source 200, destination 9. *)
Definition zero_locals : run_locals :=
  Locals (replicate DMR_BUFFER_SIZE 0) (Frame 0 0 0 0 (replicate DMR_PAYLOAD_SIZE 0)) 0.
Definition sync_datagram : list Z := [4; 1; 0; 0; 200; 0; 0; 9].

(** The first six bytes of the same datagram, and locals in which bytes 6
    and 7 of the receive buffer hold 1 and 2 while the frame variable holds
    zeros. *)
Definition short_sync_datagram : list Z := [4; 1; 0; 0; 200; 0].
Definition stale_locals : run_locals :=
  Locals (<[6%nat := 1]> (<[7%nat := 2]> (replicate DMR_BUFFER_SIZE 0)))
         (Frame 0 0 0 0 (replicate DMR_PAYLOAD_SIZE 0)) 0.

(** Two sessions, A and B. *)
Definition two_sessions : list op :=
  [OpFrame 1000 (sync_frame 100) endpoint_A; OpFrame 1001 (voice_frame 200) endpoint_B].
Definition session_A : dmr_client_t := Client endpoint_A 1000 100 true "".
Definition session_B : dmr_client_t := Client endpoint_B 1001 200 true "".

(** [dmr_add_client] called twice for the endpoint A. *)
Definition double_registration : list op :=
  [OpAdd 1000 endpoint_A 100 None; OpAdd 1001 endpoint_A 100 None].

(** Two sessions, a third one added directly, one removed, and a cleanup. *)
Definition mixed_ops : list op :=
  two_sessions ++ [OpAdd 1002 endpoint_C 300 None; OpRemove endpoint_A; OpCleanup 1200].

(** A was last seen at 1000 and B at 1250. *)
Definition idle_A_active_B : list op :=
  [OpFrame 1000 (sync_frame 100) endpoint_A; OpFrame 1250 (voice_frame 200) endpoint_B].

(** ** The receive loop over many datagrams *)

(** The automatic arrays of [dmr_server_run] have their declared sizes
    and hold [uint8_t] values. *)
Definition locals_ok (l : run_locals) : Prop :=
  length (buffer l) = DMR_BUFFER_SIZE ∧
  length (payload (frame l)) = DMR_PAYLOAD_SIZE ∧
  Forall is_byte (buffer l) ∧
  Forall is_byte (payload (frame l)).

(** One successful [recvfrom]: the datagram and its source, and the three
    clock readings of the iteration (in [dmr_process_frame] or
    [dmr_add_client], in the loop, in [dmr_cleanup_clients]). *)
Record arrival := Arrival {
  t_frame : Z;
  t_loop : Z;
  t_cleanup : Z;
  datagram : list Z;
  source : sockaddr_in
}.

(** The [while (1)] loop of [dmr_server_run] over a sequence of arrivals. *)
Fixpoint server_loop (w : world) (arrivals : list arrival) (l : run_locals)
    (s : server_state) : run_locals * server_state * list event :=
  match arrivals with
  | [] => (l, s, [])
  | x :: rest =>
      let '(l1, s1, ev1) :=
        server_iteration w (t_frame x) (t_loop x) (t_cleanup x) (datagram x) (source x) l s in
      let '(l2, s2, ev2) := server_loop w rest l1 s1 in
      (l2, s2, ev1 ++ ev2)
  end.

(** A world in which the send to endpoint B fails and the others succeed. *)
Definition lossy_world : world :=
  World (λ _, None)
        (λ d data, if decide (d = Sockaddr 167772162 62031) then -1
                   else Z.of_nat (length data)).

(** Lines 132-134: the receive counters after a datagram of [bytes_read]
    bytes. *)
Definition count_received (bytes_read : nat) (s : server_state) : server_state :=
  State (clients s) (client_count s) (server_config s)
        (add64 (packets_received s) 1) (packets_relayed s)
        (add64 (bytes_received s) (Z.of_nat bytes_read)) (bytes_sent s).

(** A datagram of 35 bytes (a Voice frame, slot 2, source 100, then the
    bytes 1 to 27) and one of 10 bytes. *)
Definition long_datagram : list Z := [1; 2; 0; 0; 100; 0; 0; 9] ++ (Z.of_nat <$> seq 1 27).
Definition ten_byte_datagram : list Z := [1; 1; 0; 0; 200; 0; 0; 7; 42; 43].

(** ** The database module (dmr_db.c) *)

(** [dmr_db_config_t] of dmr_server.h. [password] may be NULL. *)
Record dmr_db_config_t := DbConfig {
  host : string;
  user : string;
  password : option string;
  database : string;
  port : Z;
  enabled : bool
}.

Module Db.

(** The statements sent with [mysql_query], by kind and with the values
    [snprintf] formats into them: the client address stands for the
    [inet_ntop] text of its IP and its port in host order. *)
Inductive query :=
  | CreateClientsTable
  | CreateFramesTable
  | CreateEventsTable
  | InsertFrame (ty sl src dst : Z) (client : sockaddr_in) (payload_size : Z)
  | InsertEvent (event : string) (id : Z) (name : string) (client : sockaddr_in)
  | SelectClient (client : sockaddr_in)
  | UpdateClient (id : Z) (name : string) (client : sockaddr_in)
  | InsertClient (id : Z) (name : string) (client : sockaddr_in)
  | DeactivateClient (client : sockaddr_in)
  | SelectCallsign (id : Z).

#[global] Instance query_eq_dec : EqDecision query.
Proof. solve_decision. Defined.

(** Calls into the MySQL client library that act on the connection, in
    program order ([mysql_error] and [mysql_num_rows] only read). *)
Inductive mysql_call :=
  | LibraryInit
  | Init
  | Options
  | RealConnect (h u : string) (pw : option string) (db : string) (p : Z)
  | Query (q : query)
  | StoreResult
  | FetchRow
  | FreeResult
  | Close
  | LibraryEnd.

#[global] Instance mysql_call_eq_dec : EqDecision mysql_call.
Proof. solve_decision. Defined.

(** What the library answers during one call of a function of the module:
    whether [mysql_library_init] fails, the handle [mysql_init] returns
    (NULL is [None]), whether [mysql_real_connect] succeeds, whether
    [mysql_query] fails for a statement, and the result set
    [mysql_store_result] gives for it (NULL is [None]; each row is its
    first column, NULL is [None]). *)
Record mysql_lib := Lib {
  library_init_fails : bool;
  init_handle : option Z;
  connect_ok : bool;
  query_fails : query → bool;
  store_result : query → option (list (option string))
}.

(** The statics of dmr_db.c: [mysql_conn] and [db_enabled]. *)
Record db_state := DbState {
  mysql_conn : option Z;
  db_enabled : bool
}.

Definition initial : db_state := DbState None false.

(** The guard of the logging functions:
    [!db_enabled || mysql_conn == NULL]. *)
Definition unusable (st : db_state) : bool :=
  negb (db_enabled st) || match mysql_conn st with None => true | Some _ => false end.

(** [dmr_db_create_tables]. *)
Definition dmr_db_create_tables (lib : mysql_lib) (st : db_state) : Z * list mysql_call :=
  if unusable st then (0, [])
  else if query_fails lib CreateClientsTable then (-1, [Query CreateClientsTable])
  else if query_fails lib CreateFramesTable
  then (-1, [Query CreateClientsTable; Query CreateFramesTable])
  else if query_fails lib CreateEventsTable
  then (-1, [Query CreateClientsTable; Query CreateFramesTable; Query CreateEventsTable])
  else (0, [Query CreateClientsTable; Query CreateFramesTable; Query CreateEventsTable]).

(** [dmr_db_init]. *)
Definition dmr_db_init (lib : mysql_lib) (config : dmr_db_config_t) (st : db_state)
    : Z * db_state * list mysql_call :=
  if negb (enabled config) then (0, DbState (mysql_conn st) false, [])
  else if library_init_fails lib then (-1, st, [LibraryInit])
  else
    match init_handle lib with
    | None => (-1, DbState None (db_enabled st), [LibraryInit; Init; LibraryEnd])
    | Some h =>
        let connect :=
          [LibraryInit; Init; Options;
           RealConnect (host config) (user config) (password config)
                       (database config) (port config)] in
        if negb (connect_ok lib)
        then (-1, DbState None (db_enabled st), connect ++ [Close; LibraryEnd])
        else
          let '(r, calls) := dmr_db_create_tables lib (DbState (Some h) (db_enabled st)) in
          if negb (r =? 0)
          then (-1, DbState None (db_enabled st), connect ++ calls ++ [Close; LibraryEnd])
          else (0, DbState (Some h) true, connect ++ calls)
    end.

(** [dmr_db_log_frame], for the non-NULL arguments the server passes. *)
Definition dmr_db_log_frame (lib : mysql_lib) (st : db_state) (frame : dmr_frame_t)
    (client_addr : sockaddr_in) : Z * list mysql_call :=
  if unusable st then (0, [])
  else
    let q := InsertFrame (type frame) (slot frame) (src_id frame) (dst_id frame)
                         client_addr (Z.of_nat DMR_PAYLOAD_SIZE) in
    if query_fails lib q then (-1, [Query q]) else (0, [Query q]).

(** [client->callsign[0] ? client->callsign : "Unknown"]. *)
Definition shown_callsign (c : dmr_client_t) : string :=
  match callsign c with
  | EmptyString => "Unknown"
  | name => name
  end.

(** [dmr_db_log_client]. *)
Definition dmr_db_log_client (lib : mysql_lib) (st : db_state) (client : dmr_client_t)
    (event : string) : Z * list mysql_call :=
  if unusable st then (0, [])
  else
    let q1 := InsertEvent event (dmr_id client) (shown_callsign client) (addr client) in
    if query_fails lib q1 then (-1, [Query q1])
    else if String.eqb event "connect" then
      let q2 := SelectClient (addr client) in
      if query_fails lib q2 then (-1, [Query q1; Query q2])
      else
        match store_result lib q2 with
        | None => (-1, [Query q1; Query q2; StoreResult])
        | Some rows =>
            let q3 :=
              if (0 <? length rows)%nat
              then UpdateClient (dmr_id client) (shown_callsign client) (addr client)
              else InsertClient (dmr_id client) (shown_callsign client) (addr client) in
            (if query_fails lib q3 then -1 else 0,
             [Query q1; Query q2; StoreResult; FreeResult; Query q3])
        end
    else if String.eqb event "disconnect" || String.eqb event "timeout" then
      let q2 := DeactivateClient (addr client) in
      (if query_fails lib q2 then -1 else 0, [Query q1; Query q2])
    else (0, [Query q1]).

(** [dmr_db_get_callsign] for a non-NULL buffer of [size] bytes: [None] is
    the result -1, [Some name] the result 0 with [name] in the buffer. *)
Definition dmr_db_get_callsign (lib : mysql_lib) (st : db_state) (id : Z) (size : nat)
    : option string * list mysql_call :=
  if unusable st || (size =? 0)%nat then (None, [])
  else
    let q := SelectCallsign id in
    if query_fails lib q then (None, [Query q])
    else
      match store_result lib q with
      | None => (None, [Query q; StoreResult])
      | Some [] => (None, [Query q; StoreResult; FreeResult])
      | Some (None :: _) => (None, [Query q; StoreResult; FetchRow; FreeResult])
      | Some (Some name :: _) =>
          (Some (String.substring 0 (size - 1) name),
           [Query q; StoreResult; FetchRow; FreeResult])
      end.

(** [dmr_db_cleanup]. *)
Definition dmr_db_cleanup (st : db_state) : db_state * list mysql_call :=
  (DbState None false,
   match mysql_conn st with
   | Some _ => [Close; LibraryEnd]
   | None => [LibraryEnd]
   end).

(** The database calls of a server trace, made in turn on the module:
    the library calls they cause. The library answers [lib] throughout. *)
Definition replay (lib : mysql_lib) (st : db_state) (ev : list event) : list mysql_call :=
  ev ≫= λ e,
    match e with
    | EvSendto _ _ => []
    | EvDbLogFrame f a => (dmr_db_log_frame lib st f a).2
    | EvDbLogClient c name => (dmr_db_log_client lib st c name).2
    | EvDbGetCallsign id => (dmr_db_get_callsign lib st id 10).2
    end.

(** Settings under which every library call succeeds and no rows exist. *)
Definition willing : mysql_lib := Lib false (Some 1) true (λ _, false) (λ _, Some []).
Definition refusing : mysql_lib := Lib false (Some 1) false (λ _, false) (λ _, Some []).
Definition local_db : dmr_db_config_t := DbConfig "localhost" "dmr" None "dmr_server" 3306 true.

End Db.

(** ** The command line (main.c) *)

(** The [port] field of [dmr_db_config_t], under a name that stays visible
    next to the [port] of the whole configuration. *)
Definition db_port (d : dmr_db_config_t) : Z := port d.

Module Main.

(** The whole [dmr_config_t] as [main] fills it; [bind_addr] may be NULL. *)
Record config := MainConfig {
  port : Z;
  verbose : bool;
  bind_addr : option string;
  timeout : Z;
  db : dmr_db_config_t
}.

(** The part of the configuration the server core reads. *)
Definition server_view (c : config) : dmr_config_t :=
  Config (verbose c) (timeout c) (enabled (db c)).

(** Lines 55-66: the defaults. *)
Definition defaults : config :=
  MainConfig 62031 false None 300 (DbConfig "localhost" "dmr" None "dmr_server" 3306 false).

(** Conversion of an [int] to [uint16_t]. *)
Definition to_uint16 (n : Z) : Z := n mod 65536.

Definition set_db (f : dmr_db_config_t → dmr_db_config_t) (c : config) : config :=
  MainConfig (port c) (verbose c) (bind_addr c) (timeout c) (f (db c)).

(** What one pass through the body of the argument loop does: go on with
    the next argument, go on after the value that was consumed ([++i]), or
    return from [main] with an exit code. *)
Inductive outcome :=
  | Next (c : config)
  | SkipValue (c : config)
  | Exit (code : Z).

(** Lines 70-97 for [argv[i] = arg]; [next] is [argv[i + 1]] when
    [i + 1 < argc]. [atoi] is the C library's. *)
Definition parse_option (atoi : string → Z) (arg : string) (next : option string)
    (c : config) : outcome :=
  let more := match next with Some _ => true | None => false end in
  let value := default "" next in
  if String.eqb arg "-p" && more then
    SkipValue (MainConfig (to_uint16 (atoi value)) (verbose c) (bind_addr c) (timeout c) (db c))
  else if String.eqb arg "-b" && more then
    SkipValue (MainConfig (port c) (verbose c) (Some value) (timeout c) (db c))
  else if String.eqb arg "-t" && more then
    SkipValue (MainConfig (port c) (verbose c) (bind_addr c) (atoi value) (db c))
  else if String.eqb arg "-v" then
    Next (MainConfig (port c) true (bind_addr c) (timeout c) (db c))
  else if String.eqb arg "-h" then Exit 0
  else if String.eqb arg "--db-enable" then
    Next (set_db (λ d, DbConfig (host d) (user d) (password d) (database d)
                                (db_port d) true) c)
  else if String.eqb arg "--db-host" && more then
    SkipValue (set_db (λ d, DbConfig value (user d) (password d) (database d)
                                     (db_port d) (enabled d)) c)
  else if String.eqb arg "--db-port" && more then
    SkipValue (set_db (λ d, DbConfig (host d) (user d) (password d) (database d)
                                     (to_uint16 (atoi value)) (enabled d)) c)
  else if String.eqb arg "--db-user" && more then
    SkipValue (set_db (λ d, DbConfig (host d) value (password d) (database d)
                                     (db_port d) (enabled d)) c)
  else if String.eqb arg "--db-pass" && more then
    SkipValue (set_db (λ d, DbConfig (host d) (user d) (Some value) (database d)
                                     (db_port d) (enabled d)) c)
  else if String.eqb arg "--db-name" && more then
    SkipValue (set_db (λ d, DbConfig (host d) (user d) (password d) value
                                     (db_port d) (enabled d)) c)
  else Exit 1.

(** The loop [for (i = 1; i < argc; i++)] over the arguments from
    [argv[i]] on: the configuration when the loop ends, or the exit code
    with which [main] returns from inside it. *)
Fixpoint parse_args (atoi : string → Z) (args : list string) (c : config) : config + Z :=
  match args with
  | [] => inl c
  | arg :: rest =>
      match parse_option atoi arg (head rest) c with
      | Exit code => inr code
      | Next c' => parse_args atoi rest c'
      | SkipValue c' =>
          match rest with
          | _ :: rest' => parse_args atoi rest' c'
          | [] => inl c'
          end
      end
  end.

(** The options that take a value. *)
Definition value_options : list string :=
  ["-p"; "-b"; "-t"; "--db-host"; "--db-port"; "--db-user"; "--db-pass"; "--db-name"].

(** All the options. *)
Definition flag_options : list string := ["-v"; "-h"; "--db-enable"].

(** An [atoi] for the scenarios: the number written by the leading
    decimal digits of the text. *)
Fixpoint leading_digits (acc : Z) (s : string) : Z :=
  match s with
  | String ch rest =>
      let d := Z.of_nat (Ascii.nat_of_ascii ch) - 48 in
      if (0 <=? d) && (d <=? 9) then leading_digits (10 * acc + d) rest else acc
  | EmptyString => acc
  end.
Definition digits_atoi (s : string) : Z := leading_digits 0 s.

End Main.

(** The frames handed to [dmr_db_log_frame] in a trace, with their
    sources, in order. *)
Definition logged_frames (ev : list event) : list (dmr_frame_t * sockaddr_in) :=
  omap (λ e, match e with EvDbLogFrame f a => Some (f, a) | _ => None end) ev.

#[global] Instance is_byte_dec (b : Z) : Decision (is_byte b).
Proof. unfold is_byte. apply _. Defined.

(** ** Further scenarios *)

(** A world whose directory knows the identifier 100 under a name of
    twelve characters, and in which every send succeeds. *)
Definition directory_world : world :=
  World (λ id, if id =? 100 then Some "BD4XYZ/QRP-1" else None)
        (λ _ d, Z.of_nat (length d)).

(** A session in slot 0 whose identifier is still zero. *)
Definition anonymous_session : list op := [OpFrame 1000 (sync_frame 0) endpoint_A].

(** Three arrivals: 35 bytes from A, 10 bytes from B, 3 bytes from C two
    minutes later. *)
Definition three_arrivals : list arrival :=
  [Arrival 1000 1000 1000 long_datagram endpoint_A;
   Arrival 1001 1001 1001 ten_byte_datagram endpoint_B;
   Arrival 1121 1121 1121 [4; 1; 0] endpoint_C].

(** Command lines, without the program name. *)
Definition typical_arguments : list string := ["-p"; "7000"; "-v"; "--db-enable"; "-t"; "60"].

Notation "'registry_AB'" :=
  (run quiet_world (dmr_server_init default_config) two_sessions) (only parsing).
Notation "'logged_registry_AB'" :=
  (run quiet_world (dmr_server_init logging_config) two_sessions) (only parsing).

(** A direct registration with a callsign of sixteen characters. *)
Definition long_named_registration : list op :=
  [OpAdd 1000 endpoint_A 1 (Some "VERYLONGCALLSIGN")].

(** The configuration [typical_arguments] gives. *)
Definition typical_config : Main.config :=
  Main.MainConfig 7000 true None 60 (DbConfig "localhost" "dmr" None "dmr_server" 3306 true).

(** * Properties *)

(** ** Arrays as lists: filters under a one-slot update *)

Section filter_update.
Context {A : Type} (P : A → Prop) `{!∀ x, Decision (P x)}.

Lemma filter_split (l : list A) (i : nat) (x : A) :
  l !! i = Some x →
  filter P l = filter P (take i l) ++ (if decide (P x) then [x] else []) ++ filter P (drop (S i) l).
Proof.
  intros Hi. rewrite <- (take_drop_middle l i x Hi) at 1.
  rewrite filter_app, filter_cons. by destruct (decide (P x)).
Qed.

Lemma filter_insert_split (l : list A) (i : nat) (x y : A) :
  l !! i = Some x →
  filter P (<[i := y]> l) = filter P (take i l) ++ (if decide (P y) then [y] else []) ++ filter P (drop (S i) l).
Proof.
  intros Hi. rewrite insert_take_drop by (by eapply lookup_lt_Some).
  rewrite filter_app, filter_cons. by destruct (decide (P y)).
Qed.

Lemma filter_insert_same (l : list A) (i : nat) (x y : A) :
  l !! i = Some x → (P x ↔ P y) →
  length (filter P (<[i := y]> l)) = length (filter P l).
Proof.
  intros Hi Hxy. rewrite (filter_insert_split l i x y Hi), (filter_split l i x Hi).
  rewrite !length_app.
  destruct (decide (P x)), (decide (P y)); simpl; tauto || lia.
Qed.

Lemma filter_insert_gain (l : list A) (i : nat) (x y : A) :
  l !! i = Some x → ¬ P x → P y →
  length (filter P (<[i := y]> l)) = S (length (filter P l)).
Proof.
  intros Hi Hx Hy. rewrite (filter_insert_split l i x y Hi), (filter_split l i x Hi).
  rewrite !length_app.
  destruct (decide (P x)), (decide (P y)); simpl; tauto || lia.
Qed.

Lemma filter_insert_loss (l : list A) (i : nat) (x y : A) :
  l !! i = Some x → P x → ¬ P y →
  S (length (filter P (<[i := y]> l))) = length (filter P l).
Proof.
  intros Hi Hx Hy. rewrite (filter_insert_split l i x y Hi), (filter_split l i x Hi).
  rewrite !length_app.
  destruct (decide (P x)), (decide (P y)); simpl; tauto || lia.
Qed.

Lemma filter_all (l : list A) : Forall P l → filter P l = l.
Proof.
  induction 1 as [|x l Hx _ IH]; [done|].
  by rewrite filter_cons_True, IH.
Qed.

Lemma filter_full_length (l : list A) :
  length (filter P l) = length l → Forall P l.
Proof.
  induction l as [|x l IH]; [constructor|].
  rewrite filter_cons. destruct (decide (P x)) as [Hx|Hx]; simpl; intros Hl.
  - constructor; [done|]. apply IH. lia.
  - pose proof (length_filter P l). lia.
Qed.

End filter_update.

(** ** The loop tests *)

Lemma is_client_of_spec (a : sockaddr_in) (c : dmr_client_t) :
  is_client_of a c ↔ active c ∧ addr c = a.
Proof.
  unfold is_client_of. destruct a as [ip port], c as [[ip' port'] t i act cs]; simpl.
  rewrite !andb_True, !Is_true_true, !Z.eqb_eq. split.
  - intros [[? ->] ->]. done.
  - intros [? [= -> ->]]. done.
Qed.

Lemma is_free_spec (c : dmr_client_t) : is_free c ↔ ¬ active c.
Proof. unfold is_free. destruct (active c); simpl; tauto. Qed.

Lemma registered_spec (a : sockaddr_in) (s : server_state) :
  registered a s ↔ ∃ c, c ∈ clients s ∧ active c ∧ addr c = a.
Proof.
  unfold registered, active_endpoints, snapshot. rewrite list_elem_of_fmap.
  split.
  - intros (c & -> & Hc). apply list_elem_of_filter in Hc as [? ?]. eauto.
  - intros (c & ? & ? & <-). exists c. split; [done|]. by apply list_elem_of_filter.
Qed.

(** The lookup loop finds a slot exactly for registered endpoints. *)
Lemma lookup_registered (a : sockaddr_in) (s : server_state) :
  registered a s ↔ is_Some (list_find (is_client_of a) (clients s)).
Proof.
  rewrite registered_spec. split.
  - intros (c & Hin & Hact & Ha).
    destruct (list_find (is_client_of a) (clients s)) as [p|] eqn:E; [done|].
    apply list_find_None in E. rewrite Forall_forall in E.
    destruct (E c Hin). by apply is_client_of_spec.
  - intros [[i c] E]. apply list_find_Some in E as (Hi & Hc & _).
    apply is_client_of_spec in Hc as [? ?].
    exists c. split; [|done]. by eapply list_elem_of_lookup_2.
Qed.

Lemma lookup_unregistered (a : sockaddr_in) (s : server_state) :
  ¬ registered a s ↔ list_find (is_client_of a) (clients s) = None.
Proof.
  rewrite lookup_registered. destruct (list_find _ _).
  - split; [intros []; by eexists|done].
  - split; [done|]. intros _ [? ?]; done.
Qed.

(** A registry with fewer active slots than slots has a free one. *)
Lemma free_slot_exists (l : list dmr_client_t) :
  (length (filter active l) < length l)%nat → is_Some (list_find is_free l).
Proof.
  intros Hlt. destruct (list_find is_free l) as [p|] eqn:E; [done|].
  apply list_find_None in E.
  assert (Forall (λ c, active c) l) as Hall.
  { eapply Forall_impl; [exact E|]. intros c Hc. simpl in Hc.
    rewrite is_free_spec in Hc. destruct (active c); simpl in *; tauto. }
  apply (filter_all (λ c : dmr_client_t, Is_true (active c))) in Hall.
  rewrite Hall in Hlt. lia.
Qed.

Lemma no_free_slot (l : list dmr_client_t) :
  length (filter active l) = length l → list_find is_free l = None.
Proof.
  intros Hl. apply list_find_None.
  apply (filter_full_length (λ c : dmr_client_t, Is_true (active c))) in Hl.
  eapply Forall_impl; [exact Hl|]. intros c Hc. simpl. rewrite is_free_spec. tauto.
Qed.

(** ** What each operation does to the registry *)

Lemma add_client_full now a id cs s :
  list_find is_free (clients s) = None →
  dmr_add_client now a id cs s = (-1, s, []).
Proof. intros E. unfold dmr_add_client. by rewrite E. Qed.

Lemma add_client_slot now a id cs s i x :
  list_find is_free (clients s) = Some (i, x) →
  ∃ c, addr c = a ∧ active c = true ∧ last_seen c = now ∧ dmr_id c = id ∧
       (dmr_add_client now a id cs s).1.1 = 0 ∧
       clients (dmr_add_client now a id cs s).1.2 = <[i := c]> (clients s) ∧
       client_count (dmr_add_client now a id cs s).1.2 = client_count s + 1.
Proof.
  intros E. unfold dmr_add_client. rewrite E. simpl.
  eexists (Client a now id true _). by repeat split.
Qed.

Lemma touched_fields w now f db c :
  addr (touched w now f db c) = addr c ∧
  active (touched w now f db c) = active c ∧
  last_seen (touched w now f db c) = now ∧
  dmr_id (touched w now f db c) = (if dmr_id c =? 0 then src_id f else dmr_id c).
Proof.
  unfold touched. simpl.
  destruct (dmr_id c =? 0) eqn:Eid, (src_id f =? 0) eqn:Esrc; simpl;
    try (destruct db; [destruct (db_get_callsign w (src_id f))|]); simpl;
    repeat split; try done.
  all: apply Z.eqb_eq in Eid, Esrc; congruence.
Qed.

Lemma process_frame_found w now f a s i c :
  list_find (is_client_of a) (clients s) = Some (i, c) →
  (dmr_process_frame w now f a s).1.2
  = set_clients (<[i := touched w now f (db_enabled (server_config s)) c]> (clients s)) s.
Proof.
  intros E. unfold dmr_process_frame, touched. rewrite E. simpl.
  destruct (dmr_id c =? 0), (src_id f =? 0); simpl; try done.
  destruct (db_enabled (server_config s)); [|done].
  by destruct (db_get_callsign w (src_id f)).
Qed.

Lemma process_frame_new w now f a s :
  list_find (is_client_of a) (clients s) = None →
  (dmr_process_frame w now f a s).1.2 = (dmr_add_client now a (src_id f) None s).1.2.
Proof.
  intros E. unfold dmr_process_frame. rewrite E.
  by destruct (dmr_add_client now a (src_id f) None s) as [[r s'] ev].
Qed.

Lemma process_frame_returns_0 w now f a s : (dmr_process_frame w now f a s).1.1 = 0.
Proof.
  unfold dmr_process_frame.
  by destruct (match list_find _ _ with Some _ => _ | None => _ end).
Qed.

Lemma remove_client_found a s i c :
  list_find (is_client_of a) (clients s) = Some (i, c) →
  (dmr_remove_client a s).1
  = (0, set_client_count (client_count s - 1)
          (set_clients (<[i := set_active false c]> (clients s)) s)).
Proof. intros E. unfold dmr_remove_client. by rewrite E. Qed.

Lemma remove_client_unknown a s :
  list_find (is_client_of a) (clients s) = None →
  dmr_remove_client a s = (-1, s, []).
Proof. intros E. unfold dmr_remove_client. by rewrite E. Qed.

(** The cleanup loop in closed form: every slot is handled on its own. *)
Lemma cleanup_loop_spec now tmo db cs count :
  cleanup_loop now tmo db cs count
  = (expire now tmo <$> cs,
     count - Z.of_nat (length (filter (timed_out now tmo) cs)),
     if db then (λ c, EvDbLogClient c "timeout") <$> filter (timed_out now tmo) cs
     else []).
Proof.
  revert count. induction cs as [|c cs IH]; intros count.
  - simpl. rewrite Z.sub_0_r. by destruct db.
  - cbn [cleanup_loop]. rewrite filter_cons, fmap_cons. unfold expire at 1.
    destruct (timed_out now tmo c) eqn:E; rewrite IH.
    + rewrite decide_True by done.
      rewrite length_cons. f_equal; [f_equal; lia|]. by destruct db.
    + rewrite decide_False by (intros []). done.
Qed.

Lemma cleanup_clients now s :
  clients (dmr_cleanup_clients now s).1
  = expire now (timeout (server_config s)) <$> clients s.
Proof. unfold dmr_cleanup_clients. by rewrite cleanup_loop_spec. Qed.

Lemma cleanup_count now s :
  client_count (dmr_cleanup_clients now s).1
  = client_count s
    - Z.of_nat (length (filter (timed_out now (timeout (server_config s))) (clients s))).
Proof. unfold dmr_cleanup_clients. by rewrite cleanup_loop_spec. Qed.

Lemma expire_active now tmo c :
  active (expire now tmo c) = active c && negb (tmo <? now - last_seen c).
Proof.
  unfold expire, timed_out.
  destruct (active c) eqn:Ea, (tmo <? now - last_seen c); simpl; by rewrite ?Ea.
Qed.

Lemma expire_keeps now tmo c : active (expire now tmo c) = true → expire now tmo c = c.
Proof.
  unfold expire. destruct (timed_out now tmo c); [|done]. simpl. done.
Qed.

(** The active slots after a cleanup are the active slots that had not
    timed out, unchanged and in the same order. *)
Lemma filter_active_expire now tmo (cs : list dmr_client_t) :
  filter active (expire now tmo <$> cs)
  = filter (λ c, negb (tmo <? now - last_seen c)) (filter active cs).
Proof.
  induction cs as [|c cs IH]; [done|].
  rewrite fmap_cons, !filter_cons, IH.
  pose proof (expire_active now tmo c) as Ha.
  pose proof (expire_keeps now tmo c) as Hk.
  destruct (active c) eqn:Ec, (tmo <? now - last_seen c) eqn:Et; simpl in Ha.
  - rewrite decide_False by (rewrite Ha; intros []). rewrite decide_True by done.
    rewrite filter_cons, decide_False by (rewrite Et; intros []). done.
  - rewrite decide_True by (by rewrite Ha). rewrite decide_True by done.
    rewrite filter_cons, decide_True by (by rewrite Et). by rewrite Hk.
  - rewrite decide_False by (rewrite Ha; intros []).
    by rewrite decide_False by (intros []).
  - rewrite decide_False by (rewrite Ha; intros []).
    by rewrite decide_False by (intros []).
Qed.

(** The relay loop sends to the active slots that do not hold the excluded
    endpoint, in slot order. *)
Lemma relay_loop_targets w data x cs b p :
  sendto_targets (relay_loop w data x cs b p).2 = addr <$> filter (relay_target x) cs.
Proof.
  revert b p. induction cs as [|c cs IH]; intros b p; [done|].
  cbn [relay_loop].
  destruct (active c) eqn:Ea; [destruct (is_excluded x c) eqn:Ex|].
  - rewrite filter_cons_False by (unfold relay_target; rewrite Ea, Ex; intros []).
    apply IH.
  - rewrite filter_cons_True by (unfold relay_target; by rewrite Ea, Ex).
    rewrite fmap_cons.
    destruct (sendto w (addr c) data <? 0).
    + specialize (IH b p).
      destruct (relay_loop w data x cs b p) as [[b' p'] ev]. simpl in *.
      by rewrite IH.
    + specialize (IH (add64 b (sendto w (addr c) data)) (add64 p 1)).
      destruct (relay_loop w data x cs _ _) as [[b' p'] ev]. simpl in *.
      by rewrite IH.
  - rewrite filter_cons_False by (unfold relay_target; rewrite Ea; intros []).
    apply IH.
Qed.

Lemma relay_loop_data w data x cs b p e :
  e ∈ (relay_loop w data x cs b p).2 → ∃ d, e = EvSendto d data.
Proof.
  revert b p. induction cs as [|c cs IH]; intros b p; cbn [relay_loop];
    [by intros ?%elem_of_nil|].
  destruct (active c); [|apply IH].
  destruct (is_excluded x c); [apply IH|].
  destruct (sendto w (addr c) data <? 0).
  - specialize (IH b p). destruct (relay_loop w data x cs b p) as [[b' p'] ev].
    simpl in *. intros [->|?]%elem_of_cons; eauto.
  - specialize (IH (add64 b (sendto w (addr c) data)) (add64 p 1)).
    destruct (relay_loop w data x cs _ _) as [[b' p'] ev].
    simpl in *. intros [->|?]%elem_of_cons; eauto.
Qed.

Lemma relay_frame_registry w f x s :
  clients (dmr_relay_frame w f x s).1.2 = clients s ∧
  client_count (dmr_relay_frame w f x s).1.2 = client_count s ∧
  server_config (dmr_relay_frame w f x s).1.2 = server_config s.
Proof.
  unfold dmr_relay_frame.
  by destruct (relay_loop w (encode f) x (clients s) _ _) as [[b p] ev].
Qed.

Lemma relay_frame_targets w f x s :
  sendto_targets (dmr_relay_frame w f x s).2 = addr <$> filter (relay_target x) (clients s).
Proof.
  unfold dmr_relay_frame.
  pose proof (relay_loop_targets w (encode f) x (clients s) (bytes_sent s) (packets_relayed s)).
  by destruct (relay_loop w (encode f) x (clients s) _ _) as [[b p] ev].
Qed.

(** ** The session counter *)

Lemma length_snapshot_expire now tmo (cs : list dmr_client_t) :
  (length (filter active (expire now tmo <$> cs))
   + length (filter (timed_out now tmo) cs))%nat
  = length (filter active cs).
Proof.
  induction cs as [|c cs IH]; [done|].
  rewrite fmap_cons, !filter_cons.
  pose proof (expire_active now tmo c) as Ha.
  repeat case_decide; rewrite ?length_cons;
    unfold timed_out in *; rewrite ?Ha in *;
    destruct (active c), (tmo <? now - last_seen c); simpl in *;
    tauto || lia.
Qed.

Lemma registry_inv_init cfg : registry_inv (dmr_server_init cfg).
Proof. split; by vm_compute. Qed.

Lemma registry_inv_add now a id cs s :
  registry_inv s → registry_inv (dmr_add_client now a id cs s).1.2.
Proof.
  intros [Hlen Hcount].
  destruct (list_find is_free (clients s)) as [[i x]|] eqn:E.
  - destruct (add_client_slot now a id cs s i x E)
      as (c & _ & Hact & _ & _ & _ & Hcl & Hn).
    apply list_find_Some in E as (Hi & Hfree & _). apply is_free_spec in Hfree.
    split; [by rewrite Hcl, length_insert|].
    unfold snapshot. rewrite Hcl, Hn, Hcount.
    rewrite (filter_insert_gain (λ c, Is_true (active c)) _ i x c Hi Hfree)
      by (by rewrite Hact).
    unfold snapshot. lia.
  - by rewrite add_client_full.
Qed.

Lemma registry_inv_process_frame w now f a s :
  registry_inv s → registry_inv (dmr_process_frame w now f a s).1.2.
Proof.
  intros Hinv.
  destruct (list_find (is_client_of a) (clients s)) as [[i c]|] eqn:E.
  - rewrite (process_frame_found w now f a s i c E).
    destruct Hinv as [Hlen Hcount]. apply list_find_Some in E as (Hi & _ & _).
    destruct (touched_fields w now f (db_enabled (server_config s)) c)
      as (_ & Hact & _).
    split; simpl; [by rewrite length_insert|].
    unfold snapshot; simpl.
    rewrite (filter_insert_same (λ c, Is_true (active c)) _ i c _ Hi)
      by (by rewrite Hact).
    exact Hcount.
  - rewrite (process_frame_new w now f a s E). by apply registry_inv_add.
Qed.

Lemma registry_inv_remove a s :
  registry_inv s → registry_inv (dmr_remove_client a s).1.2.
Proof.
  intros [Hlen Hcount].
  destruct (list_find (is_client_of a) (clients s)) as [[i c]|] eqn:E.
  - rewrite (remove_client_found a s i c E). simpl.
    apply list_find_Some in E as (Hi & Hc & _).
    apply is_client_of_spec in Hc as [Hact _].
    split; simpl; [by rewrite length_insert|].
    unfold snapshot; simpl.
    pose proof (filter_insert_loss (λ c, Is_true (active c)) (clients s) i c
                  (set_active false c) Hi Hact) as Hl.
    simpl in Hl. unfold snapshot in Hcount. rewrite Hcount.
    specialize (Hl (λ H, H)). lia.
  - by rewrite remove_client_unknown.
Qed.

Lemma registry_inv_cleanup now s :
  registry_inv s → registry_inv (dmr_cleanup_clients now s).1.
Proof.
  intros [Hlen Hcount]. split.
  - by rewrite cleanup_clients, length_fmap.
  - unfold snapshot. rewrite cleanup_clients, cleanup_count, Hcount.
    pose proof (length_snapshot_expire now (timeout (server_config s)) (clients s)).
    unfold snapshot. lia.
Qed.

Lemma registry_inv_relay w f x s :
  registry_inv s → registry_inv (dmr_relay_frame w f x s).1.2.
Proof.
  intros [Hlen Hcount]. destruct (relay_frame_registry w f x s) as (Hc & Hn & _).
  split; unfold snapshot; by rewrite Hc, ?Hn.
Qed.

Lemma registry_inv_step w s o : registry_inv s → registry_inv (step w s o).
Proof.
  destruct o; simpl;
    auto using registry_inv_process_frame, registry_inv_add, registry_inv_remove,
               registry_inv_cleanup, registry_inv_relay.
Qed.

Lemma registry_inv_run w s ops : registry_inv s → registry_inv (run w s ops).
Proof.
  revert s. induction ops as [|o ops IH]; intros s Hs; [done|].
  apply IH. by apply registry_inv_step.
Qed.

Lemma registry_inv_bounds s : registry_inv s → 0 ≤ client_count s ≤ 100.
Proof.
  intros [Hlen Hcount]. unfold snapshot in Hcount.
  pose proof (length_filter (λ c, Is_true (active c)) (clients s)) as Hle.
  rewrite Hlen in Hle. unfold DMR_MAX_CLIENTS in Hle. lia.
Qed.

(** C10: after every sequence of add, remove and cleanup operations (and
    of frame processing and relaying) from the initialised registry,
    [client_count] is the number of slots of the client array whose active
    flag is set, and lies between 0 and 100. *)
Theorem client_count_counts_active_slots (w : world) (cfg : dmr_config_t) (ops : list op) :
  let s := run w (dmr_server_init cfg) ops in
  client_count s = Z.of_nat (length (filter active (clients s))) ∧
  length (clients s) = DMR_MAX_CLIENTS ∧
  0 ≤ client_count s ≤ 100.
Proof.
  intros s.
  assert (registry_inv s) as Hinv by apply registry_inv_run, registry_inv_init.
  pose proof (registry_inv_bounds s Hinv). destruct Hinv as [Hlen Hcount].
  done.
Qed.

(** ** One session per endpoint *)

Lemma endpoints_split (l : list dmr_client_t) i x :
  l !! i = Some x →
  addr <$> filter active l
  = (addr <$> filter active (take i l)) ++ (if active x then [addr x] else [])
    ++ (addr <$> filter active (drop (S i) l)).
Proof.
  intros Hi. rewrite (filter_split (λ c, Is_true (active c)) l i x Hi), !fmap_app.
  do 2 f_equal. case_decide; destruct (active x); simpl in *; tauto.
Qed.

Lemma endpoints_insert_split (l : list dmr_client_t) i x y :
  l !! i = Some x →
  addr <$> filter active (<[i := y]> l)
  = (addr <$> filter active (take i l)) ++ (if active y then [addr y] else [])
    ++ (addr <$> filter active (drop (S i) l)).
Proof.
  intros Hi.
  rewrite (filter_insert_split (λ c, Is_true (active c)) l i x y Hi), !fmap_app.
  do 2 f_equal. case_decide; destruct (active y); simpl in *; tauto.
Qed.

Lemma unique_endpoints_add now a id cs s :
  unique_endpoints s → ¬ registered a s →
  unique_endpoints (dmr_add_client now a id cs s).1.2.
Proof.
  unfold unique_endpoints, registered, active_endpoints, snapshot. intros Hu Hnew.
  destruct (list_find is_free (clients s)) as [[i x]|] eqn:E.
  - destruct (add_client_slot now a id cs s i x E)
      as (c & Ha & Hact & _ & _ & _ & Hcl & _).
    apply list_find_Some in E as (Hi & Hfree & _). apply is_free_spec in Hfree.
    rewrite Hcl, (endpoints_insert_split _ i x c Hi), Hact, Ha.
    rewrite (endpoints_split _ i x Hi) in Hu, Hnew.
    destruct (active x); [destruct Hfree; done|]. simpl in *.
    rewrite <- Permutation_middle. by apply NoDup_cons.
  - by rewrite add_client_full.
Qed.

Lemma endpoints_process_frame_found w now f a s i c :
  list_find (is_client_of a) (clients s) = Some (i, c) →
  active_endpoints (dmr_process_frame w now f a s).1.2 = active_endpoints s.
Proof.
  intros E. rewrite (process_frame_found w now f a s i c E).
  apply list_find_Some in E as (Hi & _ & _).
  destruct (touched_fields w now f (db_enabled (server_config s)) c)
    as (Haddr & Hact & _).
  unfold active_endpoints, snapshot. simpl.
  rewrite (endpoints_insert_split _ i c _ Hi), (endpoints_split _ i c Hi).
  by rewrite Hact, Haddr.
Qed.

Lemma unique_endpoints_process_frame w now f a s :
  unique_endpoints s → unique_endpoints (dmr_process_frame w now f a s).1.2.
Proof.
  intros Hu. destruct (list_find (is_client_of a) (clients s)) as [[i c]|] eqn:E.
  - unfold unique_endpoints. by rewrite (endpoints_process_frame_found w now f a s i c E).
  - rewrite (process_frame_new w now f a s E).
    apply unique_endpoints_add; [done|]. by apply lookup_unregistered.
Qed.

Lemma unique_endpoints_remove a s :
  unique_endpoints s → unique_endpoints (dmr_remove_client a s).1.2.
Proof.
  unfold unique_endpoints, active_endpoints, snapshot. intros Hu.
  destruct (list_find (is_client_of a) (clients s)) as [[i c]|] eqn:E.
  - rewrite (remove_client_found a s i c E). simpl.
    apply list_find_Some in E as (Hi & _ & _).
    rewrite (endpoints_insert_split _ i c _ Hi). simpl.
    rewrite (endpoints_split _ i c Hi) in Hu.
    destruct (active c); [|done]. simpl in Hu.
    rewrite <- Permutation_middle in Hu. by apply NoDup_cons in Hu as [_ ?].
  - by rewrite remove_client_unknown.
Qed.

Lemma unique_endpoints_cleanup now s :
  unique_endpoints s → unique_endpoints (dmr_cleanup_clients now s).1.
Proof.
  unfold unique_endpoints, active_endpoints, snapshot. intros Hu.
  rewrite cleanup_clients, filter_active_expire.
  eapply sublist_NoDup; [exact Hu|]. apply fmap_sublist, sublist_filter.
Qed.

Lemma unique_endpoints_relay w f x s :
  unique_endpoints s → unique_endpoints (dmr_relay_frame w f x s).1.2.
Proof.
  unfold unique_endpoints, active_endpoints, snapshot.
  destruct (relay_frame_registry w f x s) as (Hc & _). by rewrite Hc.
Qed.

Lemma unique_endpoints_step w s o :
  fresh_registration s o = true → unique_endpoints s → unique_endpoints (step w s o).
Proof.
  destruct o as [now f a|now a id cs|a|now|f x]; simpl; intros Hfresh Hu;
    auto using unique_endpoints_process_frame, unique_endpoints_remove,
               unique_endpoints_cleanup, unique_endpoints_relay.
  apply unique_endpoints_add; [done|]. apply lookup_unregistered.
  by destruct (list_find (is_client_of a) (clients s)).
Qed.

Lemma unique_endpoints_init cfg : unique_endpoints (dmr_server_init cfg).
Proof. vm_compute. constructor. Qed.

Lemma unique_endpoints_run w s ops :
  admissible w s ops = true → unique_endpoints s → unique_endpoints (run w s ops).
Proof.
  revert s. induction ops as [|o ops IH]; intros s Hadm Hu; [done|].
  simpl in Hadm. apply andb_true_iff in Hadm as [Hfresh Hadm].
  apply IH; [done|]. by apply unique_endpoints_step.
Qed.

Lemma admissible_take w s ops n :
  admissible w s ops = true → admissible w s (take n ops) = true.
Proof.
  revert s n. induction ops as [|o ops IH]; intros s [|n] Hadm; try done.
  simpl in *. apply andb_true_iff in Hadm as [-> Hadm]. simpl. by apply IH.
Qed.

(** C7, as the code has it: at every point of a sequence of
    frame-processing, registration, removal, eviction and relay operations
    from the initialised registry in which [dmr_add_client] is only called
    for an endpoint without an active session (as [dmr_process_frame] calls
    it), no two active sessions have the same endpoint. *)
Theorem one_session_per_endpoint (w : world) (cfg : dmr_config_t) (ops : list op) :
  admissible w (dmr_server_init cfg) ops = true →
  ∀ n, NoDup (active_endpoints (run w (dmr_server_init cfg) (take n ops))).
Proof.
  intros Hadm n. apply unique_endpoints_run.
  - by apply admissible_take.
  - apply unique_endpoints_init.
Qed.

(** ** Fan-out *)

Lemma relay_target_spec a c : relay_target (Some a) c ↔ active c ∧ addr c ≠ a.
Proof.
  unfold relay_target, is_excluded.
  destruct a as [ip port], c as [[ip' port'] t i act cs]; simpl.
  rewrite andb_True, negb_True, andb_True, !Is_true_true, !Z.eqb_eq.
  split; intros [? Hne]; (split; [done|]); intros Heq; apply Hne.
  - by injection Heq as -> ->.
  - destruct Heq as [-> ->]. done.
Qed.

Lemma filter_addr (Q : sockaddr_in → Prop) `{!∀ e, Decision (Q e)}
    (l : list dmr_client_t) :
  filter Q (addr <$> l) = addr <$> filter (λ c, Q (addr c)) l.
Proof.
  induction l as [|c l IH]; [done|].
  rewrite fmap_cons, !filter_cons, IH. by case_decide.
Qed.

Lemma relay_targets_endpoints a (l : list dmr_client_t) :
  addr <$> filter (relay_target (Some a)) l
  = filter (λ e, e ≠ a) (addr <$> filter active l).
Proof.
  rewrite filter_addr, list_filter_filter. f_equal.
  apply list_filter_iff. intros c. simpl. rewrite relay_target_spec. tauto.
Qed.

Lemma filter_ne_absent (a : sockaddr_in) (E : list sockaddr_in) :
  a ∉ E → filter (λ e, e ≠ a) E = E.
Proof.
  intros Ha. apply (filter_all (λ e, e ≠ a)). apply Forall_forall.
  intros e He ->. done.
Qed.

Lemma filter_ne_present (a : sockaddr_in) (E : list sockaddr_in) :
  NoDup E → a ∈ E → S (length (filter (λ e, e ≠ a) E)) = length E.
Proof.
  induction 1 as [|e E He Hnd IH]; [by intros ?%elem_of_nil|].
  intros [->|Hin]%elem_of_cons.
  - rewrite filter_cons_False by (intros H; by apply H).
    by rewrite filter_ne_absent.
  - rewrite filter_cons_True by (intros ->; done).
    simpl. by rewrite IH.
Qed.

(** C1: in every registry state (a client array in which no two active
    sessions share an endpoint, with [client_count] the number of active
    sessions), [dmr_relay_frame] with the source [a] as excluded address
    sends to every active session other than [a] and never to [a]; that is
    [client_count - 1] targets when [a] has a session and [client_count]
    targets when it has none. *)
Theorem relay_excludes_source (w : world) (s : server_state)
    (f : dmr_frame_t) (a : sockaddr_in) :
  registry_inv s → unique_endpoints s →
  let targets := sendto_targets (dmr_relay_frame w f (Some a) s).2 in
  targets = filter (λ e, e ≠ a) (active_endpoints s) ∧
  (a ∉ targets) ∧
  (registered a s → Z.of_nat (length targets) = client_count s - 1) ∧
  (¬ registered a s → Z.of_nat (length targets) = client_count s).
Proof.
  intros [_ Hcount] Hu targets.
  assert (targets = filter (λ e, e ≠ a) (active_endpoints s)) as Ht.
  { unfold targets. rewrite relay_frame_targets. apply relay_targets_endpoints. }
  assert (length (active_endpoints s) = length (snapshot s)) as Hlen
    by apply length_fmap.
  split; [done|]. rewrite Ht. split; [|split].
  - intros [Hne _]%list_elem_of_filter. done.
  - intros Hreg. pose proof (filter_ne_present a _ Hu Hreg). lia.
  - intros Hreg. rewrite filter_ne_absent by done. lia.
Qed.

(** The states the receive loop reaches are such registry states. *)
Lemma reachable_registry_state (w : world) (cfg : dmr_config_t) (ops : list op) :
  admissible w (dmr_server_init cfg) ops = true →
  registry_inv (run w (dmr_server_init cfg) ops) ∧
  unique_endpoints (run w (dmr_server_init cfg) ops).
Proof.
  intros Hadm. split.
  - apply registry_inv_run, registry_inv_init.
  - apply unique_endpoints_run; [done|apply unique_endpoints_init].
Qed.

(** ** Registration up to capacity *)

Lemma add_client_registers now a id cs s :
  (length (snapshot s) < length (clients s))%nat →
  (dmr_add_client now a id cs s).1.1 = 0 ∧
  client_count (dmr_add_client now a id cs s).1.2 = client_count s + 1 ∧
  ∀ b, registered b (dmr_add_client now a id cs s).1.2 ↔ b = a ∨ registered b s.
Proof.
  intros Hroom. destruct (free_slot_exists (clients s) Hroom) as [[i x] E].
  destruct (add_client_slot now a id cs s i x E)
    as (c & Ha & Hact & _ & _ & Hret & Hcl & Hn).
  split; [done|]. split; [done|]. intros b.
  apply list_find_Some in E as (Hi & Hfree & _). apply is_free_spec in Hfree.
  unfold registered, active_endpoints, snapshot.
  rewrite Hcl, (endpoints_insert_split _ i x c Hi), (endpoints_split _ i x Hi), Hact, Ha.
  destruct (active x); [destruct Hfree; done|]. simpl.
  rewrite !elem_of_app, elem_of_cons. tauto.
Qed.

Lemma add_client_at_capacity now a id cs s :
  length (snapshot s) = length (clients s) →
  dmr_add_client now a id cs s = (-1, s, []).
Proof. intros Hfull. by apply add_client_full, no_free_slot. Qed.

Lemma registration_step w s o a :
  registration_endpoint o = Some a → ¬ registered a s →
  step w s o = (dmr_add_client
                  (match o with OpFrame now _ _ | OpAdd now _ _ _ => now | _ => 0 end)
                  a
                  (match o with OpFrame _ f _ => src_id f | OpAdd _ _ id _ => id | _ => 0 end)
                  (match o with OpAdd _ _ _ cs => cs | _ => None end) s).1.2.
Proof.
  destruct o as [now f b|now b id cs|b|now|f x]; simpl; intros [= ->] Hnew; try done.
  apply process_frame_new. by apply lookup_unregistered.
Qed.

Lemma registrations_count w cfg (regs : list op) :
  Forall (λ o, is_Some (registration_endpoint o)) regs →
  NoDup (omap registration_endpoint regs) →
  (length regs ≤ DMR_MAX_CLIENTS)%nat →
  client_count (run w (dmr_server_init cfg) regs) = Z.of_nat (length regs) ∧
  ∀ b, registered b (run w (dmr_server_init cfg) regs)
       ↔ b ∈ omap registration_endpoint regs.
Proof.
  induction regs as [|o regs IH] using rev_ind; intros Hreg Hnd Hlen.
  - split; [done|]. intros b. unfold registered. vm_compute active_endpoints.
    simpl. done.
  - apply Forall_app in Hreg as [Hreg [[a Ha] _]%Forall_cons].
    rewrite omap_app in Hnd. simpl in Hnd. rewrite Ha in Hnd. simpl in Hnd.
    apply NoDup_app in Hnd as (Hnd & Hfresh & _).
    rewrite length_app in Hlen. simpl in Hlen.
    destruct IH as [Hcount Hmem]; [done|done|lia|].
    set (s := run w (dmr_server_init cfg) regs) in *.
    assert (registry_inv s) as [Hslots Hinv]
      by apply registry_inv_run, registry_inv_init.
    assert (¬ registered a s) as Hnew.
    { rewrite Hmem. intros Hin. apply (Hfresh a Hin). by apply list_elem_of_singleton. }
    unfold run. rewrite foldl_app. simpl. fold (run w (dmr_server_init cfg) regs).
    fold s. rewrite (registration_step w s o a Ha Hnew).
    edestruct add_client_registers as (_ & Hn & Hr);
      [|rewrite Hn, Hcount; split;
         [rewrite length_app; simpl; lia|
          intros b; rewrite Hr, Hmem, omap_app, elem_of_app; simpl; rewrite Ha; simpl;
          rewrite list_elem_of_singleton; tauto]].
    rewrite Hslots. lia.
Qed.

(** C2: after registrations (by [dmr_process_frame] or by
    [dmr_add_client]) for N distinct endpoints, N at most the capacity of
    100, the session count is N and exactly these endpoints have a session.
    When N is the capacity, a further [dmr_add_client] fails with -1 and
    changes nothing, and so does the registration attempt that
    [dmr_process_frame] makes for a further endpoint: no session is
    evicted and the count stays N. *)
Theorem registration_up_to_capacity (w : world) (cfg : dmr_config_t) (regs : list op) :
  Forall (λ o, is_Some (registration_endpoint o)) regs →
  NoDup (omap registration_endpoint regs) →
  (length regs ≤ DMR_MAX_CLIENTS)%nat →
  let s := run w (dmr_server_init cfg) regs in
  client_count s = Z.of_nat (length regs) ∧
  length (snapshot s) = length regs ∧
  (∀ b, registered b s ↔ b ∈ omap registration_endpoint regs) ∧
  (length regs = DMR_MAX_CLIENTS →
   ∀ now a id cs f,
     dmr_add_client now a id cs s = (-1, s, []) ∧
     (a ∉ omap registration_endpoint regs →
      (dmr_process_frame w now f a s).1.2 = s)).
Proof.
  intros Hreg Hnd Hlen s.
  destruct (registrations_count w cfg regs Hreg Hnd Hlen) as [Hcount Hmem].
  assert (registry_inv s) as [Hslots Hinv]
    by apply registry_inv_run, registry_inv_init.
  fold s in Hcount, Hmem.
  assert (length (snapshot s) = length regs) as Hsnap by lia.
  repeat split; try done; try apply Hmem.
  - apply add_client_at_capacity. lia.
  - intros Hnew. rewrite process_frame_new.
    + rewrite add_client_at_capacity; [done|lia].
    + apply lookup_unregistered. by rewrite Hmem.
Qed.

(** ** One received datagram *)

Lemma recvfrom_bytes_read data buf :
  (recvfrom data buf).1 = Nat.min (length data) DMR_BUFFER_SIZE.
Proof. done. Qed.

Lemma decode_short buf n old : (n < DMR_HEADER_SIZE)%nat → decode buf n old = None.
Proof. intros Hn. unfold decode. by rewrite decide_False by lia. Qed.

Lemma decode_long buf n old :
  (DMR_HEADER_SIZE ≤ n)%nat → ∃ f, decode buf n old = Some f.
Proof.
  intros Hn. unfold decode. rewrite decide_True by done.
  destruct (header_of_buffer buf) as [[[ty sl] src] dst]. eauto.
Qed.

(** C8: a datagram shorter than 6 bytes is not decoded, and handling it
    leaves every slot of the client array (so every session and every
    [last_seen]) and [client_count] as they were, makes no [sendto] and
    no database call, and leaves the frame variable untouched. *)
Theorem short_datagram_dropped (w : world) (now : Z) (data : list Z)
    (a : sockaddr_in) (l : run_locals) (s : server_state) :
  (length data < DMR_HEADER_SIZE)%nat →
  decode (recvfrom data (buffer l)).2 (recvfrom data (buffer l)).1 (frame l) = None ∧
  clients (handle_datagram w now data a l s).1.2 = clients s ∧
  client_count (handle_datagram w now data a l s).1.2 = client_count s ∧
  (handle_datagram w now data a l s).2 = [] ∧
  frame (handle_datagram w now data a l s).1.1 = frame l.
Proof.
  intros Hshort.
  assert (decode (recvfrom data (buffer l)).2 (recvfrom data (buffer l)).1 (frame l)
          = None) as Hdec.
  { apply decode_short. rewrite recvfrom_bytes_read. lia. }
  split; [done|]. unfold handle_datagram.
  destruct (recvfrom data (buffer l)) as [n buf]. simpl in Hdec. by rewrite Hdec.
Qed.

(** C4, as the code has it: when a datagram of at least 6 bytes arrives
    from an endpoint without a session while all 100 slots are in use,
    [dmr_add_client] rejects the insertion with -1 and the client array and
    [client_count] are unchanged, and the frame is still relayed: one
    [sendto] to every active session, [client_count] of them. *)
Theorem full_registry_frame_is_relayed (w : world) (cfg : dmr_config_t) (ops : list op)
    (now : Z) (data : list Z) (a : sockaddr_in) (l : run_locals) :
  let s := run w (dmr_server_init cfg) ops in
  client_count s = 100 →
  ¬ registered a s →
  (DMR_HEADER_SIZE ≤ length data)%nat →
  let r := handle_datagram w now data a l s in
  (∀ id cs, dmr_add_client now a id cs s = (-1, s, [])) ∧
  clients r.1.2 = clients s ∧
  client_count r.1.2 = client_count s ∧
  sendto_targets r.2 = active_endpoints s ∧
  Z.of_nat (length (sendto_targets r.2)) = client_count s.
Proof.
  intros s Hfull Hnew Hlen r.
  assert (registry_inv s) as [Hslots Hinv]
    by apply registry_inv_run, registry_inv_init.
  assert (length (snapshot s) = length (clients s)) as Hall
    by (rewrite Hslots; unfold DMR_MAX_CLIENTS; lia).
  split; [intros id cs; by apply add_client_at_capacity|].
  unfold r, handle_datagram. destruct (recvfrom data (buffer l)) as [n buf] eqn:Erecv.
  assert (n = Nat.min (length data) DMR_BUFFER_SIZE) as Hn
    by (by rewrite <- recvfrom_bytes_read with (buf := buffer l), Erecv).
  destruct (decode_long buf n (frame l)) as [f ->];
    [unfold DMR_HEADER_SIZE, DMR_BUFFER_SIZE in *; lia|].
  set (s1 := State _ _ _ _ _ _ _).
  assert ((dmr_process_frame w now f a s1).1.2 = s1) as Hproc.
  { rewrite process_frame_new by (by apply lookup_unregistered in Hnew).
    by rewrite add_client_at_capacity. }
  destruct (dmr_process_frame w now f a s1) as [[r1 s2] ev1] eqn:E1.
  simpl in Hproc. subst s2.
  assert (sendto_targets ev1 = []) as Hev1.
  { assert (ev1 = (dmr_process_frame w now f a s1).2) as -> by (by rewrite E1).
    unfold dmr_process_frame.
    apply lookup_unregistered in Hnew. change (clients s1) with (clients s).
    rewrite Hnew, add_client_at_capacity by done.
    simpl. by destruct (db_enabled cfg), (db_enabled (server_config s)). }
  pose proof (relay_frame_registry w f (Some a) s1) as (Hc & Hcnt & _).
  pose proof (relay_frame_targets w f (Some a) s1) as Ht.
  destruct (dmr_relay_frame w f (Some a) s1) as [[r2 s3] ev2]. simpl in *.
  assert (sendto_targets (ev1 ++ ev2) = active_endpoints s) as Htargets.
  { unfold sendto_targets in *. rewrite omap_app, Hev1. simpl. rewrite Ht.
    rewrite relay_targets_endpoints. by apply filter_ne_absent. }
  repeat split; try done.
  rewrite Htargets. unfold active_endpoints. rewrite length_fmap. lia.
Qed.

(** ** Eviction of idle sessions *)

(** C5: the eviction pass clears the active flag of exactly the active
    slots with [now - last_seen > timeout] and changes nothing else: the
    snapshot afterwards consists of the sessions of the snapshot before
    with [now - last_seen <= timeout], unchanged and in the same order. *)
Theorem cleanup_evicts_exactly_idle (now : Z) (s : server_state) :
  let tmo := timeout (server_config s) in
  let s' := (dmr_cleanup_clients now s).1 in
  (∀ i c, clients s !! i = Some c →
     clients s' !! i
     = Some (if active c && (tmo <? now - last_seen c) then set_active false c else c)) ∧
  length (clients s') = length (clients s) ∧
  snapshot s' = filter (λ c, now - last_seen c ≤ tmo) (snapshot s) ∧
  (∀ c, c ∈ snapshot s → tmo < now - last_seen c → c ∉ snapshot s') ∧
  (∀ c, c ∈ snapshot s → now - last_seen c ≤ tmo → c ∈ snapshot s').
Proof.
  intros tmo s'.
  assert (snapshot s' = filter (λ c, now - last_seen c ≤ tmo) (snapshot s)) as Hsnap.
  { unfold snapshot, s'. rewrite cleanup_clients, filter_active_expire.
    apply list_filter_iff. intros c. fold tmo.
    rewrite negb_True, Is_true_true, Z.ltb_lt. lia. }
  split; [|split; [|split; [done|split]]].
  - intros i c Hi. unfold s'. rewrite cleanup_clients, list_lookup_fmap, Hi. done.
  - unfold s'. by rewrite cleanup_clients, length_fmap.
  - intros c _ Hidle. rewrite Hsnap. intros [? _]%list_elem_of_filter. lia.
  - intros c Hin Hfresh. rewrite Hsnap. by apply list_elem_of_filter.
Qed.

(** ** Identifier of a session *)

Lemma process_frame_keeps_identifier w now f a s i c :
  clients s !! i = Some c → active c = true → dmr_id c ≠ 0 →
  ∃ c', clients (dmr_process_frame w now f a s).1.2 !! i = Some c' ∧
        dmr_id c' = dmr_id c ∧ addr c' = addr c ∧ active c' = true.
Proof.
  intros Hi Hact Hid.
  destruct (list_find (is_client_of a) (clients s)) as [[j d]|] eqn:E.
  - rewrite (process_frame_found w now f a s j d E). simpl.
    apply list_find_Some in E as (Hj & _ & _).
    destruct (decide (i = j)) as [->|Hne].
    + assert (d = c) as -> by congruence.
      destruct (touched_fields w now f (db_enabled (server_config s)) c)
        as (Haddr & Hact' & _ & Hid').
      eexists. split; [apply list_lookup_insert_eq; by eapply lookup_lt_Some|].
      rewrite Haddr, Hact', Hid'. apply Z.eqb_neq in Hid. by rewrite Hid.
    + exists c. by rewrite list_lookup_insert_ne.
  - rewrite (process_frame_new w now f a s E).
    destruct (list_find is_free (clients s)) as [[j x]|] eqn:Efree.
    + destruct (add_client_slot now a (src_id f) None s j x Efree)
        as (c' & _ & _ & _ & _ & _ & Hcl & _).
      apply list_find_Some in Efree as (Hj & Hfree & _). apply is_free_spec in Hfree.
      exists c. rewrite Hcl, list_lookup_insert_ne; [done|].
      intros ->. assert (x = c) as -> by congruence. by rewrite Hact in Hfree.
    + rewrite add_client_full by done. by exists c.
Qed.

Lemma process_frames_keep_identifier w (frames : list (Z * dmr_frame_t * sockaddr_in))
    s i c :
  clients s !! i = Some c → active c = true → dmr_id c ≠ 0 →
  ∃ c', clients (run w s (frame_op <$> frames)) !! i = Some c' ∧
        dmr_id c' = dmr_id c ∧ addr c' = addr c ∧ active c' = true.
Proof.
  revert s c. induction frames as [|[[now f] a] frames IH]; intros s c Hi Hact Hid.
  - by exists c.
  - destruct (process_frame_keeps_identifier w now f a s i c Hi Hact Hid)
      as (c1 & Hi1 & Hid1 & Haddr1 & Hact1).
    destruct (IH _ c1 Hi1 Hact1) as (c' & ? & ? & ? & ?); [congruence|].
    exists c'. simpl. repeat split; try done; congruence.
Qed.

Lemma process_frame_lookup_only_on_first_assignment w now f a s id :
  EvDbGetCallsign id ∈ (dmr_process_frame w now f a s).2 →
  ∃ j d d', list_find (is_client_of a) (clients s) = Some (j, d) ∧
            dmr_id d = 0 ∧ src_id f = id ∧ id ≠ 0 ∧
            clients (dmr_process_frame w now f a s).1.2 !! j = Some d' ∧
            dmr_id d' = id.
Proof.
  intros Hev.
  destruct (list_find (is_client_of a) (clients s)) as [[j d]|] eqn:E.
  - pose proof (process_frame_found w now f a s j d E) as Hst.
    destruct (touched_fields w now f (db_enabled (server_config s)) d)
      as (_ & _ & _ & Hid').
    assert (dmr_id d = 0 ∧ src_id f = id ∧ id ≠ 0) as (Hz & Hsrc & Hnz).
    { revert Hev. unfold dmr_process_frame. rewrite E. simpl.
      destruct (dmr_id d =? 0) eqn:Ed, (src_id f =? 0) eqn:Ef; simpl;
        destruct (db_enabled (server_config s));
        try destruct (db_get_callsign w (src_id f)); simpl;
        rewrite ?elem_of_cons, ?elem_of_nil;
        intros Hin; repeat (destruct Hin as [Hin|Hin]); try done;
        injection Hin as ->; apply Z.eqb_eq in Ed; apply Z.eqb_neq in Ef; done. }
    exists j, d. eexists. split; [done|]. repeat split; try done.
    + rewrite Hst. simpl. apply list_find_Some in E as (Hj & _ & _).
      apply list_lookup_insert_eq. by eapply lookup_lt_Some.
    + rewrite Hid'. apply Z.eqb_eq in Hz. by rewrite Hz.
  - exfalso. revert Hev. unfold dmr_process_frame. rewrite E.
    unfold dmr_add_client.
    destruct (list_find is_free (clients s)) as [[k x]|]; simpl;
      destruct (db_enabled (server_config s)); simpl;
      rewrite ?elem_of_cons, ?elem_of_nil;
      intros Hin; repeat (destruct Hin as [Hin|Hin]); done.
Qed.

(** C6: a slot that holds an active session with a non-zero identifier
    keeps that identifier (and its endpoint and active flag) through the
    processing of any later frames, whatever their source and [src_id];
    and [dmr_process_frame] calls [dmr_db_get_callsign] only where it
    finds the sender's session with identifier zero and assigns it the
    frame's non-zero [src_id]. *)
Theorem identifier_first_seen_wins (w : world) (s : server_state) (i : nat)
    (c : dmr_client_t) (frames : list (Z * dmr_frame_t * sockaddr_in))
    (now : Z) (f : dmr_frame_t) (a : sockaddr_in) :
  clients s !! i = Some c → active c = true → dmr_id c ≠ 0 →
  (∃ c', clients (run w s (frame_op <$> frames)) !! i = Some c' ∧
         dmr_id c' = dmr_id c ∧ addr c' = addr c ∧ active c' = true) ∧
  (∀ id, EvDbGetCallsign id ∈ (dmr_process_frame w now f a s).2 →
     ∃ j d d', list_find (is_client_of a) (clients s) = Some (j, d) ∧
               dmr_id d = 0 ∧ src_id f = id ∧ id ≠ 0 ∧
               clients (dmr_process_frame w now f a s).1.2 !! j = Some d' ∧
               dmr_id d' = id).
Proof.
  intros Hi Hact Hid. split.
  - by apply process_frames_keep_identifier.
  - intros id. apply process_frame_lookup_only_on_first_assignment.
Qed.

(** ** Frame codec *)

Lemma land_255 x : Z.land x 255 = x mod 256.
Proof. change 255 with (Z.ones 8). by rewrite Z.land_ones. Qed.

Lemma pack3_high a b c :
  is_byte a → is_byte b → is_byte c →
  Z.land (Z.shiftr (Z.lor (Z.lor (Z.shiftl a 16) (Z.shiftl b 8)) c) 16) 255 = a.
Proof.
  unfold is_byte. intros Ha Hb Hc.
  rewrite !Z.shiftr_lor, Z.shiftr_shiftl_l, Z.shiftr_shiftl_r by lia.
  rewrite !Z.shiftr_div_pow2, Z.shiftl_mul_pow2 by lia. simpl.
  rewrite (Z.div_small b), (Z.div_small c), !Z.lor_0_r by lia.
  rewrite land_255. change (2 ^ 0) with 1. rewrite Z.mul_1_r. apply Z.mod_small. lia.
Qed.

Lemma pack3_mid a b c :
  is_byte a → is_byte b → is_byte c →
  Z.land (Z.shiftr (Z.lor (Z.lor (Z.shiftl a 16) (Z.shiftl b 8)) c) 8) 255 = b.
Proof.
  unfold is_byte. intros Ha Hb Hc.
  rewrite !Z.shiftr_lor, !Z.shiftr_shiftl_l by lia.
  rewrite !Z.land_lor_distr_l, !land_255.
  rewrite Z.shiftr_div_pow2, !Z.shiftl_mul_pow2 by lia. simpl.
  change (2 ^ 8) with 256. change (2 ^ 0) with 1.
  rewrite Z.mod_mul by lia. rewrite (Z.div_small c) by lia.
  rewrite Z.mul_1_r, Z.lor_0_l, Z.mod_0_l, Z.lor_0_r by lia. apply Z.mod_small. lia.
Qed.

Lemma pack3_low a b c :
  is_byte a → is_byte b → is_byte c →
  Z.land (Z.lor (Z.lor (Z.shiftl a 16) (Z.shiftl b 8)) c) 255 = c.
Proof.
  unfold is_byte. intros Ha Hb Hc.
  rewrite !Z.land_lor_distr_l, !land_255, !Z.shiftl_mul_pow2 by lia.
  change (2 ^ 16) with (256 * 256). change (2 ^ 8) with 256.
  rewrite Z.mul_assoc, !Z.mod_mul by lia. simpl. apply Z.mod_small. lia.
Qed.

(** The 33 bytes sent for a frame: six header bytes, then the payload.
    Bytes 6 and 7 written for [dst_id] are overwritten by the payload
    copy, which starts at offset [DMR_HEADER_SIZE]. *)
Lemma encode_bytes (f : dmr_frame_t) :
  length (payload f) = DMR_PAYLOAD_SIZE →
  encode f = [type f; slot f;
              Z.land (Z.shiftr (src_id f) 16) 255;
              Z.land (Z.shiftr (src_id f) 8) 255;
              Z.land (src_id f) 255;
              Z.land (Z.shiftr (dst_id f) 16) 255] ++ payload f.
Proof.
  intros Hlen. unfold encode, build_frame_buffer, memcpy.
  rewrite app_assoc, take_app_length'.
  - rewrite (take_ge (payload f)) by lia. reflexivity.
  - rewrite length_app, !length_take, Hlen, !length_insert, length_replicate. done.
Qed.

(** The bytes sent do not depend on what the local buffer held before. *)
Lemma encode_any_buffer (buffer0 : list Z) (f : dmr_frame_t) :
  length buffer0 = DMR_BUFFER_SIZE →
  length (payload f) = DMR_PAYLOAD_SIZE →
  take (DMR_HEADER_SIZE + DMR_PAYLOAD_SIZE) (build_frame_buffer buffer0 f) = encode f.
Proof.
  intros Hbuf Hlen. rewrite encode_bytes by done. unfold build_frame_buffer, memcpy.
  rewrite app_assoc, take_app_length'.
  - rewrite (take_ge (payload f)) by lia.
    do 8 (destruct buffer0 as [|? buffer0]; [done|]). reflexivity.
  - rewrite length_app, !length_take, Hlen, !length_insert, Hbuf. done.
Qed.

(** The header fields a receiver reads out of the bytes sent for [f]. *)
Lemma header_of_encode (f : dmr_frame_t) :
  length (payload f) = DMR_PAYLOAD_SIZE →
  header_of_buffer (encode f)
  = (type f, slot f,
     Z.lor (Z.lor (Z.shiftl (Z.land (Z.shiftr (src_id f) 16) 255) 16)
                  (Z.shiftl (Z.land (Z.shiftr (src_id f) 8) 255) 8))
           (Z.land (src_id f) 255),
     Z.lor (Z.lor (Z.shiftl (Z.land (Z.shiftr (dst_id f) 16) 255) 16)
                  (Z.shiftl (payload f !!! 0%nat) 8))
           (payload f !!! 1%nat)).
Proof.
  intros Hlen. rewrite encode_bytes by done.
  destruct (payload f) as [|p0 [|p1 ps]]; try done.
Qed.

Lemma decode_Some buf n old :
  (DMR_HEADER_SIZE ≤ n)%nat →
  decode buf n old
  = Some (Frame (header_of_buffer buf).1.1.1 (header_of_buffer buf).1.1.2
                (header_of_buffer buf).1.2 (header_of_buffer buf).2
                (take (Nat.min (n - DMR_HEADER_SIZE) DMR_PAYLOAD_SIZE)
                      (drop DMR_HEADER_SIZE buf)
                 ++ drop (Nat.min (n - DMR_HEADER_SIZE) DMR_PAYLOAD_SIZE) (payload old))).
Proof.
  intros Hn. unfold decode. rewrite decide_True by done.
  unfold header_of_buffer, memcpy. simpl. do 2 f_equal.
  case_decide.
  - by rewrite Nat.min_r by (unfold DMR_PAYLOAD_SIZE, DMR_HEADER_SIZE in *; lia).
  - by rewrite Nat.min_l by (unfold DMR_PAYLOAD_SIZE, DMR_HEADER_SIZE in *; lia).
Qed.

Lemma decoded_payload_length buf n old k :
  k = Nat.min (n - DMR_HEADER_SIZE) DMR_PAYLOAD_SIZE →
  (DMR_HEADER_SIZE ≤ n ≤ length buf)%nat →
  length (payload old) = DMR_PAYLOAD_SIZE →
  length (take k (drop DMR_HEADER_SIZE buf) ++ drop k (payload old)) = DMR_PAYLOAD_SIZE.
Proof.
  intros -> Hn Hold.
  rewrite length_app, length_take, !length_drop, Hold.
  unfold DMR_PAYLOAD_SIZE, DMR_HEADER_SIZE in *. lia.
Qed.

Lemma decoded_payload_byte buf (k i : nat) (rest : list Z) :
  (i < k)%nat → (DMR_HEADER_SIZE + k ≤ length buf)%nat →
  (take k (drop DMR_HEADER_SIZE buf) ++ rest) !!! i = buf !!! (DMR_HEADER_SIZE + i)%nat.
Proof.
  intros Hi Hlen.
  rewrite lookup_total_app_l by (rewrite length_take, length_drop; lia).
  by rewrite lookup_total_take_lt, lookup_total_drop by done.
Qed.

(** Decoding a buffer that holds at least eight received bytes and
    encoding the frame gives bytes with the header fields of the buffer. *)
Lemma decode_encode_header buf n old :
  (8 ≤ n ≤ length buf)%nat →
  (∀ i, (i < 8)%nat → is_byte (buf !!! i)) →
  length (payload old) = DMR_PAYLOAD_SIZE →
  ∃ f, decode buf n old = Some f ∧
       header_of_frame f = header_of_buffer buf ∧
       header_of_buffer (encode f) = header_of_frame f.
Proof.
  intros Hn Hbytes Hold. eexists. split.
  { apply decode_Some. unfold DMR_HEADER_SIZE. lia. }
  split; [done|]. rewrite header_of_encode; simpl.
  - unfold header_of_frame, header_of_buffer. simpl.
    rewrite !decoded_payload_byte
      by (unfold DMR_PAYLOAD_SIZE, DMR_HEADER_SIZE in *; lia).
    simpl. rewrite !pack3_high, !pack3_mid, !pack3_low by (apply Hbytes; lia).
    done.
  - apply (decoded_payload_length buf n old); [done| |done].
    unfold DMR_HEADER_SIZE. lia.
Qed.

(** With six or seven received bytes the type, the slot, the source
    identifier and the top byte of the destination identifier are those of
    the buffer; the two low bytes of the destination sent are the first
    two payload bytes of the frame variable. *)
Lemma decode_encode_short_header buf n old :
  (DMR_HEADER_SIZE ≤ n ≤ length buf)%nat →
  (∀ i, (i < 6)%nat → is_byte (buf !!! i)) →
  is_byte (buf !!! 6%nat) → is_byte (buf !!! 7%nat) →
  length (payload old) = DMR_PAYLOAD_SIZE →
  ∃ f, decode buf n old = Some f ∧
       header_of_frame f = header_of_buffer buf ∧
       header_of_buffer (encode f)
       = (type f, slot f, src_id f,
          Z.lor (Z.lor (Z.shiftl (buf !!! 5%nat) 16) (Z.shiftl (payload f !!! 0%nat) 8))
                (payload f !!! 1%nat)).
Proof.
  intros Hn Hbytes H6 H7 Hold. eexists. split; [apply decode_Some; lia|].
  split; [done|]. rewrite header_of_encode; simpl.
  - unfold header_of_buffer. simpl.
    rewrite !pack3_high, !pack3_mid, !pack3_low by (done || apply Hbytes; lia).
    done.
  - by apply (decoded_payload_length buf n old).
Qed.

Lemma recvfrom_length data buf :
  length buf = DMR_BUFFER_SIZE → length (recvfrom data buf).2 = DMR_BUFFER_SIZE.
Proof.
  intros Hbuf. unfold recvfrom. simpl.
  rewrite length_app, length_take, length_drop, Hbuf. lia.
Qed.

Lemma recvfrom_prefix data buf i :
  (i < Nat.min (length data) DMR_BUFFER_SIZE)%nat →
  (recvfrom data buf).2 !!! i = data !!! i.
Proof.
  intros Hi. unfold recvfrom. simpl.
  rewrite lookup_total_app_l by (rewrite length_take; lia).
  by rewrite lookup_total_take_lt by lia.
Qed.

(** The round trip on the header fields, for datagrams of at least eight
    bytes, whatever the receive buffer and the frame variable held. *)
Lemma received_frame_round_trip (data : list Z) (l : run_locals) :
  Forall is_byte data →
  (8 ≤ length data)%nat →
  length (buffer l) = DMR_BUFFER_SIZE →
  length (payload (frame l)) = DMR_PAYLOAD_SIZE →
  ∃ f, received_frame data l = Some f ∧
       header_of_frame f = header_of_buffer data ∧
       header_of_buffer (encode f) = header_of_frame f.
Proof.
  intros Hbytes Hlen Hbuf Hold. unfold received_frame.
  pose proof (recvfrom_length data (buffer l) Hbuf) as Hlen'.
  pose proof (recvfrom_prefix data (buffer l)) as Hpre.
  assert (8 ≤ Nat.min (length data) DMR_BUFFER_SIZE)%nat as Hmin
    by (unfold DMR_BUFFER_SIZE; lia).
  destruct (decode_encode_header (recvfrom data (buffer l)).2
              (recvfrom data (buffer l)).1 (frame l)) as (f & Hf & Hhdr & Hrt).
  - rewrite Hlen', recvfrom_bytes_read. unfold DMR_BUFFER_SIZE in *. lia.
  - intros i Hi. rewrite Hpre by lia.
    rewrite Forall_forall in Hbytes. apply Hbytes, list_elem_of_lookup_total_2. lia.
  - done.
  - exists f. split; [done|]. split; [|done].
    rewrite Hhdr. unfold header_of_buffer. by rewrite !Hpre by lia.
Qed.

(** ** Removal *)

Lemma remove_client_unregisters a s i c :
  list_find (is_client_of a) (clients s) = Some (i, c) →
  unique_endpoints s →
  ¬ registered a (dmr_remove_client a s).1.2.
Proof.
  intros E Hu. rewrite (remove_client_found a s i c E). simpl.
  apply list_find_Some in E as (Hi & Hc & _).
  apply is_client_of_spec in Hc as [Hact Ha].
  unfold unique_endpoints, registered, active_endpoints, snapshot in *. simpl.
  rewrite (endpoints_insert_split _ i c _ Hi). simpl.
  rewrite (endpoints_split _ i c Hi) in Hu.
  destruct (active c); [|done]. simpl in Hu. rewrite Ha in Hu.
  rewrite <- Permutation_middle in Hu. by apply NoDup_cons in Hu as [? _].
Qed.

(** C9, as the code has it: [dmr_remove_client] returns 0 exactly when the
    endpoint has an active session and -1 otherwise. In the first case the
    first slot holding the endpoint is cleared, [client_count] drops by
    one, the endpoint has no session left when sessions were unique, and
    the "disconnect" event for that session is logged when database logging
    is enabled; with logging disabled no event is emitted. In the second
    case nothing changes and nothing is emitted. *)
Theorem remove_client_contract (a : sockaddr_in) (s : server_state) :
  ((dmr_remove_client a s).1.1 = 0 ↔ registered a s) ∧
  (registered a s →
   ∃ i c, list_find (is_client_of a) (clients s) = Some (i, c) ∧
          addr c = a ∧ active c = true ∧
          clients (dmr_remove_client a s).1.2 = <[i := set_active false c]> (clients s) ∧
          client_count (dmr_remove_client a s).1.2 = client_count s - 1 ∧
          (unique_endpoints s → ¬ registered a (dmr_remove_client a s).1.2) ∧
          (db_enabled (server_config s) = true →
           EvDbLogClient c "disconnect" ∈ (dmr_remove_client a s).2) ∧
          (db_enabled (server_config s) = false → (dmr_remove_client a s).2 = [])) ∧
  (¬ registered a s → dmr_remove_client a s = (-1, s, [])).
Proof.
  destruct (list_find (is_client_of a) (clients s)) as [[i c]|] eqn:E.
  - assert (registered a s) as Hreg by (apply lookup_registered; by rewrite E).
    pose proof (remove_client_found a s i c E) as Hrm.
    split; [|split; [|done]].
    + split; [done|]. intros _. by rewrite Hrm.
    + intros _. exists i, c. split; [done|].
      pose proof E as (Hi & Hc & _)%list_find_Some.
      apply is_client_of_spec in Hc as [Hact Ha].
      split; [done|]. split; [by apply Is_true_true|].
      rewrite Hrm. simpl. split; [done|]. split; [done|].
      split; [intros Hu; pose proof (remove_client_unregisters a s i c E Hu) as Hgone;
              by rewrite Hrm in Hgone|].
      unfold dmr_remove_client. rewrite E.
      split; intros ->; simpl; [apply elem_of_cons; by left|done].
  - assert (¬ registered a s) as Hnew by (by apply lookup_unregistered).
    rewrite remove_client_unknown by done. simpl.
    split; [|split; [done|done]]. split; [done|]. intros Hreg. done.
Qed.

(** ** The scenarios *)

(** C3, at a datagram of exactly six bytes: the frame decoded from it has
    destination identifier 258, built from bytes 6 and 7 of the receive
    buffer that the datagram did not write, and the bytes sent for that
    frame carry destination identifier 0, built from the payload bytes of
    the frame variable. The destination identifier is not reproduced. *)
Theorem six_byte_datagram_changes_dst_id :
  ∃ f, received_frame short_sync_datagram stale_locals = Some f ∧
       length (buffer stale_locals) = DMR_BUFFER_SIZE ∧
       length (payload (frame stale_locals)) = DMR_PAYLOAD_SIZE ∧
       header_of_frame f = (4, 1, 200, 258) ∧
       header_of_buffer (encode f) = (4, 1, 200, 0) ∧
       header_of_buffer (encode f) ≠ header_of_frame f.
Proof.
  eexists. split; [vm_compute; reflexivity|].
  repeat split; try (vm_compute; reflexivity). vm_compute. discriminate.
Qed.

(** Two direct registrations of one endpoint give two active sessions
    for it. *)
Lemma double_registration_duplicates_endpoint :
  ¬ NoDup (active_endpoints
             (run quiet_world (dmr_server_init default_config) double_registration)).
Proof.
  assert (active_endpoints
            (run quiet_world (dmr_server_init default_config) double_registration)
          = [endpoint_A; endpoint_A]) as -> by (vm_compute; reflexivity).
  intros [Hn _]%NoDup_cons. apply Hn. by left.
Qed.

Lemma endpoint_late_unregistered : ¬ registered endpoint_late full_registry.
Proof. apply lookup_unregistered. vm_compute. reflexivity. Qed.

(** With all 100 slots in use, the frame of an endpoint whose insertion
    is rejected is sent to all 100 sessions. *)
Lemma full_registry_relays_rejected_sender :
  ¬ registered endpoint_late full_registry ∧
  client_count full_registry = 100 ∧
  (dmr_add_client 2000 endpoint_late 200 None full_registry).1.1 = -1 ∧
  snapshot (handle_datagram quiet_world 2000 sync_datagram endpoint_late
              zero_locals full_registry).1.2
  = snapshot full_registry ∧
  length (sendto_targets
            (handle_datagram quiet_world 2000 sync_datagram endpoint_late
               zero_locals full_registry).2) = 100%nat ∧
  sendto_targets
    (handle_datagram quiet_world 2000 sync_datagram endpoint_late
       zero_locals full_registry).2 ≠ [].
Proof.
  split; [exact endpoint_late_unregistered|].
  repeat split; try (vm_compute; reflexivity). vm_compute. discriminate.
Qed.

(** With database logging disabled (the default), removing a session
    emits no event at all. *)
Lemma remove_without_logging_emits_nothing :
  registered endpoint_A (run quiet_world (dmr_server_init default_config) two_sessions) ∧
  (dmr_remove_client endpoint_A
     (run quiet_world (dmr_server_init default_config) two_sessions)).1.1 = 0 ∧
  ¬ (∃ c, EvDbLogClient c "disconnect"
          ∈ (dmr_remove_client endpoint_A
               (run quiet_world (dmr_server_init default_config) two_sessions)).2).
Proof.
  split; [apply lookup_registered; vm_compute; eauto|].
  split; [vm_compute; reflexivity|].
  assert ((dmr_remove_client endpoint_A
             (run quiet_world (dmr_server_init default_config) two_sessions)).2 = [])
    as -> by (vm_compute; reflexivity).
  intros [c Hc]. by apply elem_of_nil in Hc.
Qed.

(** B sends while A and B have sessions: the frame goes to A only. *)
Lemma relay_excludes_source_witness :
  registry_inv (run quiet_world (dmr_server_init default_config) two_sessions) ∧
  unique_endpoints (run quiet_world (dmr_server_init default_config) two_sessions) ∧
  sendto_targets
    (dmr_relay_frame quiet_world (voice_frame 200) (Some endpoint_B)
       (run quiet_world (dmr_server_init default_config) two_sessions)).2
  = [endpoint_A] ∧
  (endpoint_B ∉ sendto_targets
     (dmr_relay_frame quiet_world (voice_frame 200) (Some endpoint_B)
        (run quiet_world (dmr_server_init default_config) two_sessions)).2).
Proof.
  assert (registry_inv (run quiet_world (dmr_server_init default_config) two_sessions))
    as Hinv by (split; vm_compute; reflexivity).
  assert (unique_endpoints
            (run quiet_world (dmr_server_init default_config) two_sessions))
    as Hu by (apply (bool_decide_unpack _); vm_compute; exact I).
  destruct (relay_excludes_source quiet_world
              (run quiet_world (dmr_server_init default_config) two_sessions)
              (voice_frame 200) endpoint_B Hinv Hu) as (Ht & Hnot & _).
  split; [exact Hinv|]. split; [exact Hu|]. split; [|exact Hnot].
  rewrite Ht. vm_compute. reflexivity.
Defined.

Lemma full_house_registrations :
  Forall (λ o, is_Some (registration_endpoint o)) full_house ∧
  NoDup (omap registration_endpoint full_house) ∧
  (length full_house ≤ DMR_MAX_CLIENTS)%nat.
Proof.
  split; [|split].
  - apply Forall_fmap, Forall_forall. intros n _. simpl. eauto.
  - apply (bool_decide_unpack _). vm_compute. exact I.
  - vm_compute. lia.
Defined.

(** A hundred registrations fill the registry; the next one is rejected. *)
Lemma registration_up_to_capacity_witness :
  client_count full_registry = 100 ∧
  length (snapshot full_registry) = 100%nat ∧
  dmr_add_client 2000 endpoint_late 200 None full_registry = (-1, full_registry, []) ∧
  (dmr_process_frame quiet_world 2000 (sync_frame 200) endpoint_late full_registry).1.2
  = full_registry.
Proof.
  destruct full_house_registrations as (Hreg & Hnd & Hlen).
  destruct (registration_up_to_capacity quiet_world default_config full_house
              Hreg Hnd Hlen) as (Hcount & Hsnap & Hmem & Hfull).
  split; [exact Hcount|]. split; [exact Hsnap|].
  destruct (Hfull eq_refl 2000 endpoint_late 200 None (sync_frame 200)) as [Hadd Hproc].
  split; [exact Hadd|]. apply Hproc.
  intros Hin. apply endpoint_late_unregistered. by apply Hmem.
Defined.

(** The frame of a late endpoint reaches all hundred sessions. *)
Lemma full_registry_frame_is_relayed_witness :
  client_count full_registry = 100 ∧
  ¬ registered endpoint_late full_registry ∧
  (DMR_HEADER_SIZE ≤ length sync_datagram)%nat ∧
  clients (handle_datagram quiet_world 2000 sync_datagram endpoint_late
             zero_locals full_registry).1.2 = clients full_registry ∧
  Z.of_nat (length (sendto_targets
                      (handle_datagram quiet_world 2000 sync_datagram endpoint_late
                         zero_locals full_registry).2)) = 100.
Proof.
  assert (client_count full_registry = 100) as Hcount by (vm_compute; reflexivity).
  assert (DMR_HEADER_SIZE ≤ length sync_datagram)%nat as Hlen by (vm_compute; lia).
  pose proof (full_registry_frame_is_relayed quiet_world default_config full_house
                2000 sync_datagram endpoint_late zero_locals) as Hthm.
  cbv zeta in Hthm.
  destruct (Hthm Hcount endpoint_late_unregistered Hlen) as (_ & Hcl & _ & _ & Hn).
  split; [exact Hcount|]. split; [exact endpoint_late_unregistered|].
  split; [exact Hlen|]. split; [exact Hcl|].
  exact (eq_trans Hn Hcount).
Defined.

(** At time 1301 with a timeout of 300 seconds, A (last seen at 1000) is
    evicted and B (last seen at 1250) stays. *)
Lemma cleanup_evicts_exactly_idle_witness :
  snapshot (run quiet_world (dmr_server_init default_config) idle_A_active_B)
  = [session_A; Client endpoint_B 1250 200 true ""] ∧
  snapshot (dmr_cleanup_clients 1301
              (run quiet_world (dmr_server_init default_config) idle_A_active_B)).1
  = [Client endpoint_B 1250 200 true ""] ∧
  clients (dmr_cleanup_clients 1301
             (run quiet_world (dmr_server_init default_config) idle_A_active_B)).1
    !! 0%nat = Some (set_active false session_A).
Proof.
  destruct (cleanup_evicts_exactly_idle 1301
              (run quiet_world (dmr_server_init default_config) idle_A_active_B))
    as (Hslot & _ & Hsnap & _).
  split; [vm_compute; reflexivity|]. split.
  - rewrite Hsnap. vm_compute. reflexivity.
  - rewrite (Hslot 0%nat session_A) by (vm_compute; reflexivity).
    vm_compute. reflexivity.
Defined.

(** A announced identifier 100 first; a later frame of A with source 555
    leaves it at 100. *)
Lemma identifier_first_seen_wins_witness :
  clients (run quiet_world (dmr_server_init logging_config) two_sessions) !! 0%nat
  = Some session_A ∧
  active session_A = true ∧
  dmr_id session_A ≠ 0 ∧
  ∃ c', clients (run quiet_world
                   (run quiet_world (dmr_server_init logging_config) two_sessions)
                   (frame_op <$> [(1002, voice_frame 555, endpoint_A)])) !! 0%nat
        = Some c' ∧ dmr_id c' = 100.
Proof.
  assert (clients (run quiet_world (dmr_server_init logging_config) two_sessions)
            !! 0%nat = Some session_A) as Hslot by (vm_compute; reflexivity).
  assert (active session_A = true) as Hact by reflexivity.
  assert (dmr_id session_A ≠ 0) as Hid by (vm_compute; discriminate).
  destruct (identifier_first_seen_wins quiet_world
              (run quiet_world (dmr_server_init logging_config) two_sessions)
              0%nat session_A [(1002, voice_frame 555, endpoint_A)]
              1002 (voice_frame 555) endpoint_A Hslot Hact Hid)
    as [(c' & Hc' & Hsame & _) _].
  split; [exact Hslot|]. split; [exact Hact|]. split; [exact Hid|].
  exists c'. split; [exact Hc'|exact Hsame].
Defined.

(** Sessions stay unique through frames, a fresh direct registration, a
    removal and a cleanup. *)
Lemma one_session_per_endpoint_witness :
  admissible quiet_world (dmr_server_init default_config) mixed_ops = true ∧
  NoDup (active_endpoints
           (run quiet_world (dmr_server_init default_config) (take 3 mixed_ops))) ∧
  active_endpoints (run quiet_world (dmr_server_init default_config) (take 3 mixed_ops))
  = [endpoint_A; endpoint_B; endpoint_C].
Proof.
  assert (admissible quiet_world (dmr_server_init default_config) mixed_ops = true)
    as Hadm by (vm_compute; reflexivity).
  split; [exact Hadm|]. split.
  - exact (one_session_per_endpoint quiet_world default_config mixed_ops Hadm 3).
  - vm_compute. reflexivity.
Defined.

(** A datagram of three bytes changes nothing in a registry of two. *)
Lemma short_datagram_dropped_witness :
  (length [4; 1; 0] < DMR_HEADER_SIZE)%nat ∧
  clients (handle_datagram quiet_world 1002 [4; 1; 0] endpoint_C zero_locals
             (run quiet_world (dmr_server_init default_config) two_sessions)).1.2
  = clients (run quiet_world (dmr_server_init default_config) two_sessions) ∧
  (handle_datagram quiet_world 1002 [4; 1; 0] endpoint_C zero_locals
     (run quiet_world (dmr_server_init default_config) two_sessions)).2 = [].
Proof.
  assert (length [4; 1; 0] < DMR_HEADER_SIZE)%nat as Hshort by (vm_compute; lia).
  destruct (short_datagram_dropped quiet_world 1002 [4; 1; 0] endpoint_C zero_locals
              (run quiet_world (dmr_server_init default_config) two_sessions) Hshort)
    as (_ & Hcl & _ & Hev & _).
  split; [exact Hshort|]. split; [exact Hcl|exact Hev].
Defined.

(** With logging enabled, removing A logs its disconnect; removing an
    unknown endpoint changes nothing. *)
Lemma remove_client_contract_witness :
  registered endpoint_A (run quiet_world (dmr_server_init logging_config) two_sessions) ∧
  db_enabled (server_config
                (run quiet_world (dmr_server_init logging_config) two_sessions)) = true ∧
  (dmr_remove_client endpoint_A
     (run quiet_world (dmr_server_init logging_config) two_sessions)).1.1 = 0 ∧
  (∃ c, addr c = endpoint_A ∧
        EvDbLogClient c "disconnect"
        ∈ (dmr_remove_client endpoint_A
             (run quiet_world (dmr_server_init logging_config) two_sessions)).2) ∧
  dmr_remove_client endpoint_C
    (run quiet_world (dmr_server_init logging_config) two_sessions)
  = (-1, run quiet_world (dmr_server_init logging_config) two_sessions, []).
Proof.
  assert (registered endpoint_A
            (run quiet_world (dmr_server_init logging_config) two_sessions)) as Hreg
    by (apply lookup_registered; vm_compute; eauto).
  assert (¬ registered endpoint_C
            (run quiet_world (dmr_server_init logging_config) two_sessions)) as Hnew
    by (apply lookup_unregistered; vm_compute; reflexivity).
  assert (db_enabled (server_config
            (run quiet_world (dmr_server_init logging_config) two_sessions)) = true)
    as Hdb by (vm_compute; reflexivity).
  destruct (remove_client_contract endpoint_A
              (run quiet_world (dmr_server_init logging_config) two_sessions))
    as (Hret & Hfound & _).
  destruct (remove_client_contract endpoint_C
              (run quiet_world (dmr_server_init logging_config) two_sessions))
    as (_ & _ & Hunknown).
  destruct (Hfound Hreg) as (i & c & _ & Ha & _ & _ & _ & _ & Hlog & _).
  split; [exact Hreg|]. split; [exact Hdb|]. split; [by apply Hret|].
  split; [exists c; split; [exact Ha|exact (Hlog Hdb)]|].
  exact (Hunknown Hnew).
Defined.

(** * Further properties of the code *)

(** ** The relay loop *)

Lemma relay_loop_trace w data x cs b p :
  (relay_loop w data x cs b p).2
  = (λ c, EvSendto (addr c) data) <$> filter (relay_target x) cs.
Proof.
  revert b p. induction cs as [|c cs IH]; intros b p; [done|].
  cbn [relay_loop].
  destruct (active c) eqn:Ea; [destruct (is_excluded x c) eqn:Ex|].
  - rewrite filter_cons_False by (unfold relay_target; rewrite Ea, Ex; intros []).
    apply IH.
  - rewrite filter_cons_True by (unfold relay_target; by rewrite Ea, Ex).
    rewrite fmap_cons.
    destruct (sendto w (addr c) data <? 0).
    + specialize (IH b p).
      destruct (relay_loop w data x cs b p) as [[b' p'] ev]. simpl in *.
      by rewrite IH.
    + specialize (IH (add64 b (sendto w (addr c) data)) (add64 p 1)).
      destruct (relay_loop w data x cs _ _) as [[b' p'] ev]. simpl in *.
      by rewrite IH.
  - rewrite filter_cons_False by (unfold relay_target; rewrite Ea; intros []).
    apply IH.
Qed.

Lemma relay_target_none c : relay_target None c = active c.
Proof. unfold relay_target, is_excluded. by rewrite andb_true_r. Qed.

(** X1: [dmr_relay_frame] makes one [sendto] of the encoded frame to
    every active slot that does not hold the excluded endpoint, in slot
    order, whatever the earlier [sendto] calls returned: a failed send does
    not end the loop. With a NULL excluded address every active session is
    a target. The client array and [client_count] are not written. *)
Theorem relay_attempts_every_target (w : world) (f : dmr_frame_t)
    (x : option sockaddr_in) (s : server_state) :
  (dmr_relay_frame w f x s).2
  = (λ c, EvSendto (addr c) (encode f)) <$> filter (relay_target x) (clients s) ∧
  (x = None → sendto_targets (dmr_relay_frame w f x s).2 = active_endpoints s) ∧
  (dmr_relay_frame w f x s).1.1 = 0 ∧
  clients (dmr_relay_frame w f x s).1.2 = clients s ∧
  client_count (dmr_relay_frame w f x s).1.2 = client_count s.
Proof.
  pose proof (relay_frame_registry w f x s) as (Hc & Hn & _).
  pose proof (relay_frame_targets w f x s) as Ht.
  assert ((dmr_relay_frame w f x s).2
          = (λ c, EvSendto (addr c) (encode f)) <$> filter (relay_target x) (clients s))
    as Htrace.
  { unfold dmr_relay_frame.
    pose proof (relay_loop_trace w (encode f) x (clients s) (bytes_sent s)
                  (packets_relayed s)) as Hl.
    by destruct (relay_loop w (encode f) x (clients s) _ _) as [[b p] ev]. }
  split; [done|]. split; [|split; [|done]].
  - intros ->. rewrite Ht. unfold active_endpoints, snapshot. f_equal.
    apply list_filter_iff. intros c. by rewrite relay_target_none.
  - unfold dmr_relay_frame.
    by destruct (relay_loop w (encode f) x (clients s) _ _) as [[b p] ev].
Qed.

(** The counters after the loop, from counters in the [uint64_t] range. *)
Lemma relay_loop_counters w data x cs b p :
  0 ≤ b < 2 ^ 64 → 0 ≤ p < 2 ^ 64 →
  (relay_loop w data x cs b p).1.1
  = (b + foldr Z.add 0
           ((λ c, sendto w (addr c) data)
              <$> filter (λ c, 0 ≤ sendto w (addr c) data) (filter (relay_target x) cs)))
    mod 2 ^ 64 ∧
  (relay_loop w data x cs b p).1.2
  = (p + Z.of_nat (length (filter (λ c, 0 ≤ sendto w (addr c) data)
                                  (filter (relay_target x) cs)))) mod 2 ^ 64.
Proof.
  revert b p. induction cs as [|c cs IH]; intros b p Hb Hp.
  - simpl. rewrite !Z.add_0_r, !Z.mod_small by done. done.
  - cbn [relay_loop].
    destruct (active c) eqn:Ea; [destruct (is_excluded x c) eqn:Ex|].
    + rewrite filter_cons_False by (unfold relay_target; rewrite Ea, Ex; intros []).
      by apply IH.
    + rewrite filter_cons_True by (unfold relay_target; by rewrite Ea, Ex).
      rewrite filter_cons. destruct (sendto w (addr c) data <? 0) eqn:Es.
      * apply Z.ltb_lt in Es. rewrite decide_False by lia.
        specialize (IH b p Hb Hp).
        destruct (relay_loop w data x cs b p) as [[b' p'] ev]. exact IH.
      * apply Z.ltb_ge in Es. rewrite decide_True by done.
        assert (0 ≤ add64 b (sendto w (addr c) data) < 2 ^ 64) as Hb'
          by (apply Z.mod_pos_bound; lia).
        assert (0 ≤ add64 p 1 < 2 ^ 64) as Hp' by (apply Z.mod_pos_bound; lia).
        specialize (IH _ _ Hb' Hp').
        destruct (relay_loop w data x cs _ _) as [[b' p'] ev].
        simpl in IH |- *. destruct IH as [-> ->]. unfold add64.
        rewrite !Zplus_mod_idemp_l. split; f_equal; [|lia].
        rewrite Z.add_assoc. done.
    + rewrite filter_cons_False by (unfold relay_target; rewrite Ea; intros []).
      by apply IH.
Qed.

(** X2: [dmr_relay_frame] adds to [packets_relayed] the number of sends
    that did not fail and to [bytes_sent] the sum of their return values
    (both modulo 2^64), and leaves [packets_received] and
    [bytes_received] alone. *)
Theorem relay_counts_completed_sends (w : world) (f : dmr_frame_t)
    (x : option sockaddr_in) (s : server_state) :
  0 ≤ bytes_sent s < 2 ^ 64 → 0 ≤ packets_relayed s < 2 ^ 64 →
  let s' := (dmr_relay_frame w f x s).1.2 in
  let ok := filter (λ d, 0 ≤ sendto w d (encode f))
                   (sendto_targets (dmr_relay_frame w f x s).2) in
  packets_relayed s' = (packets_relayed s + Z.of_nat (length ok)) mod 2 ^ 64 ∧
  bytes_sent s'
  = (bytes_sent s + foldr Z.add 0 ((λ d, sendto w d (encode f)) <$> ok)) mod 2 ^ 64 ∧
  packets_received s' = packets_received s ∧
  bytes_received s' = bytes_received s.
Proof.
  intros Hb Hp s' ok.
  assert (ok = addr <$> filter (λ c, 0 ≤ sendto w (addr c) (encode f))
                          (filter (relay_target x) (clients s))) as Hok.
  { unfold ok. rewrite relay_frame_targets. by rewrite filter_addr. }
  pose proof (relay_loop_counters w (encode f) x (clients s) _ _ Hb Hp) as [Hbytes Hpk].
  unfold s', dmr_relay_frame.
  destruct (relay_loop w (encode f) x (clients s) _ _) as [[b p] ev].
  simpl in *. rewrite Hok, length_fmap, <- list_fmap_compose. done.
Qed.

(** ** What is sent for a received datagram *)

Lemma take_header (data : list Z) :
  (DMR_HEADER_SIZE ≤ length data)%nat →
  take DMR_HEADER_SIZE data
  = [data !!! 0%nat; data !!! 1%nat; data !!! 2%nat;
     data !!! 3%nat; data !!! 4%nat; data !!! 5%nat].
Proof.
  unfold DMR_HEADER_SIZE. intros Hlen.
  do 6 (destruct data as [|? data]; [simpl in Hlen; lia|]). done.
Qed.

Lemma byte_lookup_total (L : list Z) (i : nat) : Forall is_byte L → is_byte (L !!! i).
Proof.
  intros HL. destruct (decide (i < length L)%nat) as [Hi|Hi].
  - by apply Forall_lookup_total_1.
  - rewrite list_lookup_total_alt, lookup_ge_None_2 by lia. simpl. unfold is_byte. lia.
Qed.

Lemma recvfrom_bytes data buf :
  Forall is_byte data → Forall is_byte buf → Forall is_byte (recvfrom data buf).2.
Proof.
  intros Hd Hb. unfold recvfrom. simpl. apply Forall_app.
  split; [by apply Forall_take|by apply Forall_drop].
Qed.

(** The payload of the frame variable after a datagram of at least six
    bytes: the received bytes from offset 6, cut to 27 bytes or followed by
    the tail of the previous payload. *)
Lemma received_payload (data buf old : list Z) :
  (DMR_HEADER_SIZE ≤ length data)%nat →
  length old = DMR_PAYLOAD_SIZE →
  let n := (recvfrom data buf).1 in
  let k := Nat.min (n - DMR_HEADER_SIZE) DMR_PAYLOAD_SIZE in
  take k (drop DMR_HEADER_SIZE (recvfrom data buf).2) ++ drop k old
  = take DMR_PAYLOAD_SIZE
      (drop DMR_HEADER_SIZE data ++ drop (length data - DMR_HEADER_SIZE) old).
Proof.
  intros Hlen Hold n k.
  assert (n = Nat.min (length data) DMR_BUFFER_SIZE) as Hn by done.
  assert (take k (drop DMR_HEADER_SIZE (recvfrom data buf).2)
          = take k (drop DMR_HEADER_SIZE data)) as ->.
  { change (recvfrom data buf).2 with (take n data ++ drop n buf).
    clearbody n.
    rewrite drop_app_le by (rewrite length_take; unfold DMR_HEADER_SIZE, DMR_BUFFER_SIZE in *; lia).
    rewrite take_app_le
      by (rewrite length_drop, length_take;
          unfold k, DMR_HEADER_SIZE, DMR_BUFFER_SIZE in *; lia).
    replace (take n data) with (take (DMR_HEADER_SIZE + (n - DMR_HEADER_SIZE)) data)
      by (f_equal; unfold DMR_HEADER_SIZE, DMR_BUFFER_SIZE in *; lia).
    rewrite <- take_drop_commute, take_take. f_equal. unfold k. lia. }
  destruct (decide (DMR_HEADER_SIZE + DMR_PAYLOAD_SIZE ≤ length data)%nat) as [Hlong|Hshort].
  - assert (k = DMR_PAYLOAD_SIZE) as ->
      by (unfold k, DMR_HEADER_SIZE, DMR_PAYLOAD_SIZE, DMR_BUFFER_SIZE in *; lia).
    rewrite (drop_ge old) by lia. rewrite app_nil_r.
    by rewrite take_app_le by (rewrite length_drop; lia).
  - assert (k = length data - DMR_HEADER_SIZE)%nat as ->
      by (unfold k, DMR_HEADER_SIZE, DMR_PAYLOAD_SIZE, DMR_BUFFER_SIZE in *; lia).
    rewrite (take_ge (drop _ data)) by (rewrite length_drop; lia).
    rewrite take_ge; [done|].
    rewrite length_app, !length_drop, Hold.
    unfold DMR_HEADER_SIZE, DMR_PAYLOAD_SIZE in *. lia.
Qed.

Lemma received_frame_sent (data : list Z) (l : run_locals) :
  locals_ok l → Forall is_byte data → (DMR_HEADER_SIZE ≤ length data)%nat →
  ∃ f, received_frame data l = Some f ∧
       payload f = take DMR_PAYLOAD_SIZE
                     (drop DMR_HEADER_SIZE data
                      ++ drop (length data - DMR_HEADER_SIZE) (payload (frame l))) ∧
       length (payload f) = DMR_PAYLOAD_SIZE ∧
       Forall is_byte (payload f) ∧
       encode f = take (DMR_HEADER_SIZE + DMR_PAYLOAD_SIZE)
                    (data ++ drop (length data - DMR_HEADER_SIZE) (payload (frame l))).
Proof.
  intros (Hbuf & Hold & Hbb & Hob) Hdata Hlen.
  pose proof (recvfrom_bytes data (buffer l) Hdata Hbb) as Hbytes.
  pose proof (recvfrom_prefix data (buffer l)) as Hpre.
  pose proof (received_payload data (buffer l) (payload (frame l)) Hlen Hold) as Hpay.
  cbv zeta in Hpay.
  assert (DMR_HEADER_SIZE ≤ (recvfrom data (buffer l)).1)%nat as Hn
    by (rewrite recvfrom_bytes_read; unfold DMR_HEADER_SIZE, DMR_BUFFER_SIZE in *; lia).
  unfold received_frame. rewrite (decode_Some _ _ _ Hn).
  set (buf := (recvfrom data (buffer l)).2) in *.
  set (f := Frame _ _ _ _ _).
  set (tail := drop (length data - DMR_HEADER_SIZE) (payload (frame l))) in *.
  assert (payload f = take DMR_PAYLOAD_SIZE (drop DMR_HEADER_SIZE data ++ tail))
    as Hpf by exact Hpay.
  assert (length (payload f) = DMR_PAYLOAD_SIZE) as Hplen.
  { rewrite Hpf, length_take, length_app, !length_drop. unfold tail.
    rewrite length_drop, Hold. unfold DMR_HEADER_SIZE, DMR_PAYLOAD_SIZE in *. lia. }
  exists f. split; [done|]. split; [done|]. split; [done|]. split.
  { rewrite Hpf. apply Forall_take, Forall_app. split; apply Forall_drop; done. }
  rewrite encode_bytes by done. rewrite Hpf.
  unfold f, header_of_buffer. cbn [type slot src_id dst_id fst snd].
  rewrite !pack3_high, !pack3_mid, !pack3_low by (by apply byte_lookup_total).
  unfold buf.
  rewrite !Hpre by (unfold DMR_HEADER_SIZE, DMR_BUFFER_SIZE in *; lia).
  rewrite <- take_header by done.
  replace (data ++ tail)
    with (take DMR_HEADER_SIZE data ++ (drop DMR_HEADER_SIZE data ++ tail))
    by (by rewrite app_assoc, take_drop).
  by rewrite (take_app_add' (take DMR_HEADER_SIZE data))
    by (rewrite length_take; lia).
Qed.

Lemma relay_frame_data w f x s e :
  e ∈ (dmr_relay_frame w f x s).2 → ∃ d, e = EvSendto d (encode f).
Proof.
  unfold dmr_relay_frame.
  pose proof (relay_loop_data w (encode f) x (clients s) (bytes_sent s)
                (packets_relayed s) e) as Hd.
  by destruct (relay_loop w (encode f) x (clients s) _ _) as [[b p] ev].
Qed.

Lemma no_sends_no_targets (ev : list event) :
  (∀ d bytes, EvSendto d bytes ∉ ev) → sendto_targets ev = [].
Proof.
  induction ev as [|e ev IH]; intros Hno; [done|].
  destruct e as [d bytes| | |]; simpl.
  - destruct (Hno d bytes). by left.
  - apply IH. intros d bytes Hin. apply (Hno d bytes). by right.
  - apply IH. intros d bytes Hin. apply (Hno d bytes). by right.
  - apply IH. intros d bytes Hin. apply (Hno d bytes). by right.
Qed.

Lemma process_frame_sends_nothing w now f a s :
  sendto_targets (dmr_process_frame w now f a s).2 = [] ∧
  ∀ d bytes, EvSendto d bytes ∉ (dmr_process_frame w now f a s).2.
Proof.
  assert (∀ d bytes, EvSendto d bytes ∉ (dmr_process_frame w now f a s).2) as Hno.
  { intros d bytes. unfold dmr_process_frame, dmr_add_client.
    destruct (list_find (is_client_of a) (clients s)) as [[i c]|];
      [|destruct (list_find is_free (clients s)) as [[j x]|]]; simpl;
      repeat match goal with
             | |- context [if ?b then _ else _] => destruct b
             | |- context [match db_get_callsign w ?i with _ => _ end] =>
                 destruct (db_get_callsign w i)
             end; simpl;
      rewrite ?elem_of_cons, ?elem_of_nil; intros Hin;
      repeat (destruct Hin as [Hin|Hin]); done. }
  split; [|done]. by apply no_sends_no_targets.
Qed.

(** One datagram that is parsed: the locals, the globals and the trace. *)
Lemma handle_datagram_frame w now data a l s f :
  received_frame data l = Some f →
  handle_datagram w now data a l s
  = (Locals (recvfrom data (buffer l)).2 f (last_cleanup l),
     (dmr_relay_frame w f (Some a)
        (dmr_process_frame w now f a
           (count_received (recvfrom data (buffer l)).1 s)).1.2).1.2,
     (dmr_process_frame w now f a (count_received (recvfrom data (buffer l)).1 s)).2
     ++ (dmr_relay_frame w f (Some a)
           (dmr_process_frame w now f a
              (count_received (recvfrom data (buffer l)).1 s)).1.2).2).
Proof.
  unfold received_frame, handle_datagram. intros Hf.
  destruct (recvfrom data (buffer l)) as [n buf]. simpl in Hf. rewrite Hf.
  fold (count_received n s). cbn [fst snd].
  destruct (dmr_process_frame w now f a (count_received n s)) as [[r1 s1] ev1].
  cbn [fst snd].
  by destruct (dmr_relay_frame w f (Some a) s1) as [[r2 s2] ev2].
Qed.

Lemma handle_datagram_dropped w now data a l s :
  received_frame data l = None →
  handle_datagram w now data a l s
  = (Locals (recvfrom data (buffer l)).2 (frame l) (last_cleanup l),
     count_received (recvfrom data (buffer l)).1 s, []).
Proof.
  unfold received_frame, handle_datagram. intros Hf.
  destruct (recvfrom data (buffer l)) as [n buf]. simpl in Hf. by rewrite Hf.
Qed.

Lemma handle_datagram_sends w now data a l s d bytes :
  EvSendto d bytes ∈ (handle_datagram w now data a l s).2 →
  ∃ f, received_frame data l = Some f ∧ bytes = encode f.
Proof.
  destruct (received_frame data l) as [f|] eqn:Hf.
  - rewrite (handle_datagram_frame w now data a l s f Hf). simpl.
    intros [Hin|Hin]%elem_of_app.
    + by apply process_frame_sends_nothing in Hin.
    + exists f. split; [done|].
      destruct (relay_frame_data w f (Some a)
                  (dmr_process_frame w now f a
                     (count_received (recvfrom data (buffer l)).1 s)).1.2 _ Hin)
        as [d' Heq].
      by injection Heq.
  - rewrite (handle_datagram_dropped w now data a l s Hf). by intros ?%elem_of_nil.
Qed.

Lemma handle_datagram_locals w now data a l s :
  buffer (handle_datagram w now data a l s).1.1 = (recvfrom data (buffer l)).2 ∧
  frame (handle_datagram w now data a l s).1.1
  = default (frame l) (received_frame data l) ∧
  last_cleanup (handle_datagram w now data a l s).1.1 = last_cleanup l.
Proof.
  destruct (received_frame data l) as [f|] eqn:Hf.
  - by rewrite (handle_datagram_frame w now data a l s f Hf).
  - by rewrite (handle_datagram_dropped w now data a l s Hf).
Qed.

Lemma handle_datagram_locals_ok w now data a l s :
  locals_ok l → Forall is_byte data →
  locals_ok (handle_datagram w now data a l s).1.1.
Proof.
  intros Hl Hdata. pose proof Hl as (Hbuf & Hold & Hbb & Hob).
  destruct (handle_datagram_locals w now data a l s) as (Hb & Hf & _).
  unfold locals_ok. rewrite Hb, Hf.
  split; [by apply recvfrom_length|]. 
  assert (Forall is_byte (recvfrom data (buffer l)).2) as Hbytes
    by (by apply recvfrom_bytes).
  destruct (decide (DMR_HEADER_SIZE ≤ length data)%nat) as [Hlen|Hshort].
  - destruct (received_frame_sent data l Hl Hdata Hlen) as (f & -> & _ & ? & ? & _).
    done.
  - unfold received_frame. rewrite decode_short; [done|].
    rewrite recvfrom_bytes_read. lia.
Qed.

Lemma handle_datagram_bytes w now data a l s d bytes :
  locals_ok l → Forall is_byte data →
  EvSendto d bytes ∈ (handle_datagram w now data a l s).2 →
  (DMR_HEADER_SIZE ≤ length data)%nat ∧
  bytes = take (DMR_HEADER_SIZE + DMR_PAYLOAD_SIZE)
            (data ++ drop (length data - DMR_HEADER_SIZE) (payload (frame l))).
Proof.
  intros Hl Hdata Hin.
  destruct (handle_datagram_sends w now data a l s d bytes Hin) as (f & Hf & ->).
  destruct (decide (DMR_HEADER_SIZE ≤ length data)%nat) as [Hlen|Hshort].
  - split; [done|].
    destruct (received_frame_sent data l Hl Hdata Hlen) as (f' & Hf' & _ & _ & _ & Henc).
    congruence.
  - unfold received_frame in Hf. rewrite decode_short in Hf; [done|].
    rewrite recvfrom_bytes_read. lia.
Qed.

(** X3: the datagram relayed for a received datagram of at least six
    bytes has exactly 33 bytes: the first 33 bytes of the received
    datagram when it has that many, and otherwise the received datagram
    followed by the tail of the payload the frame variable held before
    (the payload of the frame received last). Nothing is sent for a
    shorter datagram. The local arrays keep their sizes. *)
Theorem relayed_datagram_bytes (w : world) (now : Z) (data : list Z)
    (a : sockaddr_in) (l : run_locals) (s : server_state) :
  locals_ok l → Forall is_byte data →
  locals_ok (handle_datagram w now data a l s).1.1 ∧
  ∀ d bytes, EvSendto d bytes ∈ (handle_datagram w now data a l s).2 →
    (6 ≤ length data)%nat ∧
    length bytes = 33%nat ∧
    ((33 ≤ length data)%nat → bytes = take 33 data) ∧
    ((length data < 33)%nat →
     bytes = data ++ drop (length data - 6) (payload (frame l))).
Proof.
  intros Hl Hdata. split; [by apply handle_datagram_locals_ok|].
  intros d bytes Hin.
  destruct (handle_datagram_bytes w now data a l s d bytes Hl Hdata Hin) as [Hlen ->].
  destruct Hl as (_ & Hold & _).
  unfold DMR_HEADER_SIZE, DMR_PAYLOAD_SIZE in *. simpl.
  split; [done|]. split; [|split].
  - rewrite length_take, length_app, length_drop, Hold. lia.
  - intros Hlong. by rewrite take_app_le.
  - intros Hshort. apply take_ge. rewrite length_app, length_drop, Hold. lia.
Qed.

(** X4: a datagram of 6 to 32 bytes that follows a datagram of at least
    33 bytes is relayed with bytes of the earlier datagram appended: what
    is sent is the short datagram followed by the bytes of the earlier one
    from the same offset up to byte 33, whoever sent the earlier one. *)
Theorem short_datagram_carries_previous_payload (w : world) (t1 t2 : Z)
    (data1 data2 : list Z) (a1 a2 : sockaddr_in) (l : run_locals) (s : server_state) :
  locals_ok l → Forall is_byte data1 → Forall is_byte data2 →
  (33 ≤ length data1)%nat → (6 ≤ length data2 < 33)%nat →
  let r1 := handle_datagram w t1 data1 a1 l s in
  ∀ d bytes,
    EvSendto d bytes ∈ (handle_datagram w t2 data2 a2 r1.1.1 r1.1.2).2 →
    bytes = data2 ++ drop (length data2) (take 33 data1).
Proof.
  intros Hl Hd1 Hd2 Hlen1 Hlen2 r1 d bytes Hin.
  pose proof (handle_datagram_locals_ok w t1 data1 a1 l s Hl Hd1) as Hl1.
  destruct (handle_datagram_bytes w t2 data2 a2 _ _ d bytes Hl1 Hd2 Hin) as [_ ->].
  destruct (handle_datagram_locals w t1 data1 a1 l s) as (_ & Hf & _).
  unfold r1. rewrite Hf.
  destruct (received_frame_sent data1 l Hl Hd1) as (f & -> & Hpay & Hplen & _);
    [unfold DMR_HEADER_SIZE; lia|].
  simpl. rewrite Hpay. unfold DMR_HEADER_SIZE, DMR_PAYLOAD_SIZE in *.
  rewrite (take_app_le (drop 6 data1)) by (rewrite length_drop; lia).
  rewrite take_ge by (rewrite length_app, !length_drop, length_take, length_drop; lia).
  f_equal. change 33%nat with (6 + 27)%nat. rewrite <- (take_take_drop data1 6 27).
  rewrite drop_app_ge by (rewrite length_take; lia).
  rewrite length_take. f_equal. lia.
Qed.

(** ** Frames of known and of new endpoints *)

Lemma touched_callsign w now f db c :
  callsign (touched w now f db c)
  = (if (dmr_id c =? 0) && negb (src_id f =? 0) && db
     then match db_get_callsign w (src_id f) with
          | Some name => copy_callsign name
          | None => callsign c
          end
     else callsign c).
Proof.
  unfold touched. simpl.
  destruct (dmr_id c =? 0), (src_id f =? 0), db; simpl; try done.
  by destruct (db_get_callsign w (src_id f)).
Qed.

Lemma process_frame_config w now f a s :
  server_config (dmr_process_frame w now f a s).1.2 = server_config s.
Proof.
  destruct (list_find (is_client_of a) (clients s)) as [[i c]|] eqn:E.
  - by rewrite (process_frame_found w now f a s i c E).
  - rewrite (process_frame_new w now f a s E). unfold dmr_add_client.
    by destruct (list_find is_free (clients s)) as [[j x]|].
Qed.

Lemma room_for_one_more (s : server_state) :
  registry_inv s → client_count s < 100 →
  ∃ i x, list_find is_free (clients s) = Some (i, x).
Proof.
  intros [Hslots Hcount] Hroom.
  destruct (free_slot_exists (clients s)) as [[i x] E]; [|by eauto].
  unfold snapshot in Hcount. rewrite Hslots. unfold DMR_MAX_CLIENTS. lia.
Qed.

(** X5: a frame from an endpoint that has a session sets [last_seen] of
    the first slot holding the endpoint to the current time, assigns the
    frame's [src_id] when the identifier was zero, and leaves the endpoint
    and the active flag alone; the callsign changes only on that first
    assignment with logging enabled and a directory entry. No other slot
    is written, [client_count] is unchanged, and the result is 0. *)
Theorem known_sender_is_touched (w : world) (now : Z) (f : dmr_frame_t)
    (a : sockaddr_in) (s : server_state) :
  registered a s →
  ∃ i c c',
    list_find (is_client_of a) (clients s) = Some (i, c) ∧
    clients (dmr_process_frame w now f a s).1.2 = <[i := c']> (clients s) ∧
    addr c' = a ∧ active c' = true ∧ last_seen c' = now ∧
    dmr_id c' = (if dmr_id c =? 0 then src_id f else dmr_id c) ∧
    (dmr_id c ≠ 0 ∨ src_id f = 0 ∨ db_enabled (server_config s) = false ∨
     db_get_callsign w (src_id f) = None → callsign c' = callsign c) ∧
    client_count (dmr_process_frame w now f a s).1.2 = client_count s ∧
    (dmr_process_frame w now f a s).1.1 = 0.
Proof.
  intros Hreg. apply lookup_registered in Hreg as [[i c] E].
  exists i, c, (touched w now f (db_enabled (server_config s)) c).
  split; [done|].
  pose proof (process_frame_found w now f a s i c E) as Hst.
  destruct (touched_fields w now f (db_enabled (server_config s)) c)
    as (Haddr & Hact & Hseen & Hid).
  apply list_find_Some in E as (Hi & Hc & _).
  apply is_client_of_spec in Hc as [Hactive Ha].
  rewrite Hst. simpl. split; [done|]. split; [congruence|].
  split; [rewrite Hact; by apply Is_true_true|]. split; [done|]. split; [done|].
  split; [|split; [done|apply process_frame_returns_0]].
  rewrite touched_callsign. intros Hcase.
  destruct (dmr_id c =? 0) eqn:Ed, (src_id f =? 0) eqn:Ef,
    (db_enabled (server_config s)) eqn:Edb; simpl; try done.
  apply Z.eqb_eq in Ed. apply Z.eqb_neq in Ef.
  destruct (db_get_callsign w (src_id f)) eqn:Edir; [|done].
  destruct Hcase as [?|[?|[?|?]]]; done.
Qed.

(** X6: a frame from an endpoint without a session, while fewer than 100
    sessions exist, fills the first free slot with a session of that
    endpoint: [last_seen] the current time, the identifier the frame's
    [src_id], an empty callsign. The directory is not asked, whatever the
    [src_id]; with logging enabled the connect event and the frame are
    logged, in that order. No other slot is written. *)
Theorem unknown_sender_is_registered (w : world) (now : Z) (f : dmr_frame_t)
    (a : sockaddr_in) (s : server_state) :
  registry_inv s → ¬ registered a s → client_count s < 100 →
  ∃ i x,
    list_find is_free (clients s) = Some (i, x) ∧
    clients (dmr_process_frame w now f a s).1.2
    = <[i := Client a now (src_id f) true ""]> (clients s) ∧
    client_count (dmr_process_frame w now f a s).1.2 = client_count s + 1 ∧
    registered a (dmr_process_frame w now f a s).1.2 ∧
    (dmr_process_frame w now f a s).2
    = (if db_enabled (server_config s)
       then [EvDbLogClient (Client a now (src_id f) true "") "connect";
             EvDbLogFrame f a]
       else []).
Proof.
  intros Hinv Hnew Hroom.
  destruct (room_for_one_more s Hinv Hroom) as (i & x & E).
  exists i, x. split; [done|].
  apply lookup_unregistered in Hnew.
  assert (dmr_process_frame w now f a s
          = (0, set_client_count (client_count s + 1)
                  (set_clients (<[i := Client a now (src_id f) true ""]> (clients s)) s),
             if db_enabled (server_config s)
             then [EvDbLogClient (Client a now (src_id f) true "") "connect";
                   EvDbLogFrame f a]
             else [])) as ->.
  { unfold dmr_process_frame, dmr_add_client. rewrite Hnew, E. simpl.
    by destruct (db_enabled (server_config s)). }
  simpl. repeat split; try done.
  apply registered_spec. exists (Client a now (src_id f) true "").
  split; [|done]. simpl. apply list_elem_of_lookup_2 with i.
  apply list_lookup_insert_eq. apply list_find_Some in E as (Hi & _). by eapply lookup_lt_Some.
Qed.

Lemma process_frame_session w now f a s :
  registry_inv s → registered a s ∨ client_count s < 100 →
  ∃ c, c ∈ snapshot (dmr_process_frame w now f a s).1.2 ∧ addr c = a ∧ last_seen c = now.
Proof.
  intros Hinv Hcase.
  assert (∃ i c, clients (dmr_process_frame w now f a s).1.2 !! i = Some c ∧
                 addr c = a ∧ active c = true ∧ last_seen c = now)
    as (i & c & Hi & Ha & Hact & Hseen).
  { destruct (list_find (is_client_of a) (clients s)) as [[i c]|] eqn:E.
    - rewrite (process_frame_found w now f a s i c E). simpl.
      destruct (touched_fields w now f (db_enabled (server_config s)) c)
        as (Haddr & Hact & Hseen & _).
      apply list_find_Some in E as (Hi & Hc & _).
      apply is_client_of_spec in Hc as [Hactive Ha].
      exists i, (touched w now f (db_enabled (server_config s)) c).
      split; [apply list_lookup_insert_eq; by eapply lookup_lt_Some|].
      split; [congruence|]. split; [|done]. rewrite Hact. by apply Is_true_true.
    - destruct Hcase as [Hreg|Hroom];
        [apply lookup_registered in Hreg as [? Hreg]; congruence|].
      rewrite (process_frame_new w now f a s E).
      destruct (room_for_one_more s Hinv Hroom) as (i & x & Efree).
      destruct (add_client_slot now a (src_id f) None s i x Efree)
        as (c & Ha & Hact & Hseen & _ & _ & Hcl & _).
      exists i, c. rewrite Hcl. split; [|done].
      apply list_lookup_insert_eq. apply list_find_Some in Efree as (Hi & _).
      by eapply lookup_lt_Some. }
  exists c. split; [|done]. apply list_elem_of_filter.
  split; [by rewrite Hact|]. by eapply list_elem_of_lookup_2.
Qed.

Lemma cleanup_evicts_session now s :
  snapshot (dmr_cleanup_clients now s).1
  = filter (λ c, now - last_seen c ≤ timeout (server_config s)) (snapshot s) ∧
  server_config (dmr_cleanup_clients now s).1 = server_config s.
Proof.
  split.
  - unfold snapshot. rewrite cleanup_clients, filter_active_expire.
    apply list_filter_iff. intros c.
    rewrite negb_True, Is_true_true, Z.ltb_lt. lia.
  - unfold dmr_cleanup_clients. by rewrite cleanup_loop_spec.
Qed.

Lemma unique_session (l : list dmr_client_t) (c d : dmr_client_t) :
  NoDup (addr <$> l) → c ∈ l → d ∈ l → addr c = addr d → c = d.
Proof.
  induction l as [|e l IH]; [by intros _ ?%elem_of_nil|].
  rewrite fmap_cons. intros [Hnot Hnd]%NoDup_cons.
  intros [->|Hc]%elem_of_cons [->|Hd]%elem_of_cons Heq; try done.
  - destruct Hnot. rewrite Heq. by apply list_elem_of_fmap_2.
  - destruct Hnot. rewrite <- Heq. by apply list_elem_of_fmap_2.
  - by apply IH.
Qed.

(** X7: after a frame of an endpoint has been processed at time [now]
    (the endpoint had a session, or there was room for one), the endpoint
    has a session; the eviction pass at time [now'] keeps it when
    [now' - now] is at most the timeout and removes it when it is more. *)
Theorem touched_session_and_timeout_window (w : world) (now now' : Z)
    (f : dmr_frame_t) (a : sockaddr_in) (s : server_state) :
  registry_inv s → unique_endpoints s →
  registered a s ∨ client_count s < 100 →
  let s1 := (dmr_process_frame w now f a s).1.2 in
  registered a s1 ∧
  (registered a (dmr_cleanup_clients now' s1).1 ↔ now' - now ≤ timeout (server_config s)).
Proof.
  intros Hinv Hu Hcase s1.
  destruct (process_frame_session w now f a s Hinv Hcase) as (c & Hc & Ha & Hseen).
  fold s1 in Hc.
  assert (unique_endpoints s1) as Hu1 by (by apply unique_endpoints_process_frame).
  assert (registered a s1) as Hreg.
  { unfold registered, active_endpoints. rewrite <- Ha. by apply list_elem_of_fmap_2. }
  split; [done|].
  destruct (cleanup_evicts_session now' s1) as (Hsnap & _).
  unfold registered, active_endpoints. rewrite Hsnap.
  assert (server_config s1 = server_config s) as -> by apply process_frame_config.
  rewrite list_elem_of_fmap. split.
  - intros (d & Had & [Hwin Hd]%list_elem_of_filter).
    assert (d = c) as -> by (apply (unique_session (snapshot s1)); [done| | |congruence]; done).
    lia.
  - intros Hwin. exists c. split; [done|]. apply list_elem_of_filter. split; [lia|done].
Qed.

(** ** More on eviction *)

Lemma timed_out_expire now now' tmo c :
  now' ≤ now → timed_out now' tmo (expire now tmo c) = false.
Proof.
  intros Hle. unfold expire, timed_out.
  destruct (active c) eqn:Ea, (tmo <? now - last_seen c) eqn:Et; simpl; try done.
  - rewrite Ea. simpl. apply Z.ltb_ge in Et. apply Z.ltb_ge. lia.
  - by rewrite Ea.
  - by rewrite Ea.
Qed.

Lemma expire_not_timed_out now tmo c : timed_out now tmo c = false → expire now tmo c = c.
Proof. unfold expire. by intros ->. Qed.

(** X8: an eviction pass that follows an eviction pass and reads a clock
    that is not later changes nothing and logs nothing; in particular the
    pass is idempotent. *)
Theorem cleanup_after_cleanup_is_noop (now now' : Z) (s : server_state) :
  now' ≤ now →
  dmr_cleanup_clients now' (dmr_cleanup_clients now s).1
  = ((dmr_cleanup_clients now s).1, []).
Proof.
  intros Hle. unfold dmr_cleanup_clients at 1. rewrite cleanup_loop_spec.
  destruct (cleanup_evicts_session now s) as [_ Hcfg]. rewrite Hcfg, cleanup_clients.
  set (tmo := timeout (server_config s)).
  assert (filter (timed_out now' tmo) (expire now tmo <$> clients s) = []) as ->.
  { induction (clients s) as [|c cs IH]; [done|].
    rewrite fmap_cons, filter_cons_False; [done|].
    rewrite timed_out_expire by done. intros []. }
  assert (expire now' tmo <$> (expire now tmo <$> clients s) = expire now tmo <$> clients s)
    as ->.
  { rewrite <- list_fmap_compose. apply list_fmap_ext. intros i c _. simpl.
    apply expire_not_timed_out. by apply timed_out_expire. }
  rewrite Z.sub_0_r. f_equal; [|by destruct (db_enabled _)].
  unfold dmr_cleanup_clients. rewrite cleanup_loop_spec. done.
Qed.

(** X9: the eviction pass decrements [client_count] once per evicted
    session and, with logging enabled, logs one timeout event per evicted
    session, in slot order, with the session as it was before the pass;
    with logging disabled it logs nothing. The configuration and the
    counters are not written. *)
Theorem cleanup_logs_each_eviction (now : Z) (s : server_state) :
  let evicted := filter (λ c, timeout (server_config s) < now - last_seen c) (snapshot s) in
  (dmr_cleanup_clients now s).2
  = (if db_enabled (server_config s)
     then (λ c, EvDbLogClient c "timeout") <$> evicted else []) ∧
  client_count (dmr_cleanup_clients now s).1
  = client_count s - Z.of_nat (length evicted) ∧
  server_config (dmr_cleanup_clients now s).1 = server_config s ∧
  packets_received (dmr_cleanup_clients now s).1 = packets_received s ∧
  packets_relayed (dmr_cleanup_clients now s).1 = packets_relayed s ∧
  bytes_received (dmr_cleanup_clients now s).1 = bytes_received s ∧
  bytes_sent (dmr_cleanup_clients now s).1 = bytes_sent s.
Proof.
  intros evicted.
  assert (filter (timed_out now (timeout (server_config s))) (clients s) = evicted) as He.
  { unfold evicted, snapshot. rewrite list_filter_filter.
    apply list_filter_iff. intros c. unfold timed_out.
    rewrite andb_True, (Is_true_true (_ <? _)), Z.ltb_lt. simpl. tauto. }
  unfold dmr_cleanup_clients. rewrite cleanup_loop_spec, He. done.
Qed.

(** ** Callsigns *)

Lemma copy_callsign_length (x : string) : (String.length (copy_callsign x) ≤ 9)%nat.
Proof.
  unfold copy_callsign. generalize 9%nat as n. revert x.
  induction x as [|ch x IH]; intros [|n]; simpl; try lia.
  specialize (IH n). lia.
Qed.

Lemma callsign_bound_insert (l : list dmr_client_t) i c :
  Forall (λ c, (String.length (callsign c) ≤ 9)%nat) l →
  (String.length (callsign c) ≤ 9)%nat →
  Forall (λ c, (String.length (callsign c) ≤ 9)%nat) (<[i := c]> l).
Proof. intros Hl Hc. by apply Forall_insert. Qed.

Lemma callsign_bound_step w s o :
  Forall (λ c, (String.length (callsign c) ≤ 9)%nat) (clients s) →
  Forall (λ c, (String.length (callsign c) ≤ 9)%nat) (clients (step w s o)).
Proof.
  intros Hs. destruct o as [now f a|now a id cs|a|now|f x]; simpl.
  - destruct (list_find (is_client_of a) (clients s)) as [[i c]|] eqn:E.
    + rewrite (process_frame_found w now f a s i c E). simpl.
      apply callsign_bound_insert; [done|]. rewrite touched_callsign.
      apply list_find_Some in E as (Hi & _).
      assert (String.length (callsign c) ≤ 9)%nat as Hc
        by (rewrite Forall_forall in Hs; by eapply Hs, list_elem_of_lookup_2).
      destruct (_ && _); [|done].
      destruct (db_get_callsign w (src_id f)); [apply copy_callsign_length|done].
    + rewrite (process_frame_new w now f a s E). unfold dmr_add_client.
      destruct (list_find is_free (clients s)) as [[j x]|]; [|done]. simpl.
      apply callsign_bound_insert; [done|]. simpl. lia.
  - unfold dmr_add_client.
    destruct (list_find is_free (clients s)) as [[j x]|]; [|done]. simpl.
    apply callsign_bound_insert; [done|]. simpl.
    destruct cs; [apply copy_callsign_length|simpl; lia].
  - unfold dmr_remove_client.
    destruct (list_find (is_client_of a) (clients s)) as [[i c]|] eqn:E; [|done]. simpl.
    apply callsign_bound_insert; [done|]. simpl.
    apply list_find_Some in E as (Hi & _).
    rewrite Forall_forall in Hs. by eapply Hs, list_elem_of_lookup_2.
  - rewrite cleanup_clients. apply Forall_fmap. eapply Forall_impl; [exact Hs|].
    intros c Hc. simpl. unfold expire. by destruct (timed_out _ _ c).
  - by destruct (relay_frame_registry w f x s) as (-> & _).
Qed.

(** X10: after every sequence of operations from the initialised
    registry, the callsign of every slot has at most nine characters (it
    fits the ten-byte field with its terminator), whatever the directory
    returns and whatever callsign [dmr_add_client] is given. *)
Theorem callsign_fits_its_field (w : world) (cfg : dmr_config_t) (ops : list op) :
  ∀ c, c ∈ clients (run w (dmr_server_init cfg) ops) →
       (String.length (callsign c) ≤ 9)%nat.
Proof.
  assert (∀ s, Forall (λ c, (String.length (callsign c) ≤ 9)%nat) (clients s) →
               Forall (λ c, (String.length (callsign c) ≤ 9)%nat) (clients (run w s ops)))
    as Hrun.
  { induction ops as [|o ops IH]; intros s Hs; [done|].
    simpl. apply IH. by apply callsign_bound_step. }
  intros c Hc.
  assert (Forall (λ c, (String.length (callsign c) ≤ 9)%nat)
                 (clients (run w (dmr_server_init cfg) ops))) as Hall.
  { apply Hrun. apply Forall_forall. intros d Hd.
    change (clients (dmr_server_init cfg))
      with (replicate DMR_MAX_CLIENTS zero_client) in Hd.
    apply elem_of_replicate in Hd as [-> _]. simpl. lia. }
  rewrite Forall_forall in Hall. by apply Hall.
Qed.

Lemma process_frame_keeps_identified w now f a s i c :
  clients s !! i = Some c → active c = true → dmr_id c ≠ 0 →
  ∃ c', clients (dmr_process_frame w now f a s).1.2 !! i = Some c' ∧
        dmr_id c' = dmr_id c ∧ addr c' = addr c ∧ active c' = true ∧
        callsign c' = callsign c.
Proof.
  intros Hi Hact Hid.
  destruct (list_find (is_client_of a) (clients s)) as [[j d]|] eqn:E.
  - rewrite (process_frame_found w now f a s j d E). simpl.
    apply list_find_Some in E as (Hj & _ & _).
    destruct (decide (i = j)) as [->|Hne].
    + assert (d = c) as -> by congruence.
      destruct (touched_fields w now f (db_enabled (server_config s)) c)
        as (Haddr & Hact' & _ & Hid').
      eexists. split; [apply list_lookup_insert_eq; by eapply lookup_lt_Some|].
      rewrite Haddr, Hact', Hid', touched_callsign.
      apply Z.eqb_neq in Hid. by rewrite Hid.
    + exists c. by rewrite list_lookup_insert_ne.
  - rewrite (process_frame_new w now f a s E).
    destruct (list_find is_free (clients s)) as [[j x]|] eqn:Efree.
    + destruct (add_client_slot now a (src_id f) None s j x Efree)
        as (c' & _ & _ & _ & _ & _ & Hcl & _).
      apply list_find_Some in Efree as (Hj & Hfree & _). apply is_free_spec in Hfree.
      exists c. rewrite Hcl, list_lookup_insert_ne; [done|].
      intros ->. assert (x = c) as -> by congruence. by rewrite Hact in Hfree.
    + rewrite add_client_full by done. by exists c.
Qed.

Lemma process_frames_keep_identified w (frames : list (Z * dmr_frame_t * sockaddr_in))
    s i c :
  clients s !! i = Some c → active c = true → dmr_id c ≠ 0 →
  ∃ c', clients (run w s (frame_op <$> frames)) !! i = Some c' ∧
        dmr_id c' = dmr_id c ∧ addr c' = addr c ∧ active c' = true ∧
        callsign c' = callsign c.
Proof.
  revert s c. induction frames as [|[[now f] a] frames IH]; intros s c Hi Hact Hid.
  - by exists c.
  - destruct (process_frame_keeps_identified w now f a s i c Hi Hact Hid)
      as (c1 & Hi1 & Hid1 & Haddr1 & Hact1 & Hcs1).
    destruct (IH _ c1 Hi1 Hact1) as (c' & ? & ? & ? & ? & ?); [congruence|].
    exists c'. simpl. repeat split; try done; congruence.
Qed.

(** X11: a session created by a frame with a non-zero [src_id] has an
    empty callsign and keeps it, with its identifier, through every later
    frame: the directory is not asked at creation, and the callsign stays
    empty afterwards, also with logging enabled and a directory that
    knows the identifier. *)
Theorem identified_at_creation_never_named (w : world) (now : Z) (f : dmr_frame_t)
    (a : sockaddr_in) (s : server_state)
    (frames : list (Z * dmr_frame_t * sockaddr_in)) :
  registry_inv s → ¬ registered a s → client_count s < 100 → src_id f ≠ 0 →
  ∃ i c,
    clients (run w (dmr_process_frame w now f a s).1.2 (frame_op <$> frames)) !! i
    = Some c ∧
    addr c = a ∧ active c = true ∧ dmr_id c = src_id f ∧ callsign c = "" ∧
    (∀ id, EvDbGetCallsign id ∉ (dmr_process_frame w now f a s).2).
Proof.
  intros Hinv Hnew Hroom Hsrc.
  destruct (room_for_one_more s Hinv Hroom) as (i & x & E).
  pose proof Hnew as Hnone%lookup_unregistered.
  assert (clients (dmr_process_frame w now f a s).1.2 !! i
          = Some (Client a now (src_id f) true "")) as Hslot.
  { rewrite (process_frame_new w now f a s Hnone).
    unfold dmr_add_client. rewrite E. simpl.
    apply list_lookup_insert_eq. apply list_find_Some in E as (Hi & _).
    by eapply lookup_lt_Some. }
  destruct (process_frames_keep_identified w frames _ i _ Hslot eq_refl Hsrc)
    as (c & Hc & Hid & Haddr & Hact & Hcs).
  exists i, c. repeat split; try done.
  intros id Hin.
  apply process_frame_lookup_only_on_first_assignment in Hin as (j & d & _ & Hfind & _).
  congruence.
Qed.

(** ** Registration and removal *)

Lemma find_registered_slot (l : list dmr_client_t) (a : sockaddr_in) i x c :
  list_find (is_client_of a) l = None →
  l !! i = Some x → is_client_of a c →
  list_find (is_client_of a) (<[i := c]> l) = Some (i, c).
Proof.
  intros Hnone Hi Hc. apply list_find_Some. split; [|split; [done|]].
  - apply list_lookup_insert_eq. by eapply lookup_lt_Some.
  - intros j y Hj Hlt. rewrite list_lookup_insert_ne in Hj by lia.
    apply list_find_None in Hnone. rewrite Forall_forall in Hnone.
    by eapply Hnone, list_elem_of_lookup_2.
Qed.

(** X12: registering an endpoint that has no session, while there is
    room, and then removing it succeeds twice (both calls return 0) and
    gives back the sessions and the session count there were before; the
    slot that was used is free again. *)
Theorem add_then_remove_restores_registry (now : Z) (a : sockaddr_in) (id : Z)
    (cs : option string) (s : server_state) :
  registry_inv s → ¬ registered a s → client_count s < 100 →
  let s1 := (dmr_add_client now a id cs s).1.2 in
  (dmr_add_client now a id cs s).1.1 = 0 ∧
  registered a s1 ∧
  (dmr_remove_client a s1).1.1 = 0 ∧
  snapshot (dmr_remove_client a s1).1.2 = snapshot s ∧
  client_count (dmr_remove_client a s1).1.2 = client_count s ∧
  list_find is_free (clients (dmr_remove_client a s1).1.2)
  = Some (default 0%nat (fst <$> list_find is_free (clients s)),
          set_active false (Client a now id true
                              (match cs with Some x => copy_callsign x | None => "" end))).
Proof.
  intros Hinv Hnew Hroom s1.
  destruct (room_for_one_more s Hinv Hroom) as (i & x & E).
  pose proof Hnew as Hnone%lookup_unregistered.
  set (c := Client a now id true (match cs with Some x => copy_callsign x | None => "" end)).
  assert (dmr_add_client now a id cs s
          = (0, set_client_count (client_count s + 1)
                  (set_clients (<[i := c]> (clients s)) s),
             if db_enabled (server_config s) then [EvDbLogClient c "connect"] else []))
    as Hadd by (unfold dmr_add_client; by rewrite E).
  pose proof E as (Hi & Hfree & Hfirst)%list_find_Some.
  apply is_free_spec in Hfree.
  assert (is_client_of a c) as Hc by (by apply is_client_of_spec).
  pose proof (find_registered_slot (clients s) a i x c Hnone Hi Hc) as Hfind.
  unfold s1. rewrite Hadd. simpl.
  split; [done|]. split.
  { apply lookup_registered. simpl. by rewrite Hfind. }
  unfold dmr_remove_client. simpl. rewrite Hfind. simpl.
  rewrite list_insert_insert_eq. split; [done|]. split; [|split; [lia|]].
  - unfold snapshot. simpl.
    rewrite (filter_insert_split (λ c, Is_true (active c)) _ i x _ Hi).
    rewrite (filter_split (λ c, Is_true (active c)) _ i x Hi).
    rewrite decide_False by (simpl; intros []).
    by rewrite decide_False by done.
  - rewrite E. simpl. apply list_find_Some. split; [|split; [done|]].
    + apply list_lookup_insert_eq. by eapply lookup_lt_Some.
    + intros j y Hj Hlt. rewrite list_lookup_insert_ne in Hj by lia.
      by apply (Hfirst j y).
Qed.

(** Removing a session with logging enabled logs two events for it, a
    disconnect and then a timeout, each with the session as it was before
    the removal. *)
Lemma remove_logs_disconnect_and_timeout (a : sockaddr_in) (s : server_state) :
  registered a s → db_enabled (server_config s) = true →
  ∃ i c, list_find (is_client_of a) (clients s) = Some (i, c) ∧
         addr c = a ∧ active c = true ∧
         (dmr_remove_client a s).2
         = [EvDbLogClient c "disconnect"; EvDbLogClient c "timeout"].
Proof.
  intros Hreg Hdb. apply lookup_registered in Hreg as [[i c] E].
  exists i, c. split; [done|].
  pose proof E as (_ & Hc & _)%list_find_Some.
  apply is_client_of_spec in Hc as [Hact Ha].
  split; [done|]. split; [by apply Is_true_true|].
  unfold dmr_remove_client. by rewrite E, Hdb.
Qed.

(** ** The receive loop *)

Lemma count_received_registry n s :
  clients (count_received n s) = clients s ∧
  client_count (count_received n s) = client_count s ∧
  server_config (count_received n s) = server_config s.
Proof. done. Qed.

Lemma handle_datagram_state w now data a l s :
  (handle_datagram w now data a l s).1.2
  = match received_frame data l with
    | Some f =>
        (dmr_relay_frame w f (Some a)
           (dmr_process_frame w now f a
              (count_received (recvfrom data (buffer l)).1 s)).1.2).1.2
    | None => count_received (recvfrom data (buffer l)).1 s
    end.
Proof.
  destruct (received_frame data l) as [f|] eqn:Hf.
  - by rewrite (handle_datagram_frame w now data a l s f Hf).
  - by rewrite (handle_datagram_dropped w now data a l s Hf).
Qed.

Lemma handle_datagram_invariants w now data a l s :
  registry_inv s → unique_endpoints s →
  registry_inv (handle_datagram w now data a l s).1.2 ∧
  unique_endpoints (handle_datagram w now data a l s).1.2 ∧
  server_config (handle_datagram w now data a l s).1.2 = server_config s.
Proof.
  intros Hinv Hu. rewrite handle_datagram_state.
  set (s0 := count_received (recvfrom data (buffer l)).1 s).
  assert (registry_inv s0) as Hinv0 by exact Hinv.
  assert (unique_endpoints s0) as Hu0 by exact Hu.
  destruct (received_frame data l) as [f|]; [|done].
  split; [by apply registry_inv_relay, registry_inv_process_frame|].
  split; [by apply unique_endpoints_relay, unique_endpoints_process_frame|].
  destruct (relay_frame_registry w f (Some a) (dmr_process_frame w now f a s0).1.2)
    as (_ & _ & ->).
  by rewrite process_frame_config.
Qed.

Lemma periodic_cleanup_cases now now' l s :
  (60 < now - last_cleanup l ∧
   periodic_cleanup now now' l s
   = (Locals (buffer l) (frame l) now, (dmr_cleanup_clients now' s).1,
      (dmr_cleanup_clients now' s).2)) ∨
  (now - last_cleanup l ≤ 60 ∧ periodic_cleanup now now' l s = (l, s, [])).
Proof.
  unfold periodic_cleanup. destruct (60 <? now - last_cleanup l) eqn:E.
  - left. apply Z.ltb_lt in E. split; [done|].
    by destruct (dmr_cleanup_clients now' s) as [s' ev].
  - right. apply Z.ltb_ge in E. done.
Qed.

Lemma cleanup_sends_nothing now s d bytes : EvSendto d bytes ∉ (dmr_cleanup_clients now s).2.
Proof.
  unfold dmr_cleanup_clients. rewrite cleanup_loop_spec. simpl.
  destruct (db_enabled (server_config s)); [|by intros ?%elem_of_nil].
  intros (c & Heq & _)%list_elem_of_fmap. done.
Qed.

Lemma server_iteration_invariants w t1 t2 t3 data a l s :
  registry_inv s → unique_endpoints s → locals_ok l → Forall is_byte data →
  registry_inv (server_iteration w t1 t2 t3 data a l s).1.2 ∧
  unique_endpoints (server_iteration w t1 t2 t3 data a l s).1.2 ∧
  server_config (server_iteration w t1 t2 t3 data a l s).1.2 = server_config s ∧
  locals_ok (server_iteration w t1 t2 t3 data a l s).1.1 ∧
  ∀ d bytes, EvSendto d bytes ∈ (server_iteration w t1 t2 t3 data a l s).2 →
             length bytes = (DMR_HEADER_SIZE + DMR_PAYLOAD_SIZE)%nat.
Proof.
  intros Hinv Hu Hl Hdata.
  destruct (handle_datagram_invariants w t1 data a l s Hinv Hu) as (Hinv1 & Hu1 & Hcfg1).
  pose proof (handle_datagram_locals_ok w t1 data a l s Hl Hdata) as Hl1.
  assert (∀ d bytes, EvSendto d bytes ∈ (handle_datagram w t1 data a l s).2 →
                     length bytes = (DMR_HEADER_SIZE + DMR_PAYLOAD_SIZE)%nat) as Hsend.
  { intros d bytes Hin.
    destruct (handle_datagram_bytes w t1 data a l s d bytes Hl Hdata Hin) as [Hlen ->].
    destruct Hl as (_ & Hold & _).
    rewrite length_take, length_app, length_drop, Hold.
    unfold DMR_HEADER_SIZE, DMR_PAYLOAD_SIZE in *. lia. }
  unfold server_iteration.
  destruct (handle_datagram w t1 data a l s) as [[l1 s1] ev1]. simpl in *.
  destruct (periodic_cleanup_cases t2 t3 l1 s1) as [[_ ->]|[_ ->]]; simpl.
  - split; [by apply registry_inv_cleanup|]. split; [by apply unique_endpoints_cleanup|].
    destruct (cleanup_evicts_session t3 s1) as [_ ->]. split; [done|]. split; [done|].
    intros d bytes [Hin|Hin]%elem_of_app; [by apply (Hsend d)|].
    by apply cleanup_sends_nothing in Hin.
  - split; [done|]. split; [done|]. split; [done|]. split; [done|].
    intros d bytes Hin. rewrite app_nil_r in Hin. by apply (Hsend d).
Qed.

(** X13: after any number of iterations of the receive loop from the
    initialised registry, over any datagrams from any sources and any
    clock readings, [client_count] is the number of active slots of the
    100-slot array and lies between 0 and 100, no two sessions share an
    endpoint, the configuration is the one set at initialisation, the
    local arrays keep their sizes, and every datagram sent has 33 bytes. *)
Theorem receive_loop_invariants (w : world) (cfg : dmr_config_t)
    (arrivals : list arrival) (l : run_locals) :
  locals_ok l →
  Forall (λ x, Forall is_byte (datagram x)) arrivals →
  let r := server_loop w arrivals l (dmr_server_init cfg) in
  registry_inv r.1.2 ∧
  unique_endpoints r.1.2 ∧
  0 ≤ client_count r.1.2 ≤ 100 ∧
  server_config r.1.2 = cfg ∧
  locals_ok r.1.1 ∧
  ∀ d bytes, EvSendto d bytes ∈ r.2 → length bytes = 33%nat.
Proof.
  intros Hl Hdata.
  assert (∀ s l,
            registry_inv s → unique_endpoints s → locals_ok l →
            registry_inv (server_loop w arrivals l s).1.2 ∧
            unique_endpoints (server_loop w arrivals l s).1.2 ∧
            server_config (server_loop w arrivals l s).1.2 = server_config s ∧
            locals_ok (server_loop w arrivals l s).1.1 ∧
            ∀ d bytes, EvSendto d bytes ∈ (server_loop w arrivals l s).2 →
                       length bytes = 33%nat) as Hloop.
  { clear Hl l. induction arrivals as [|x rest IH]; intros s l Hinv Hu Hl.
    - simpl. split; [done|]. split; [done|]. split; [done|]. split; [done|].
      by intros d bytes ?%elem_of_nil.
    - apply Forall_cons in Hdata as [Hx Hrest]. simpl.
      destruct (server_iteration_invariants w (t_frame x) (t_loop x) (t_cleanup x)
                  (datagram x) (source x) l s Hinv Hu Hl Hx)
        as (Hinv1 & Hu1 & Hcfg1 & Hl1 & Hsend1).
      destruct (server_iteration w _ _ _ _ _ l s) as [[l1 s1] ev1]. simpl in *.
      destruct (IH Hrest s1 l1 Hinv1 Hu1 Hl1) as (Hinv2 & Hu2 & Hcfg2 & Hl2 & Hsend2).
      destruct (server_loop w rest l1 s1) as [[l2 s2] ev2]. simpl in *.
      split; [done|]. split; [done|]. split; [congruence|]. split; [done|].
      intros d bytes [Hin|Hin]%elem_of_app; [by apply (Hsend1 d)|by apply (Hsend2 d)]. }
  intros r.
  destruct (Hloop (dmr_server_init cfg) l (registry_inv_init cfg)
              (unique_endpoints_init cfg) Hl) as (Hinv & Hu & Hcfg & Hl' & Hsend).
  pose proof (registry_inv_bounds _ Hinv). done.
Qed.

(** X14: an iteration that receives a datagram shorter than six bytes
    sends nothing, and still runs the eviction pass when more than 60
    seconds have passed since the last one: the registry is then the one
    the pass leaves and the time of the last pass is the loop's clock
    reading. Otherwise the registry and that time stay as they were. *)
Theorem short_datagram_iteration (w : world) (t1 t2 t3 : Z) (data : list Z)
    (a : sockaddr_in) (l : run_locals) (s : server_state) :
  (length data < DMR_HEADER_SIZE)%nat →
  let r := server_iteration w t1 t2 t3 data a l s in
  sendto_targets r.2 = [] ∧
  (60 < t2 - last_cleanup l →
   clients r.1.2 = clients (dmr_cleanup_clients t3 s).1 ∧
   client_count r.1.2 = client_count (dmr_cleanup_clients t3 s).1 ∧
   r.2 = (dmr_cleanup_clients t3 s).2 ∧
   last_cleanup r.1.1 = t2) ∧
  (t2 - last_cleanup l ≤ 60 →
   clients r.1.2 = clients s ∧ client_count r.1.2 = client_count s ∧
   r.2 = [] ∧ last_cleanup r.1.1 = last_cleanup l).
Proof.
  intros Hshort r.
  assert (received_frame data l = None) as Hnone.
  { unfold received_frame. apply decode_short. rewrite recvfrom_bytes_read. lia. }
  unfold r, server_iteration.
  rewrite (handle_datagram_dropped w t1 data a l s Hnone).
  set (s0 := count_received (recvfrom data (buffer l)).1 s).
  set (l0 := Locals _ _ _).
  assert (dmr_cleanup_clients t3 s0
          = (set_client_count (client_count (dmr_cleanup_clients t3 s).1)
               (set_clients (clients (dmr_cleanup_clients t3 s).1) s0),
             (dmr_cleanup_clients t3 s).2)) as Hclean
    by (unfold dmr_cleanup_clients; by rewrite !cleanup_loop_spec).
  destruct (periodic_cleanup_cases t2 t3 l0 s0) as [[Hdue ->]|[Hnot ->]]; simpl.
  - rewrite Hclean. simpl. split; [|split].
    + apply no_sends_no_targets, cleanup_sends_nothing.
    + done.
    + intros Hnot. unfold l0 in Hdue. simpl in Hdue. lia.
  - split; [done|]. split; [|done]. intros Hdue. unfold l0 in Hnot. simpl in Hnot. lia.
Qed.

(** ** The database module *)

Lemma unusable_spec (st : Db.db_state) :
  Db.unusable st = true ↔ Db.db_enabled st = false ∨ Db.mysql_conn st = None.
Proof.
  unfold Db.unusable. destruct st as [[h|] [|]]; simpl; split; intros H;
    try done; try (by left); try (by right); by destruct H.
Qed.

Lemma unusable_calls (lib : Db.mysql_lib) (st : Db.db_state) :
  Db.unusable st = true →
  (∀ f a, Db.dmr_db_log_frame lib st f a = (0, [])) ∧
  (∀ c name, Db.dmr_db_log_client lib st c name = (0, [])) ∧
  (∀ id size, Db.dmr_db_get_callsign lib st id size = (None, [])) ∧
  Db.dmr_db_create_tables lib st = (0, []).
Proof.
  intros Hu.
  unfold Db.dmr_db_log_frame, Db.dmr_db_log_client, Db.dmr_db_get_callsign,
    Db.dmr_db_create_tables.
  by rewrite Hu.
Qed.

Lemma unusable_replay (lib : Db.mysql_lib) (st : Db.db_state) (ev : list event) :
  Db.unusable st = true → Db.replay lib st ev = [].
Proof.
  intros Hu. destruct (unusable_calls lib st Hu) as (Hf & Hc & Hg & _).
  unfold Db.replay. induction ev as [|e ev IH]; [done|].
  rewrite bind_cons, IH, app_nil_r.
  destruct e; simpl; by rewrite ?Hf, ?Hc, ?Hg.
Qed.

(** X15: [dmr_db_init] called while the module is disabled (as at
    program start, or after [dmr_db_cleanup]) never sends a statement to
    the database, whatever the library answers: [dmr_db_create_tables]
    runs before [db_enabled] is set and returns at its guard, so the
    tables are not created. When the configuration enables the database
    and the call returns 0, the module is enabled with an open
    connection. *)
Theorem init_creates_no_tables (lib : Db.mysql_lib) (config : dmr_db_config_t)
    (st : Db.db_state) :
  Db.db_enabled st = false →
  (∀ q, Db.Query q ∉ (Db.dmr_db_init lib config st).2) ∧
  (enabled config = true → (Db.dmr_db_init lib config st).1.1 = 0 →
   Db.db_enabled (Db.dmr_db_init lib config st).1.2 = true ∧
   Db.mysql_conn (Db.dmr_db_init lib config st).1.2 = Db.init_handle lib ∧
   is_Some (Db.init_handle lib) ∧
   Db.library_init_fails lib = false ∧ Db.connect_ok lib = true).
Proof.
  intros Hoff. unfold Db.dmr_db_init.
  destruct (enabled config); simpl.
  2:{ split; [by intros q ?%elem_of_nil|done]. }
  destruct (Db.library_init_fails lib); simpl.
  { split; [|done]. intros q Hin. apply elem_of_cons in Hin as [?|?%elem_of_nil]; done. }
  destruct (Db.init_handle lib) as [h|]; simpl.
  2:{ split; [|done]. intros q Hin.
      repeat (apply elem_of_cons in Hin as [?|Hin]; [done|]). by apply elem_of_nil in Hin. }
  assert (Db.dmr_db_create_tables lib (Db.DbState (Some h) (Db.db_enabled st)) = (0, []))
    as -> by (apply unusable_calls, unusable_spec; by left).
  destruct (Db.connect_ok lib); simpl.
  - split; [|by eauto]. intros q Hin.
    repeat (apply elem_of_cons in Hin as [?|Hin]; [done|]). by apply elem_of_nil in Hin.
  - split; [|done]. intros q Hin.
    repeat (apply elem_of_cons in Hin as [?|Hin]; [done|]). by apply elem_of_nil in Hin.
Qed.

(** X16: when [dmr_db_init], called at program start, fails or finds
    the database disabled in the configuration, the module stays disabled
    without a connection; every later [dmr_db_log_frame] and
    [dmr_db_log_client] returns 0 and [dmr_db_get_callsign] returns -1
    without a library call, so the database calls of any server trace
    reach no library function. *)
Theorem no_database_after_failed_init (lib : Db.mysql_lib) (config : dmr_db_config_t) :
  (Db.dmr_db_init lib config Db.initial).1.1 ≠ 0 ∨ enabled config = false →
  (Db.dmr_db_init lib config Db.initial).1.2 = Db.initial ∧
  ∀ lib',
    (∀ f a, Db.dmr_db_log_frame lib' Db.initial f a = (0, [])) ∧
    (∀ c name, Db.dmr_db_log_client lib' Db.initial c name = (0, [])) ∧
    (∀ id size, Db.dmr_db_get_callsign lib' Db.initial id size = (None, [])) ∧
    (∀ ev, Db.replay lib' Db.initial ev = []).
Proof.
  intros Hfail. split.
  - unfold Db.dmr_db_init in *.
    destruct (enabled config); simpl in *; [|done].
    destruct (Db.library_init_fails lib); simpl in *; [done|].
    destruct (Db.init_handle lib) as [h|]; simpl in *; [|done].
    destruct (Db.connect_ok lib); simpl in *; [|done].
    destruct Hfail as [Hfail|Hfail]; done.
  - intros lib'.
    assert (Db.unusable Db.initial = true) as Hu by done.
    destruct (unusable_calls lib' Db.initial Hu) as (Hf & Hc & Hg & _).
    repeat split; try done. intros ev. by apply unusable_replay.
Qed.

(** ** The command line *)

Ltac option_cases arg :=
  repeat match goal with
         | |- context [String.eqb arg ?opt] =>
             let E := fresh "E" in
             destruct (String.eqb arg opt) eqn:E;
             [apply String.eqb_eq in E; subst arg; simpl|simpl]
         end.

(** An option that goes on without its successor does so whatever the
    successor is, and no option consumes a value that is not there. *)
Lemma parse_option_last atoi arg c :
  match Main.parse_option atoi arg None c with
  | Main.Next c' => ∀ next, Main.parse_option atoi arg next c = Main.Next c'
  | Main.SkipValue _ => False
  | Main.Exit _ => True
  end.
Proof.
  unfold Main.parse_option. simpl. rewrite !andb_false_r.
  option_cases arg; try done; intros [v|]; done.
Qed.

Lemma parse_args_app atoi (args more : list string) c c' :
  Main.parse_args atoi args c = inl c' →
  Main.parse_args atoi (args ++ more) c = Main.parse_args atoi more c'.
Proof.
  remember (length args) as n eqn:Hn. revert args c Hn.
  induction n as [n IH] using lt_wf_ind. intros args c Hn Hparse.
  destruct args as [|arg rest]; [by injection Hparse as ->|].
  destruct rest as [|r rest'].
  - simpl in *. pose proof (parse_option_last atoi arg c) as Hlast.
    destruct (Main.parse_option atoi arg None c) as [c1|c1|code]; [|done|done].
    injection Hparse as ->. by rewrite Hlast.
  - change (Main.parse_args atoi ((arg :: r :: rest') ++ more) c)
      with (match Main.parse_option atoi arg (Some r) c with
            | Main.Exit code => inr code
            | Main.Next c1 => Main.parse_args atoi ((r :: rest') ++ more) c1
            | Main.SkipValue c1 => Main.parse_args atoi (rest' ++ more) c1
            end).
    change (Main.parse_args atoi (arg :: r :: rest') c)
      with (match Main.parse_option atoi arg (Some r) c with
            | Main.Exit code => inr code
            | Main.Next c1 => Main.parse_args atoi (r :: rest') c1
            | Main.SkipValue c1 => Main.parse_args atoi rest' c1
            end) in Hparse.
    destruct (Main.parse_option atoi arg (Some r) c) as [c1|c1|code]; [| |done].
    + apply (IH (length (r :: rest'))); [simpl in *; lia|done|done].
    + apply (IH (length rest')); [simpl in *; lia|done|done].
Qed.

(** X17: the argument loop works from left to right: when a sequence of
    arguments is accepted and gives a configuration, any arguments after
    it are read as if they came first with that configuration. *)
Theorem accepted_arguments_compose (atoi : string → Z) (args more : list string)
    (c c' : Main.config) :
  Main.parse_args atoi args c = inl c' →
  Main.parse_args atoi (args ++ more) c = Main.parse_args atoi more c'.
Proof. apply parse_args_app. Qed.

(** X18: after accepted arguments, [-h] makes [main] return 0 whatever
    follows it; an argument that is none of the options makes it return 1
    whatever follows; and an option that takes a value makes it return 1
    when it is the last argument. *)
Theorem arguments_that_end_the_program (atoi : string → Z) (args more : list string)
    (c c' : Main.config) (arg : string) :
  Main.parse_args atoi args c = inl c' →
  Main.parse_args atoi (args ++ "-h" :: more) c = inr 0 ∧
  (arg ∉ Main.value_options ++ Main.flag_options →
   Main.parse_args atoi (args ++ arg :: more) c = inr 1) ∧
  (arg ∈ Main.value_options → Main.parse_args atoi (args ++ [arg]) c = inr 1).
Proof.
  intros Hparse. rewrite !(parse_args_app atoi args _ c c' Hparse).
  split; [|split].
  - simpl. unfold Main.parse_option. by destruct (head more).
  - intros Hnot. simpl.
    assert (Main.parse_option atoi arg (head more) c' = Main.Exit 1) as ->; [|done].
    unfold Main.parse_option.
    option_cases arg; try done;
      destruct Hnot; unfold Main.value_options, Main.flag_options; simpl;
      rewrite !elem_of_cons; tauto.
  - intros Hin. unfold Main.value_options in Hin.
    repeat (apply elem_of_cons in Hin as [->|Hin]; [done|]).
    by apply elem_of_nil in Hin.
Qed.

(** ** Receive counters and the frame log *)

Lemma process_frame_counters w now f a s :
  packets_received (dmr_process_frame w now f a s).1.2 = packets_received s ∧
  bytes_received (dmr_process_frame w now f a s).1.2 = bytes_received s ∧
  packets_relayed (dmr_process_frame w now f a s).1.2 = packets_relayed s ∧
  bytes_sent (dmr_process_frame w now f a s).1.2 = bytes_sent s.
Proof.
  destruct (list_find (is_client_of a) (clients s)) as [[i c]|] eqn:E.
  - by rewrite (process_frame_found w now f a s i c E).
  - rewrite (process_frame_new w now f a s E). unfold dmr_add_client.
    by destruct (list_find is_free (clients s)) as [[j x]|].
Qed.

Lemma relay_frame_receive_counters w f x s :
  packets_received (dmr_relay_frame w f x s).1.2 = packets_received s ∧
  bytes_received (dmr_relay_frame w f x s).1.2 = bytes_received s.
Proof.
  unfold dmr_relay_frame.
  by destruct (relay_loop w (encode f) x (clients s) _ _) as [[b p] ev].
Qed.

Lemma cleanup_receive_counters now s :
  packets_received (dmr_cleanup_clients now s).1 = packets_received s ∧
  bytes_received (dmr_cleanup_clients now s).1 = bytes_received s.
Proof. unfold dmr_cleanup_clients. by rewrite cleanup_loop_spec. Qed.

Lemma server_iteration_receive_counters w t1 t2 t3 data a l s :
  packets_received (server_iteration w t1 t2 t3 data a l s).1.2
  = add64 (packets_received s) 1 ∧
  bytes_received (server_iteration w t1 t2 t3 data a l s).1.2
  = add64 (bytes_received s) (Z.of_nat (Nat.min (length data) DMR_BUFFER_SIZE)).
Proof.
  assert (packets_received (handle_datagram w t1 data a l s).1.2
          = add64 (packets_received s) 1 ∧
          bytes_received (handle_datagram w t1 data a l s).1.2
          = add64 (bytes_received s) (Z.of_nat (Nat.min (length data) DMR_BUFFER_SIZE)))
    as Hh.
  { rewrite handle_datagram_state. destruct (received_frame data l) as [f|]; [|done].
    destruct (relay_frame_receive_counters w f (Some a)
                (dmr_process_frame w t1 f a
                   (count_received (recvfrom data (buffer l)).1 s)).1.2) as [-> ->].
    destruct (process_frame_counters w t1 f a
                (count_received (recvfrom data (buffer l)).1 s)) as (-> & -> & _).
    done. }
  unfold server_iteration.
  destruct (handle_datagram w t1 data a l s) as [[l1 s1] ev1]. simpl in Hh.
  destruct (periodic_cleanup_cases t2 t3 l1 s1) as [[_ ->]|[_ ->]]; simpl; [|done].
  destruct (cleanup_receive_counters t3 s1) as (-> & ->). done.
Qed.

(** X19: from the initialised server, [packets_received] is the number
    of datagrams received and [bytes_received] the sum of their lengths
    as [recvfrom] reports them (at most 1024 each), both modulo 2^64:
    datagrams that are too short to be parsed are counted as well. *)
Theorem every_datagram_is_counted (w : world) (cfg : dmr_config_t)
    (arrivals : list arrival) (l : run_locals) :
  let s := (server_loop w arrivals l (dmr_server_init cfg)).1.2 in
  packets_received s = Z.of_nat (length arrivals) mod 2 ^ 64 ∧
  bytes_received s
  = foldr Z.add 0
      ((λ x, Z.of_nat (Nat.min (length (datagram x)) DMR_BUFFER_SIZE)) <$> arrivals)
    mod 2 ^ 64.
Proof.
  assert (∀ s l,
            0 ≤ packets_received s < 2 ^ 64 → 0 ≤ bytes_received s < 2 ^ 64 →
            packets_received (server_loop w arrivals l s).1.2
            = (packets_received s + Z.of_nat (length arrivals)) mod 2 ^ 64 ∧
            bytes_received (server_loop w arrivals l s).1.2
            = (bytes_received s
               + foldr Z.add 0
                   ((λ x, Z.of_nat (Nat.min (length (datagram x)) DMR_BUFFER_SIZE))
                      <$> arrivals)) mod 2 ^ 64) as Hloop.
  { induction arrivals as [|x rest IH]; intros s0 l0 Hp0 Hb0.
    - simpl. by rewrite !Z.add_0_r, !Z.mod_small.
    - cbn [server_loop].
      destruct (server_iteration_receive_counters w (t_frame x) (t_loop x) (t_cleanup x)
                  (datagram x) (source x) l0 s0) as [Hp1 Hb1].
      destruct (server_iteration w _ _ _ _ _ l0 s0) as [[l1 s1] ev1].
      cbn [fst snd] in Hp1, Hb1.
      destruct (IH s1 l1) as [Hp2 Hb2].
      { rewrite Hp1. apply Z.mod_pos_bound. lia. }
      { rewrite Hb1. apply Z.mod_pos_bound. lia. }
      destruct (server_loop w rest l1 s1) as [[l2 s2] ev2].
      cbn [fst snd] in *. rewrite Hp2, Hb2, Hp1, Hb1. unfold add64.
      rewrite !Zplus_mod_idemp_l, fmap_cons, length_cons. cbn [foldr].
      split; f_equal; lia. }
  intros s. unfold s. destruct (Hloop (dmr_server_init cfg) l) as [-> ->]; simpl; [lia|lia|].
  done.
Qed.

Lemma process_frame_logs_frame w now f a s :
  logged_frames (dmr_process_frame w now f a s).2
  = (if db_enabled (server_config s) then [(f, a)] else []).
Proof.
  unfold dmr_process_frame, dmr_add_client.
  destruct (list_find (is_client_of a) (clients s)) as [[i c]|];
    [|destruct (list_find is_free (clients s)) as [[j x]|]]; simpl;
    repeat match goal with
           | |- context [if ?b then _ else _] => destruct b
           | |- context [match db_get_callsign w ?i with _ => _ end] =>
               destruct (db_get_callsign w i)
           end; done.
Qed.

Lemma relay_logs_no_frame w f x s : logged_frames (dmr_relay_frame w f x s).2 = [].
Proof.
  assert (∀ e, e ∈ (dmr_relay_frame w f x s).2 → ∃ d, e = EvSendto d (encode f)) as Hall
    by (intros e; apply relay_frame_data).
  induction (dmr_relay_frame w f x s).2 as [|e ev IH]; [done|].
  destruct (Hall e) as [d ->]; [by left|]. simpl. apply IH.
  intros e' He'. apply Hall. by right.
Qed.

(** X20: each datagram that is parsed (six bytes or more) is handed to
    [dmr_db_log_frame] exactly once when logging is enabled, with its
    source, whether or not the sender could be registered and whoever
    receives it; nothing is logged for a shorter datagram or with logging
    disabled. *)
Theorem parsed_frame_is_logged_once (w : world) (now : Z) (data : list Z)
    (a : sockaddr_in) (l : run_locals) (s : server_state) :
  logged_frames (handle_datagram w now data a l s).2
  = match received_frame data l with
    | Some f => if db_enabled (server_config s) then [(f, a)] else []
    | None => []
    end ∧
  (is_Some (received_frame data l) ↔ (DMR_HEADER_SIZE ≤ length data)%nat).
Proof.
  split.
  - destruct (received_frame data l) as [f|] eqn:Hf.
    + rewrite (handle_datagram_frame w now data a l s f Hf). simpl.
      unfold logged_frames. rewrite omap_app.
      fold (logged_frames (dmr_process_frame w now f a
                             (count_received (recvfrom data (buffer l)).1 s)).2).
      fold (logged_frames
              (dmr_relay_frame w f (Some a)
                 (dmr_process_frame w now f a
                    (count_received (recvfrom data (buffer l)).1 s)).1.2).2).
      rewrite process_frame_logs_frame, relay_logs_no_frame, app_nil_r. done.
    + by rewrite (handle_datagram_dropped w now data a l s Hf).
  - unfold received_frame. rewrite <- not_eq_None_Some. split.
    + intros Hsome. destruct (decide (DMR_HEADER_SIZE ≤ length data)%nat); [done|].
      destruct Hsome. apply decode_short. rewrite recvfrom_bytes_read. lia.
    + intros Hlen. destruct (decode_long (recvfrom data (buffer l)).2
                               (recvfrom data (buffer l)).1 (frame l)) as [f ->]; [|done].
      rewrite recvfrom_bytes_read. unfold DMR_HEADER_SIZE, DMR_BUFFER_SIZE in *. lia.
Qed.

(** ** Scenarios for the further properties *)

Lemma registry_AB_ok : registry_inv registry_AB ∧ unique_endpoints registry_AB.
Proof.
  split; [split; vm_compute; reflexivity|].
  apply (bool_decide_unpack _). vm_compute. exact I.
Defined.

Lemma zero_locals_ok : locals_ok zero_locals.
Proof.
  repeat split; try (vm_compute; reflexivity);
    apply Forall_replicate; unfold is_byte; lia.
Defined.

(** With a NULL excluded address both sessions are targets, in slot
    order, although the send to B fails. *)
Lemma relay_attempts_every_target_witness :
  sendto lossy_world endpoint_B (encode (voice_frame 200)) < 0 ∧
  sendto_targets (dmr_relay_frame lossy_world (voice_frame 200) None registry_AB).2
  = [endpoint_A; endpoint_B].
Proof.
  split; [vm_compute; reflexivity|].
  destruct (relay_attempts_every_target lossy_world (voice_frame 200) None registry_AB)
    as (_ & Hall & _).
  exact (eq_trans (Hall eq_refl) eq_refl).
Defined.

(** Of the sends to A and B only the one to A completes: one packet and
    33 bytes are counted. *)
Lemma relay_counts_completed_sends_witness :
  0 ≤ bytes_sent registry_AB < 2 ^ 64 ∧
  0 ≤ packets_relayed registry_AB < 2 ^ 64 ∧
  packets_relayed
    (dmr_relay_frame lossy_world (sync_frame 7) (Some endpoint_C) registry_AB).1.2 = 1 ∧
  bytes_sent
    (dmr_relay_frame lossy_world (sync_frame 7) (Some endpoint_C) registry_AB).1.2 = 33.
Proof.
  assert (0 ≤ bytes_sent registry_AB < 2 ^ 64) as Hb by (vm_compute; split; [discriminate|reflexivity]).
  assert (0 ≤ packets_relayed registry_AB < 2 ^ 64) as Hp
    by (vm_compute; split; [discriminate|reflexivity]).
  destruct (relay_counts_completed_sends lossy_world (sync_frame 7) (Some endpoint_C)
              registry_AB Hb Hp) as (Hpk & Hby & _).
  split; [exact Hb|]. split; [exact Hp|]. split.
  - exact (eq_trans Hpk ltac:(vm_compute; reflexivity)).
  - exact (eq_trans Hby ltac:(vm_compute; reflexivity)).
Defined.

(** Ten bytes from A are relayed to B as 33 bytes: the datagram and 23
    bytes of the frame variable. *)
Lemma relayed_datagram_bytes_witness :
  locals_ok zero_locals ∧ Forall is_byte ten_byte_datagram ∧
  EvSendto endpoint_B (ten_byte_datagram ++ replicate 23 0)
  ∈ (handle_datagram quiet_world 1002 ten_byte_datagram endpoint_A zero_locals
       registry_AB).2 ∧
  ten_byte_datagram ++ replicate 23 0
  = ten_byte_datagram ++ drop (length ten_byte_datagram - 6) (payload (frame zero_locals)).
Proof.
  assert (Forall is_byte ten_byte_datagram) as Hd
    by (apply (bool_decide_unpack _); vm_compute; exact I).
  assert (EvSendto endpoint_B (ten_byte_datagram ++ replicate 23 0)
          ∈ (handle_datagram quiet_world 1002 ten_byte_datagram endpoint_A zero_locals
               registry_AB).2) as Hin
    by (apply (bool_decide_unpack _); vm_compute; exact I).
  destruct (relayed_datagram_bytes quiet_world 1002 ten_byte_datagram endpoint_A
              zero_locals registry_AB zero_locals_ok Hd) as [_ Hall].
  destruct (Hall _ _ Hin) as (_ & _ & _ & Hshort).
  split; [exact zero_locals_ok|]. split; [exact Hd|]. split; [exact Hin|].
  apply Hshort. vm_compute. lia.
Defined.

(** A sends 35 bytes, then B sends 10: A receives B's ten bytes followed
    by bytes 10 to 32 of its own earlier datagram. *)
Lemma short_datagram_carries_previous_payload_witness :
  locals_ok zero_locals ∧ Forall is_byte long_datagram ∧ Forall is_byte ten_byte_datagram ∧
  (33 ≤ length long_datagram)%nat ∧ (6 ≤ length ten_byte_datagram < 33)%nat ∧
  EvSendto endpoint_A (ten_byte_datagram ++ (Z.of_nat <$> seq 3 23))
  ∈ (handle_datagram quiet_world 1001 ten_byte_datagram endpoint_B
       (handle_datagram quiet_world 1000 long_datagram endpoint_A zero_locals
          (dmr_server_init default_config)).1.1
       (handle_datagram quiet_world 1000 long_datagram endpoint_A zero_locals
          (dmr_server_init default_config)).1.2).2 ∧
  ten_byte_datagram ++ (Z.of_nat <$> seq 3 23)
  = ten_byte_datagram ++ drop (length ten_byte_datagram) (take 33 long_datagram).
Proof.
  assert (Forall is_byte long_datagram) as Hd1
    by (apply (bool_decide_unpack _); vm_compute; exact I).
  assert (Forall is_byte ten_byte_datagram) as Hd2
    by (apply (bool_decide_unpack _); vm_compute; exact I).
  assert (33 ≤ length long_datagram)%nat as Hl1 by (vm_compute; lia).
  assert (6 ≤ length ten_byte_datagram < 33)%nat as Hl2 by (vm_compute; lia).
  split; [exact zero_locals_ok|]. split; [exact Hd1|]. split; [exact Hd2|].
  split; [exact Hl1|]. split; [exact Hl2|].
  assert (EvSendto endpoint_A (ten_byte_datagram ++ (Z.of_nat <$> seq 3 23))
          ∈ (handle_datagram quiet_world 1001 ten_byte_datagram endpoint_B
               (handle_datagram quiet_world 1000 long_datagram endpoint_A zero_locals
                  (dmr_server_init default_config)).1.1
               (handle_datagram quiet_world 1000 long_datagram endpoint_A zero_locals
                  (dmr_server_init default_config)).1.2).2) as Hin
    by (apply (bool_decide_unpack _); vm_compute; exact I).
  split; [exact Hin|].
  exact (short_datagram_carries_previous_payload quiet_world 1000 1001 long_datagram
           ten_byte_datagram endpoint_A endpoint_B zero_locals
           (dmr_server_init default_config) zero_locals_ok Hd1 Hd2 Hl1 Hl2 _ _ Hin).
Defined.

(** A's session has identifier zero; its next frame carries 100 and is
    processed at 1500. *)
Lemma known_sender_is_touched_witness :
  registered endpoint_A
    (run directory_world (dmr_server_init logging_config) anonymous_session) ∧
  ∃ i c',
    clients (dmr_process_frame directory_world 1500 (sync_frame 100) endpoint_A
               (run directory_world (dmr_server_init logging_config)
                  anonymous_session)).1.2
    = <[i := c']>
        (clients (run directory_world (dmr_server_init logging_config) anonymous_session)) ∧
    addr c' = endpoint_A ∧ last_seen c' = 1500.
Proof.
  assert (registered endpoint_A
            (run directory_world (dmr_server_init logging_config) anonymous_session))
    as Hreg by (apply lookup_registered; vm_compute; eauto).
  destruct (known_sender_is_touched directory_world 1500 (sync_frame 100) endpoint_A
              (run directory_world (dmr_server_init logging_config) anonymous_session)
              Hreg) as (i & c & c' & _ & Hcl & Ha & _ & Hseen & _).
  split; [exact Hreg|]. exists i, c'. split; [exact Hcl|]. split; [exact Ha|exact Hseen].
Defined.

(** C sends its first frame while A and B have sessions. *)
Lemma unknown_sender_is_registered_witness :
  registry_inv registry_AB ∧ ¬ registered endpoint_C registry_AB ∧
  client_count registry_AB < 100 ∧
  registered endpoint_C
    (dmr_process_frame quiet_world 1002 (voice_frame 300) endpoint_C registry_AB).1.2 ∧
  client_count
    (dmr_process_frame quiet_world 1002 (voice_frame 300) endpoint_C registry_AB).1.2 = 3.
Proof.
  destruct registry_AB_ok as [Hinv _].
  assert (¬ registered endpoint_C registry_AB) as Hnew
    by (apply lookup_unregistered; vm_compute; reflexivity).
  assert (client_count registry_AB < 100) as Hroom by (vm_compute; reflexivity).
  destruct (unknown_sender_is_registered quiet_world 1002 (voice_frame 300) endpoint_C
              registry_AB Hinv Hnew Hroom) as (i & x & _ & _ & Hcount & Hreg & _).
  split; [exact Hinv|]. split; [exact Hnew|]. split; [exact Hroom|].
  split; [exact Hreg|]. exact (eq_trans Hcount eq_refl).
Defined.

(** A is touched at 2000; the pass at 2300, 300 seconds later, keeps it. *)
Lemma touched_session_and_timeout_window_witness :
  registry_inv registry_AB ∧ unique_endpoints registry_AB ∧
  registered endpoint_A registry_AB ∧
  registered endpoint_A
    (dmr_cleanup_clients 2300
       (dmr_process_frame quiet_world 2000 (sync_frame 100) endpoint_A registry_AB).1.2).1.
Proof.
  destruct registry_AB_ok as [Hinv Hu].
  assert (registered endpoint_A registry_AB) as Hreg
    by (apply lookup_registered; vm_compute; eauto).
  destruct (touched_session_and_timeout_window quiet_world 2000 2300 (sync_frame 100)
              endpoint_A registry_AB Hinv Hu (or_introl Hreg)) as [_ Hiff].
  split; [exact Hinv|]. split; [exact Hu|]. split; [exact Hreg|].
  apply Hiff. vm_compute. discriminate.
Defined.

(** A second pass at the same second, after the one that evicted A. *)
Lemma cleanup_after_cleanup_is_noop_witness :
  1301 ≤ 1301 ∧
  dmr_cleanup_clients 1301
    (dmr_cleanup_clients 1301
       (run quiet_world (dmr_server_init default_config) idle_A_active_B)).1
  = ((dmr_cleanup_clients 1301
        (run quiet_world (dmr_server_init default_config) idle_A_active_B)).1, []).
Proof.
  assert (1301 ≤ 1301) as Hle by lia.
  split; [exact Hle|].
  exact (cleanup_after_cleanup_is_noop 1301 1301
           (run quiet_world (dmr_server_init default_config) idle_A_active_B) Hle).
Defined.

(** A callsign of sixteen characters is cut to nine. *)
Lemma callsign_fits_its_field_witness :
  Client endpoint_A 1000 1 true "VERYLONGC"
  ∈ clients (run quiet_world (dmr_server_init default_config) long_named_registration) ∧
  (String.length (callsign (Client endpoint_A 1000 1 true "VERYLONGC")) ≤ 9)%nat.
Proof.
  assert (Client endpoint_A 1000 1 true "VERYLONGC"
          ∈ clients (run quiet_world (dmr_server_init default_config)
                       long_named_registration)) as Hin
    by (apply (bool_decide_unpack _); vm_compute; exact I).
  split; [exact Hin|].
  exact (callsign_fits_its_field quiet_world default_config long_named_registration _ Hin).
Defined.

(** The directory knows identifier 100 and logging is enabled, yet the
    session A creates with it stays without a callsign. *)
Lemma identified_at_creation_never_named_witness :
  db_get_callsign directory_world 100 = Some "BD4XYZ/QRP-1" ∧
  registry_inv (dmr_server_init logging_config) ∧
  ¬ registered endpoint_A (dmr_server_init logging_config) ∧
  client_count (dmr_server_init logging_config) < 100 ∧
  src_id (sync_frame 100) ≠ 0 ∧
  ∃ i c,
    clients (run directory_world
               (dmr_process_frame directory_world 1000 (sync_frame 100) endpoint_A
                  (dmr_server_init logging_config)).1.2
               (frame_op <$> [(1001, sync_frame 100, endpoint_A)])) !! i = Some c ∧
    addr c = endpoint_A ∧ dmr_id c = 100 ∧ callsign c = "".
Proof.
  assert (¬ registered endpoint_A (dmr_server_init logging_config)) as Hnew
    by (apply lookup_unregistered; vm_compute; reflexivity).
  assert (client_count (dmr_server_init logging_config) < 100) as Hroom
    by (vm_compute; reflexivity).
  assert (src_id (sync_frame 100) ≠ 0) as Hsrc by (vm_compute; discriminate).
  destruct (identified_at_creation_never_named directory_world 1000 (sync_frame 100)
              endpoint_A (dmr_server_init logging_config)
              [(1001, sync_frame 100, endpoint_A)]
              (registry_inv_init logging_config) Hnew Hroom Hsrc)
    as (i & c & Hc & Ha & _ & Hid & Hcs & _).
  split; [reflexivity|]. split; [exact (registry_inv_init logging_config)|].
  split; [exact Hnew|]. split; [exact Hroom|]. split; [exact Hsrc|].
  exists i, c. split; [exact Hc|]. split; [exact Ha|]. split; [exact Hid|exact Hcs].
Defined.

(** C is registered and removed again while A and B have sessions. *)
Lemma add_then_remove_restores_registry_witness :
  registry_inv registry_AB ∧ ¬ registered endpoint_C registry_AB ∧
  client_count registry_AB < 100 ∧
  snapshot (dmr_remove_client endpoint_C
              (dmr_add_client 1002 endpoint_C 300 None registry_AB).1.2).1.2
  = snapshot registry_AB.
Proof.
  destruct registry_AB_ok as [Hinv _].
  assert (¬ registered endpoint_C registry_AB) as Hnew
    by (apply lookup_unregistered; vm_compute; reflexivity).
  assert (client_count registry_AB < 100) as Hroom by (vm_compute; reflexivity).
  destruct (add_then_remove_restores_registry 1002 endpoint_C 300 None registry_AB
              Hinv Hnew Hroom) as (_ & _ & _ & Hsnap & _).
  split; [exact Hinv|]. split; [exact Hnew|]. split; [exact Hroom|exact Hsnap].
Defined.

Lemma three_arrivals_bytes : Forall (λ x, Forall is_byte (datagram x)) three_arrivals.
Proof. apply (bool_decide_unpack _). vm_compute. exact I. Defined.

(** After the three arrivals the counter is in range and the sessions
    are unique. *)
Lemma receive_loop_invariants_witness :
  locals_ok zero_locals ∧
  Forall (λ x, Forall is_byte (datagram x)) three_arrivals ∧
  0 ≤ client_count
        (server_loop quiet_world three_arrivals zero_locals
           (dmr_server_init default_config)).1.2 ≤ 100 ∧
  unique_endpoints
    (server_loop quiet_world three_arrivals zero_locals
       (dmr_server_init default_config)).1.2.
Proof.
  destruct (receive_loop_invariants quiet_world default_config three_arrivals zero_locals
              zero_locals_ok three_arrivals_bytes) as (_ & Hu & Hrange & _).
  split; [exact zero_locals_ok|]. split; [exact three_arrivals_bytes|].
  split; [exact Hrange|exact Hu].
Defined.

(** A three-byte datagram arrives at 1400, long after the last pass: A
    (last seen at 1000) is evicted in that iteration. *)
Lemma short_datagram_iteration_witness :
  (length [4; 1; 0] < DMR_HEADER_SIZE)%nat ∧
  60 < 1400 - last_cleanup zero_locals ∧
  client_count
    (server_iteration quiet_world 1400 1400 1400 [4; 1; 0] endpoint_C zero_locals
       (run quiet_world (dmr_server_init default_config) idle_A_active_B)).1.2 = 1.
Proof.
  assert (length [4; 1; 0] < DMR_HEADER_SIZE)%nat as Hshort by (vm_compute; lia).
  assert (60 < 1400 - last_cleanup zero_locals) as Hdue by (vm_compute; reflexivity).
  destruct (short_datagram_iteration quiet_world 1400 1400 1400 [4; 1; 0] endpoint_C
              zero_locals
              (run quiet_world (dmr_server_init default_config) idle_A_active_B) Hshort)
    as (_ & Hrun & _).
  destruct (Hrun Hdue) as (_ & Hcount & _).
  split; [exact Hshort|]. split; [exact Hdue|].
  exact (eq_trans Hcount ltac:(vm_compute; reflexivity)).
Defined.

(** With a library that does everything asked, the module ends up
    enabled and no table has been created. *)
Lemma init_creates_no_tables_witness :
  Db.db_enabled Db.initial = false ∧
  enabled Db.local_db = true ∧
  (Db.dmr_db_init Db.willing Db.local_db Db.initial).1.1 = 0 ∧
  Db.db_enabled (Db.dmr_db_init Db.willing Db.local_db Db.initial).1.2 = true ∧
  (Db.Query Db.CreateClientsTable
   ∉ (Db.dmr_db_init Db.willing Db.local_db Db.initial).2).
Proof.
  destruct (init_creates_no_tables Db.willing Db.local_db Db.initial eq_refl)
    as [Hnone Hok].
  destruct (Hok eq_refl eq_refl) as (Hon & _).
  split; [reflexivity|]. split; [reflexivity|]. split; [reflexivity|].
  split; [exact Hon|]. exact (Hnone Db.CreateClientsTable).
Defined.

(** The connection is refused: later logging reaches no library call. *)
Lemma no_database_after_failed_init_witness :
  (Db.dmr_db_init Db.refusing Db.local_db Db.initial).1.1 ≠ 0 ∧
  (Db.dmr_db_init Db.refusing Db.local_db Db.initial).1.2 = Db.initial ∧
  Db.replay Db.willing Db.initial
    [EvDbLogClient session_A "connect"; EvDbLogFrame (sync_frame 100) endpoint_A] = [].
Proof.
  assert ((Db.dmr_db_init Db.refusing Db.local_db Db.initial).1.1 ≠ 0) as Hfail
    by (vm_compute; discriminate).
  destruct (no_database_after_failed_init Db.refusing Db.local_db (or_introl Hfail))
    as [Hst Hlater].
  destruct (Hlater Db.willing) as (_ & _ & _ & Hreplay).
  split; [exact Hfail|]. split; [exact Hst|]. apply Hreplay.
Defined.

(** The typical arguments give the typical configuration; a bind address
    after them is read with that configuration. *)
Lemma accepted_arguments_compose_witness :
  Main.parse_args Main.digits_atoi typical_arguments Main.defaults = inl typical_config ∧
  Main.parse_args Main.digits_atoi (typical_arguments ++ ["-b"; "10.0.0.1"]) Main.defaults
  = Main.parse_args Main.digits_atoi ["-b"; "10.0.0.1"] typical_config.
Proof.
  assert (Main.parse_args Main.digits_atoi typical_arguments Main.defaults
          = inl typical_config) as Hparse by (vm_compute; reflexivity).
  split; [exact Hparse|].
  exact (accepted_arguments_compose Main.digits_atoi typical_arguments ["-b"; "10.0.0.1"]
           Main.defaults typical_config Hparse).
Defined.

(** After the typical arguments: [-h] before an unknown option gives 0,
    an unknown option gives 1, and a final [-p] without a port gives 1. *)
Lemma arguments_that_end_the_program_witness :
  Main.parse_args Main.digits_atoi typical_arguments Main.defaults = inl typical_config ∧
  Main.parse_args Main.digits_atoi (typical_arguments ++ "-h" :: ["--bogus"]) Main.defaults
  = inr 0 ∧
  Main.parse_args Main.digits_atoi (typical_arguments ++ "--bogus" :: ["-h"]) Main.defaults
  = inr 1 ∧
  Main.parse_args Main.digits_atoi (typical_arguments ++ ["-p"]) Main.defaults = inr 1.
Proof.
  assert (Main.parse_args Main.digits_atoi typical_arguments Main.defaults
          = inl typical_config) as Hparse by (vm_compute; reflexivity).
  assert ("--bogus" ∉ Main.value_options ++ Main.flag_options) as Hbogus
    by (apply (bool_decide_unpack _); vm_compute; exact I).
  assert ("-p" ∈ Main.value_options) as Hp
    by (apply (bool_decide_unpack _); vm_compute; exact I).
  destruct (arguments_that_end_the_program Main.digits_atoi typical_arguments ["--bogus"]
              Main.defaults typical_config "-p" Hparse) as (Hhelp & _ & Hlast).
  destruct (arguments_that_end_the_program Main.digits_atoi typical_arguments ["-h"]
              Main.defaults typical_config "--bogus" Hparse) as (_ & Hunknown & _).
  split; [exact Hparse|]. split; [exact Hhelp|]. split; [exact (Hunknown Hbogus)|].
  exact (Hlast Hp).
Defined.
